(** * chartx DirectX 12 backend: the JNI handle layer

    A shallow embedding of [DX12Common.h] and [DX12Native.cpp] and the
    properties of the handle registry, the blend table, the readback
    de-striding, adapter selection, pipeline creation, command recording
    and fence waiting that are checked against them. *)

From Stdlib Require Import ZArith Lia.
From stdpp Require Import gmap list strings.

Local Open Scope Z_scope.

(** ** Machine integers

    [jint] is a 32-bit and [jlong] a 64-bit two's complement integer,
    [UINT] a 32-bit and [UINT64]/[SIZE_T] a 64-bit unsigned one.  Values are
    kept in [Z] and every operation that can leave the range is wrapped. *)

Definition INT32_MAX : Z := 2 ^ 31 - 1.
Definition INT64_MAX : Z := 2 ^ 63 - 1.

Definition to_jint (z : Z) : Z := (z + 2 ^ 31) mod 2 ^ 32 - 2 ^ 31.
Definition to_jlong (z : Z) : Z := (z + 2 ^ 63) mod 2 ^ 64 - 2 ^ 63.
Definition to_UINT (z : Z) : Z := z mod 2 ^ 32.
Definition to_UINT64 (z : Z) : Z := z mod 2 ^ 64.

(** ** The handle registry ([class HandleManager], DX12Common.h)

    COM objects are identified by their address ([0] is [nullptr]).  The
    reference count of every object that is alive is kept in [refs]; the
    registry itself is the map [objects_] and the counter [nextHandle_].
    Every method body runs under [mutex_], so a concurrent history is a
    sequence of whole method calls, which is what [run] executes. *)

Module Registry.

Record HandleManager := mkHandleManager {
  objects_ : gmap Z Z;
  nextHandle_ : Z;
}.

Record Process := mkProcess {
  refs : gmap Z nat;
  inst : HandleManager;
}.

(** [HandleManager() : nextHandle_(1) {}] *)
Definition instance : HandleManager :=
  {| objects_ := ∅; nextHandle_ := 1 |}.

Definition boot : Process := {| refs := ∅; inst := instance |}.

(** [IUnknown::AddRef] and [IUnknown::Release] on the object at [obj]. *)
Definition AddRef (obj : Z) (r : gmap Z nat) : gmap Z nat :=
  <[obj := S (default 0%nat (r !! obj))]> r.

Definition Release (obj : Z) (r : gmap Z nat) : gmap Z nat :=
  match r !! obj with
  | Some (S (S n)) => <[obj := S n]> r
  | _ => delete obj r
  end.

(** [jlong store(T* obj)] *)
Definition store (obj : Z) (p : Process) : Z * Process :=
  if obj =? 0 then (0, p)
  else
    let handle := nextHandle_ (inst p) in
    (handle,
     {| refs := AddRef obj (refs p);
        inst := {| objects_ := <[handle := obj]> (objects_ (inst p));
                   nextHandle_ := to_jlong (handle + 1) |} |}).

(** [T* get(jlong handle)] *)
Definition get (handle : Z) (p : Process) : Z :=
  match objects_ (inst p) !! handle with
  | Some obj => obj
  | None => 0
  end.

(** [void release(jlong handle)] *)
Definition release (handle : Z) (p : Process) : Process :=
  match objects_ (inst p) !! handle with
  | Some obj =>
      {| refs := Release obj (refs p);
         inst := {| objects_ := delete handle (objects_ (inst p));
                    nextHandle_ := nextHandle_ (inst p) |} |}
  | None => p
  end.

(** [destroyDevice], [destroyCommandQueue], [destroyCommandAllocator],
    [destroyCommandList], [destroyFence], [destroyRootSignature],
    [destroyDescriptorHeap], [destroyResource], [destroyPipelineState],
    [destroyBuffer] and [destroyTexture] are all [RELEASE_HANDLE(handle)]. *)
Definition destroy (handle : Z) (p : Process) : Process := release handle p.

(** Calls on the registry and what they return. *)
Inductive op :=
  | store_ (obj : Z)
  | get_ (handle : Z)
  | release_ (handle : Z).

Inductive result :=
  | RHandle (handle : Z)
  | RObject (obj : Z)
  | RVoid.

Definition step (p : Process) (o : op) : Process * result :=
  match o with
  | store_ obj => let '(h, p') := store obj p in (p', RHandle h)
  | get_ h => (p, RObject (get h p))
  | release_ h => (release h p, RVoid)
  end.

Fixpoint run (ops : list op) (p : Process) : Process * list (op * result) :=
  match ops with
  | [] => (p, [])
  | o :: rest =>
      let '(p1, r) := step p o in
      let '(p2, tr) := run rest p1 in
      (p2, (o, r) :: tr)
  end.

(** The handles handed out by the stores of non-null objects, oldest first. *)
Definition issued_by (e : op * result) : option Z :=
  match e with
  | (store_ obj, RHandle h) => if obj =? 0 then None else Some h
  | _ => None
  end.

Definition issued (tr : list (op * result)) : list Z := omap issued_by tr.

(** The counter, and the handles that resolve to an object. *)
Definition next (p : Process) : Z := nextHandle_ (inst p).
Definition live (p : Process) (h : Z) : Prop := is_Some (objects_ (inst p) !! h).

(** [l] is strictly increasing: every element is greater than all before it. *)
Definition increasing (l : list Z) : Prop :=
  ∀ (i j : nat) (a b : Z), (i < j)%nat → l !! i = Some a → l !! j = Some b → a < b.

(** [h] was handed out and a later call released it. *)
Definition released_in (ops : list op) (h : Z) : Prop :=
  ∃ before after,
    ops = before ++ release_ h :: after ∧ h ∈ issued (run before boot).2.

End Registry.

(** ** Blend states ([GetBlendDesc], DX12Common.h)

    The enumerations of [d3d12.h] that the table uses.  [desc = {}] zeroes
    every field; zero is no enumerator of [D3D12_BLEND] or [D3D12_BLEND_OP],
    so each enumeration has a constructor for the zeroed field. *)

Module Blend.

Inductive D3D12_BLEND :=
  | D3D12_BLEND_zeroed
  | D3D12_BLEND_ZERO
  | D3D12_BLEND_ONE
  | D3D12_BLEND_SRC_COLOR
  | D3D12_BLEND_INV_SRC_COLOR
  | D3D12_BLEND_SRC_ALPHA
  | D3D12_BLEND_INV_SRC_ALPHA
  | D3D12_BLEND_DEST_ALPHA
  | D3D12_BLEND_INV_DEST_ALPHA
  | D3D12_BLEND_DEST_COLOR
  | D3D12_BLEND_INV_DEST_COLOR.

Inductive D3D12_BLEND_OP :=
  | D3D12_BLEND_OP_zeroed
  | D3D12_BLEND_OP_ADD
  | D3D12_BLEND_OP_SUBTRACT
  | D3D12_BLEND_OP_REV_SUBTRACT
  | D3D12_BLEND_OP_MIN
  | D3D12_BLEND_OP_MAX.

Inductive D3D12_LOGIC_OP :=
  | D3D12_LOGIC_OP_CLEAR
  | D3D12_LOGIC_OP_SET
  | D3D12_LOGIC_OP_COPY
  | D3D12_LOGIC_OP_COPY_INVERTED
  | D3D12_LOGIC_OP_NOOP.

Definition D3D12_COLOR_WRITE_ENABLE_ALL : Z := 15.

Record D3D12_RENDER_TARGET_BLEND_DESC := mkBlendDesc {
  BlendEnable : bool;
  LogicOpEnable : bool;
  SrcBlend : D3D12_BLEND;
  DestBlend : D3D12_BLEND;
  BlendOp : D3D12_BLEND_OP;
  SrcBlendAlpha : D3D12_BLEND;
  DestBlendAlpha : D3D12_BLEND;
  BlendOpAlpha : D3D12_BLEND_OP;
  LogicOp : D3D12_LOGIC_OP;
  RenderTargetWriteMask : Z;
}.

(** [enum BlendModeInt] *)
Definition BLEND_NONE : Z := 0.
Definition BLEND_ALPHA : Z := 1.
Definition BLEND_ADDITIVE : Z := 2.
Definition BLEND_MULTIPLY : Z := 3.
Definition BLEND_PREMULTIPLIED_ALPHA : Z := 4.

(** The descriptor before the [switch]: zeroed, then the three assignments. *)
Definition desc0 : D3D12_RENDER_TARGET_BLEND_DESC :=
  {| BlendEnable := false;
     LogicOpEnable := false;
     SrcBlend := D3D12_BLEND_zeroed;
     DestBlend := D3D12_BLEND_zeroed;
     BlendOp := D3D12_BLEND_OP_zeroed;
     SrcBlendAlpha := D3D12_BLEND_zeroed;
     DestBlendAlpha := D3D12_BLEND_zeroed;
     BlendOpAlpha := D3D12_BLEND_OP_zeroed;
     LogicOp := D3D12_LOGIC_OP_NOOP;
     RenderTargetWriteMask := D3D12_COLOR_WRITE_ENABLE_ALL |}.

Definition enabled (src dst : D3D12_BLEND) (op : D3D12_BLEND_OP)
    (srcA dstA : D3D12_BLEND) (opA : D3D12_BLEND_OP) :
    D3D12_RENDER_TARGET_BLEND_DESC :=
  {| BlendEnable := true;
     LogicOpEnable := LogicOpEnable desc0;
     SrcBlend := src;
     DestBlend := dst;
     BlendOp := op;
     SrcBlendAlpha := srcA;
     DestBlendAlpha := dstA;
     BlendOpAlpha := opA;
     LogicOp := LogicOp desc0;
     RenderTargetWriteMask := RenderTargetWriteMask desc0 |}.

(** [D3D12_RENDER_TARGET_BLEND_DESC GetBlendDesc(int blendMode)] *)
Definition GetBlendDesc (blendMode : Z) : D3D12_RENDER_TARGET_BLEND_DESC :=
  if blendMode =? BLEND_NONE then desc0
  else if blendMode =? BLEND_ALPHA then
    enabled D3D12_BLEND_SRC_ALPHA D3D12_BLEND_INV_SRC_ALPHA D3D12_BLEND_OP_ADD
            D3D12_BLEND_ONE D3D12_BLEND_INV_SRC_ALPHA D3D12_BLEND_OP_ADD
  else if blendMode =? BLEND_ADDITIVE then
    enabled D3D12_BLEND_SRC_ALPHA D3D12_BLEND_ONE D3D12_BLEND_OP_ADD
            D3D12_BLEND_ONE D3D12_BLEND_ONE D3D12_BLEND_OP_ADD
  else if blendMode =? BLEND_MULTIPLY then
    enabled D3D12_BLEND_DEST_COLOR D3D12_BLEND_ZERO D3D12_BLEND_OP_ADD
            D3D12_BLEND_DEST_ALPHA D3D12_BLEND_ZERO D3D12_BLEND_OP_ADD
  else if blendMode =? BLEND_PREMULTIPLIED_ALPHA then
    enabled D3D12_BLEND_ONE D3D12_BLEND_INV_SRC_ALPHA D3D12_BLEND_OP_ADD
            D3D12_BLEND_ONE D3D12_BLEND_INV_SRC_ALPHA D3D12_BLEND_OP_ADD
  else desc0.

(** The colour blend of a descriptor: source factor, destination factor and
    operation. *)
Definition colour_blend (d : D3D12_RENDER_TARGET_BLEND_DESC) :
    D3D12_BLEND * D3D12_BLEND * D3D12_BLEND_OP :=
  (SrcBlend d, DestBlend d, BlendOp d).

End Blend.

(** ** Pixel readback ([copyTextureToBuffer], [readBufferData])

    Memory is byte addressed: a buffer or an array is a function from the
    offset of a byte to its value.  A [jint] of the output array is the
    little-endian word of its four bytes. *)

Module Readback.

Definition DXGI_FORMAT_R8G8B8A8_UNORM : Z := 28.

(** [D3D12_SUBRESOURCE_FOOTPRINT] inside a [D3D12_PLACED_SUBRESOURCE_FOOTPRINT]
    ([Offset] stays zero in [dstLoc = {}]). *)
Record Footprint := mkFootprint {
  Offset : Z;
  Format : Z;
  Width : Z;
  Height : Z;
  Depth : Z;
  RowPitch : Z;
}.

(** The destination location that [copyTextureToBuffer] hands to
    [CopyTextureRegion]; [width] and [height] are [jint], the fields [UINT]. *)
Definition copy_footprint (width height : Z) : Footprint :=
  {| Offset := 0;
     Format := DXGI_FORMAT_R8G8B8A8_UNORM;
     Width := to_UINT width;
     Height := to_UINT height;
     Depth := 1;
     RowPitch := to_UINT (Z.land (to_jint (to_jint (width * 4) + 255)) (Z.lnot 255)) |}.

(** [UINT rowPitch = ((width * 4) + 255) & ~255;] in [readBufferData] *)
Definition rowPitch (width : Z) : Z :=
  to_UINT (Z.land (to_jint (to_jint (width * 4) + 255)) (Z.lnot 255)).

(** [memcpy(dst + d, src + s, n)] *)
Definition memcpy (dst : Z → Z) (d : Z) (src : Z → Z) (s : Z) (n : Z) : Z → Z :=
  λ a, if (d <=? a) && (a <? d + n) then src (s + (a - d)) else dst a.

(** One iteration of the row loop: [pixelData] is a [jint*], so
    [pixelData + y * width] is [4 * (y * width)] bytes in; [y * rowPitch] is
    computed in [UINT]; the length [width * 4] is an [int] turned [size_t]. *)
Definition copy_row (width : Z) (mapped : Z → Z) (pixelData : Z → Z) (y : Z) :
    Z → Z :=
  memcpy pixelData (4 * to_jint (y * width))
         mapped (to_UINT (y * rowPitch width))
         (to_UINT64 (to_jint (width * 4))).

(** [for (int y = 0; y < height; y++)], [n] iterations left. *)
Fixpoint row_loop (n : nat) (y : Z) (width : Z) (mapped : Z → Z)
    (pixelData : Z → Z) : Z → Z :=
  match n with
  | O => pixelData
  | S n' => row_loop n' (y + 1) width mapped (copy_row width mapped pixelData y)
  end.

(** [readBufferData]: [Map buffer Begin End] is the outcome of
    [buffer->Map(0, &readRange, &mapped)], the mapped bytes when it
    succeeds; the result is the content of [pixels] afterwards. *)
Definition readBufferData (p : Registry.Process) (Map : Z → Z → Z → option (Z → Z))
    (bufferHandle : Z) (pixels : Z → Z) (width height : Z) : Z → Z :=
  let buffer := Registry.get bufferHandle p in
  if buffer =? 0 then pixels
  else
    match Map buffer 0 (to_UINT64 (to_jint (to_jint (width * height) * 4))) with
    | Some mapped => row_loop (Z.to_nat height) 0 width mapped pixels
    | None => pixels
    end.

(** The [jint] at index [i] of an array. *)
Definition jint_at (mem : Z → Z) (i : Z) : Z :=
  to_jint (mem (4 * i) + 2 ^ 8 * mem (4 * i + 1)
           + 2 ^ 16 * mem (4 * i + 2) + 2 ^ 24 * mem (4 * i + 3)).

(** What the GPU leaves in the buffer when it executes a [CopyTextureRegion]
    into a placed footprint: byte [c] of texel [(x, y)] of an
    [R8G8B8A8] image lands at [Offset + y * RowPitch + 4 * x + c]. *)
Definition laid_out (fp : Footprint) (texel : Z → Z → Z → Z) : Z → Z :=
  λ a,
    let r := a - Offset fp in
    let y := r / RowPitch fp in
    let x := (r mod RowPitch fp) / 4 in
    texel x y (r mod 4).

(** The word of a texel as [readBufferData] delivers it. *)
Definition texel_word (texel : Z → Z → Z → Z) (x y : Z) : Z :=
  to_jint (texel x y 0 + 2 ^ 8 * texel x y 1
           + 2 ^ 16 * texel x y 2 + 2 ^ 24 * texel x y 3).

(** Row [y] of an image of width [W] is copied without wrap-around. *)
Definition row_in_range (W y : Z) : Prop :=
  0 <= y ∧ y * W <= INT32_MAX ∧ y * rowPitch W < 2 ^ 32.

(** [m] is the least multiple of 256 that is at least [n]. *)
Definition least_multiple_of_256 (m n : Z) : Prop :=
  (256 | m) ∧ n <= m ∧ ∀ k, (256 | k) → n <= k → m <= k.

End Readback.

(** ** Adapter selection ([isAvailable], [createDevice])

    The machine as the two entry points see it: whether
    [CreateDXGIFactory1] succeeds, and the adapters that
    [EnumAdapters1(0)], [EnumAdapters1(1)], ... return before
    [DXGI_ERROR_NOT_FOUND].  For each adapter, [Flags] is the field of its
    [DXGI_ADAPTER_DESC1] and [D3D12CreateDevice] the outcome of device
    creation at [D3D_FEATURE_LEVEL_12_0]: the address of the device, which
    is never null when the call succeeds, or [None] when it fails. *)

Module Device.

Definition DXGI_ADAPTER_FLAG_SOFTWARE : Z := 2.

Record Adapter := mkAdapter {
  Flags : Z;
  D3D12CreateDevice : option positive;
}.

Record Machine := mkMachine {
  CreateDXGIFactory1 : bool;
  adapters : list Adapter;
}.

Definition EnumAdapters1 (m : Machine) (i : Z) : option Adapter :=
  adapters m !! Z.to_nat i.

(** [desc.Flags & DXGI_ADAPTER_FLAG_SOFTWARE] *)
Definition is_software (a : Adapter) : bool :=
  negb (Z.land (Flags a) DXGI_ADAPTER_FLAG_SOFTWARE =? 0).

(** [jboolean isAvailable()]: the loop
    [for (UINT i = 0; EnumAdapters1(i) != DXGI_ERROR_NOT_FOUND; i++)] from
    index [i] on.  The [option] is the fuel; the device that the test creates
    is released again when its [ComPtr] goes out of scope. *)
Fixpoint isAvailable_loop (fuel : nat) (m : Machine) (i : Z) : option bool :=
  match fuel with
  | O => None
  | S fuel' =>
      match EnumAdapters1 m i with
      | None => Some false
      | Some a =>
          if is_software a then isAvailable_loop fuel' m (to_UINT (i + 1))
          else
            match D3D12CreateDevice a with
            | Some device => Some true
            | None => isAvailable_loop fuel' m (to_UINT (i + 1))
            end
      end
  end.

Definition isAvailable (fuel : nat) (m : Machine) : option bool :=
  if negb (CreateDXGIFactory1 m) then Some false
  else isAvailable_loop fuel m 0.

(** [jlong createDevice()]: the same loop, leaving with
    [STORE_HANDLE(device)]; the device comes out of [D3D12CreateDevice]
    holding one reference.  (The debug layer of [_DEBUG] builds is left
    out.) *)
Fixpoint createDevice_loop (fuel : nat) (m : Machine) (p : Registry.Process)
    (i : Z) : option (Z * Registry.Process) :=
  match fuel with
  | O => None
  | S fuel' =>
      match EnumAdapters1 m i with
      | None => Some (0, p)
      | Some a =>
          if is_software a then createDevice_loop fuel' m p (to_UINT (i + 1))
          else
            match D3D12CreateDevice a with
            | Some device =>
                let p1 :=
                  {| Registry.refs := Registry.AddRef (Z.pos device) (Registry.refs p);
                     Registry.inst := Registry.inst p |} in
                Some (Registry.store (Z.pos device) p1)
            | None => createDevice_loop fuel' m p (to_UINT (i + 1))
            end
      end
  end.

Definition createDevice (fuel : nat) (m : Machine) (p : Registry.Process) :
    option (Z * Registry.Process) :=
  if negb (CreateDXGIFactory1 m) then Some (0, p)
  else createDevice_loop fuel m p 0.

(** The selection as the interface describes it: of the adapters that are
    not software adapters, in enumeration order, the first on which device
    creation succeeds. *)
Definition first_capable (l : list Adapter) : option positive :=
  head (omap D3D12CreateDevice (filter (λ a, is_software a = false) l)).

Definition selected (m : Machine) : option positive :=
  if CreateDXGIFactory1 m then first_capable (adapters m) else None.

End Device.

(** ** Pipeline state objects ([createPipelineState])

    A JNI array is the list of its elements.  Reading [offsetsData[i]] past
    the end of the array has no defined result: the embedding returns
    [None] for the whole call then. *)

Module Pipeline.

Record D3D12_INPUT_ELEMENT_DESC := mkElement {
  SemanticName : string;
  SemanticIndex : Z;
  Format : Z;
  InputSlot : Z;
  AlignedByteOffset : Z;
  InputSlotClass : Z;
  InstanceDataStepRate : Z;
}.

Definition D3D12_INPUT_CLASSIFICATION_PER_VERTEX_DATA : Z := 0.
Definition D3D12_FILL_MODE_SOLID : Z := 3.
Definition D3D12_CULL_MODE_NONE : Z := 1.
Definition D3D12_CONSERVATIVE_RASTERIZATION_MODE_OFF : Z := 0.
Definition DXGI_FORMAT_UNKNOWN : Z := 0.
Definition UINT_MAX : Z := 2 ^ 32 - 1.

Record D3D12_RASTERIZER_DESC := mkRasterizer {
  FillMode : Z;
  CullMode : Z;
  FrontCounterClockwise : bool;
  DepthBias : Z;
  DepthClipEnable : bool;
  MultisampleEnable : bool;
  AntialiasedLineEnable : bool;
  ForcedSampleCount : Z;
  ConservativeRaster : Z;
}.

Record D3D12_GRAPHICS_PIPELINE_STATE_DESC := mkPsoDesc {
  pRootSignature : Z;
  VS : list Z;
  PS : list Z;
  InputLayout : list D3D12_INPUT_ELEMENT_DESC;
  PrimitiveTopologyType : Z;
  AlphaToCoverageEnable : bool;
  IndependentBlendEnable : bool;
  RenderTarget0 : Blend.D3D12_RENDER_TARGET_BLEND_DESC;
  RasterizerState : D3D12_RASTERIZER_DESC;
  DepthEnable : bool;
  StencilEnable : bool;
  SampleMask : Z;
  SampleCount : Z;
  SampleQuality : Z;
  NumRenderTargets : Z;
  RTVFormats0 : Z;
  DSVFormat : Z;
}.

(** [const char* semantics[] = { "POSITION", "COLOR", "TEXCOORD" }] and the
    body of the loop for index [i]. *)
Definition semantics (k : nat) : string :=
  match k with
  | 0%nat => "POSITION"
  | 1%nat => "COLOR"
  | _ => "TEXCOORD"
  end.

Definition input_element (i : nat) (format offset : Z) : D3D12_INPUT_ELEMENT_DESC :=
  {| SemanticName := semantics (if (i <? 3)%nat then i else 2%nat);
     SemanticIndex := if (i <? 3)%nat then 0 else Z.of_nat i - 2;
     Format := format;
     InputSlot := 0;
     AlignedByteOffset := to_UINT offset;
     InputSlotClass := D3D12_INPUT_CLASSIFICATION_PER_VERTEX_DATA;
     InstanceDataStepRate := 0 |}.

(** [for (int i = 0; i < numAttrs; i++)] with [numAttrs] the length of
    [formats]. *)
Definition build_layout (formats offsets : list Z) :
    option (list D3D12_INPUT_ELEMENT_DESC) :=
  mapM (λ i : nat,
          format ← formats !! i;
          offset ← offsets !! i;
          Some (input_element i format offset))
       (seq 0 (length formats)).

Definition pso_desc (rootSig : Z) (vs ps : list Z) (topologyType blendMode : Z)
    (inputLayout : list D3D12_INPUT_ELEMENT_DESC) :
    D3D12_GRAPHICS_PIPELINE_STATE_DESC :=
  {| pRootSignature := rootSig;
     VS := vs;
     PS := ps;
     InputLayout := inputLayout;
     PrimitiveTopologyType := topologyType;
     AlphaToCoverageEnable := false;
     IndependentBlendEnable := false;
     RenderTarget0 := Blend.GetBlendDesc blendMode;
     RasterizerState :=
       {| FillMode := D3D12_FILL_MODE_SOLID;
          CullMode := D3D12_CULL_MODE_NONE;
          FrontCounterClockwise := false;
          DepthBias := 0;
          DepthClipEnable := true;
          MultisampleEnable := false;
          AntialiasedLineEnable := false;
          ForcedSampleCount := 0;
          ConservativeRaster := D3D12_CONSERVATIVE_RASTERIZATION_MODE_OFF |};
     DepthEnable := false;
     StencilEnable := false;
     SampleMask := UINT_MAX;
     SampleCount := 1;
     SampleQuality := 0;
     NumRenderTargets := 1;
     RTVFormats0 := Readback.DXGI_FORMAT_R8G8B8A8_UNORM;
     DSVFormat := DXGI_FORMAT_UNKNOWN |}.

(** [jlong createPipelineState(...)].  [CreateGraphicsPipelineState] is the
    driver: for a device and a descriptor, the address of the new pipeline
    object or [None] for a failed [HRESULT].  [stride] is not read. *)
Definition createPipelineState
    (CreateGraphicsPipelineState :
       Z → D3D12_GRAPHICS_PIPELINE_STATE_DESC → option positive)
    (p : Registry.Process) (deviceHandle rootSigHandle : Z)
    (vsBytecode psBytecode : list Z) (topologyType blendMode : Z)
    (formats offsets : list Z) (stride : Z) : option (Z * Registry.Process) :=
  let device := Registry.get deviceHandle p in
  let rootSig := Registry.get rootSigHandle p in
  if (device =? 0) || (rootSig =? 0) then Some (0, p)
  else
    inputLayout ← build_layout formats offsets;
    let psoDesc :=
      pso_desc rootSig vsBytecode psBytecode topologyType blendMode inputLayout in
    match CreateGraphicsPipelineState device psoDesc with
    | None => Some (0, p)
    | Some pso =>
        let p1 := {| Registry.refs := Registry.AddRef (Z.pos pso) (Registry.refs p);
                     Registry.inst := Registry.inst p |} in
        Some (Registry.store (Z.pos pso) p1)
    end.

End Pipeline.

(** ** Command recording

    The layer keeps no state of its own about a command list: an entry
    point resolves its handles and calls the native object.  The embedding
    therefore records, next to the registry, the method calls that reach
    native command lists, oldest first, each with the address of its
    receiver.  A [jfloat] is kept as its 32-bit pattern, and a viewport field
    as the [jint] that is cast to [float]. *)

Module CommandList.

Inductive NativeCall :=
  | Close
  | Reset (pAllocator pInitialState : Z)
  | ResourceBarrier (pResource StateBefore StateAfter Subresource : Z)
  | OMSetRenderTargets (rtv : Z)
  | ClearRenderTargetView (rtv r g b a : Z)
  | RSSetViewports (TopLeftX TopLeftY Width Height : Z)
  | RSSetScissorRects (left top right bottom : Z)
  | SetGraphicsRootSignature (pRootSignature : Z)
  | SetGraphicsRoot32BitConstants
      (RootParameterIndex Num32BitValuesToSet : Z) (pSrcData : list Z)
      (DestOffsetIn32BitValues : Z)
  | IASetPrimitiveTopology (PrimitiveTopology : Z)
  | SetPipelineState (pPipelineState : Z)
  | IASetVertexBuffers (BufferLocation SizeInBytes StrideInBytes : Z)
  | DrawInstanced
      (VertexCountPerInstance InstanceCount StartVertexLocation
       StartInstanceLocation : Z)
  | CopyTextureRegion (pDst : Z) (PlacedFootprint : Readback.Footprint)
      (pSrc SubresourceIndex : Z).

Record World := mkWorld {
  proc : Registry.Process;
  calls : list (Z * NativeCall);
}.

(** What the entry points ask of the driver. *)
Record Native := mkNative {
  CreateCommandList : Z → Z → option positive;
  GetDescriptorHandleIncrementSize : Z → Z;
  GetCPUDescriptorHandleForHeapStart : Z → Z;
  GetGPUVirtualAddress : Z → Z;
}.

Definition D3D12_RESOURCE_BARRIER_ALL_SUBRESOURCES : Z := 2 ^ 32 - 1.

(** [commandList->method(...)] *)
Definition call (w : World) (commandList : Z) (c : NativeCall) : World :=
  {| proc := proc w; calls := calls w ++ [(commandList, c)] |}.

Definition GET_HANDLE (w : World) (handle : Z) : Z := Registry.get handle (proc w).

(** [jlong createCommandList(device, allocator)] *)
Definition createCommandList (n : Native) (w : World)
    (deviceHandle allocatorHandle : Z) : Z * World :=
  let device := GET_HANDLE w deviceHandle in
  let allocator := GET_HANDLE w allocatorHandle in
  if (device =? 0) || (allocator =? 0) then (0, w)
  else
    match CreateCommandList n device allocator with
    | None => (0, w)
    | Some commandList =>
        let w1 := call w (Z.pos commandList) Close in
        let p1 := {| Registry.refs :=
                       Registry.AddRef (Z.pos commandList) (Registry.refs (proc w1));
                     Registry.inst := Registry.inst (proc w1) |} in
        let '(h, p2) := Registry.store (Z.pos commandList) p1 in
        (h, {| proc := p2; calls := calls w1 |})
    end.

(** [void resetCommandList(commandList, allocator, pipelineState)] *)
Definition resetCommandList (w : World)
    (commandListHandle allocatorHandle pipelineStateHandle : Z) : World :=
  let commandList := GET_HANDLE w commandListHandle in
  let allocator := GET_HANDLE w allocatorHandle in
  let pso := if pipelineStateHandle =? 0 then 0 else GET_HANDLE w pipelineStateHandle in
  if negb (commandList =? 0) && negb (allocator =? 0)
  then call w commandList (Reset allocator pso)
  else w.

(** [void closeCommandList(commandList)] *)
Definition closeCommandList (w : World) (commandListHandle : Z) : World :=
  let commandList := GET_HANDLE w commandListHandle in
  if negb (commandList =? 0) then call w commandList Close else w.

(** [void resourceBarrier(commandList, resource, stateBefore, stateAfter)] *)
Definition resourceBarrier (w : World)
    (commandListHandle resourceHandle stateBefore stateAfter : Z) : World :=
  let commandList := GET_HANDLE w commandListHandle in
  let resource := GET_HANDLE w resourceHandle in
  if (commandList =? 0) || (resource =? 0) then w
  else call w commandList
         (ResourceBarrier resource stateBefore stateAfter
            D3D12_RESOURCE_BARRIER_ALL_SUBRESOURCES).

(** [handle.ptr += index * rtvDescriptorSize]: the product is a [UINT], the
    sum a [SIZE_T]. *)
Definition rtv_slot (n : Native) (device heap index : Z) : Z :=
  to_UINT64 (GetCPUDescriptorHandleForHeapStart n heap
             + to_UINT (index * GetDescriptorHandleIncrementSize n device)).

(** [void setRenderTarget(commandList, device, rtvHeap, index)] *)
Definition setRenderTarget (n : Native) (w : World)
    (commandListHandle deviceHandle rtvHeapHandle index : Z) : World :=
  let commandList := GET_HANDLE w commandListHandle in
  let device := GET_HANDLE w deviceHandle in
  let heap := GET_HANDLE w rtvHeapHandle in
  if (commandList =? 0) || (device =? 0) || (heap =? 0) then w
  else call w commandList (OMSetRenderTargets (rtv_slot n device heap index)).

(** [void clearRenderTarget(commandList, device, rtvHeap, index, r, g, b, a)] *)
Definition clearRenderTarget (n : Native) (w : World)
    (commandListHandle deviceHandle rtvHeapHandle index r g b a : Z) : World :=
  let commandList := GET_HANDLE w commandListHandle in
  let device := GET_HANDLE w deviceHandle in
  let heap := GET_HANDLE w rtvHeapHandle in
  if (commandList =? 0) || (device =? 0) || (heap =? 0) then w
  else call w commandList
         (ClearRenderTargetView (rtv_slot n device heap index) r g b a).

(** [void setViewport(commandList, x, y, width, height)] *)
Definition setViewport (w : World) (commandListHandle x y width height : Z) : World :=
  let commandList := GET_HANDLE w commandListHandle in
  if commandList =? 0 then w
  else call w commandList (RSSetViewports x y width height).

(** [void setScissorRect(commandList, x, y, width, height)] *)
Definition setScissorRect (w : World) (commandListHandle x y width height : Z) : World :=
  let commandList := GET_HANDLE w commandListHandle in
  if commandList =? 0 then w
  else call w commandList
         (RSSetScissorRects x y (to_jint (x + width)) (to_jint (y + height))).

(** [void setRootSignature(commandList, rootSig)] *)
Definition setRootSignature (w : World) (commandListHandle rootSigHandle : Z) : World :=
  let commandList := GET_HANDLE w commandListHandle in
  let rootSig := GET_HANDLE w rootSigHandle in
  if negb (commandList =? 0) && negb (rootSig =? 0)
  then call w commandList (SetGraphicsRootSignature rootSig)
  else w.

(** [void setGraphicsRoot32BitConstants(commandList, rootParameterIndex,
    values, offset)]: [len] is the length of [values], [data] its elements. *)
Definition setGraphicsRoot32BitConstants (w : World)
    (commandListHandle rootParameterIndex : Z) (values : list Z) (offset : Z) :
    World :=
  let commandList := GET_HANDLE w commandListHandle in
  if commandList =? 0 then w
  else
    let len := Z.of_nat (length values) in
    call w commandList
      (SetGraphicsRoot32BitConstants (to_UINT rootParameterIndex) (to_UINT len)
         values (to_UINT offset)).

(** [void setPrimitiveTopology(commandList, topology)] *)
Definition setPrimitiveTopology (w : World) (commandListHandle topology : Z) : World :=
  let commandList := GET_HANDLE w commandListHandle in
  if negb (commandList =? 0) then call w commandList (IASetPrimitiveTopology topology)
  else w.

(** [void setPipelineState(commandList, pso)] *)
Definition setPipelineState (w : World) (commandListHandle psoHandle : Z) : World :=
  let commandList := GET_HANDLE w commandListHandle in
  let pso := GET_HANDLE w psoHandle in
  if negb (commandList =? 0) && negb (pso =? 0)
  then call w commandList (SetPipelineState pso)
  else w.

(** [void setVertexBuffer(commandList, buffer, stride, size)] *)
Definition setVertexBuffer (n : Native) (w : World)
    (commandListHandle bufferHandle stride size : Z) : World :=
  let commandList := GET_HANDLE w commandListHandle in
  let buffer := GET_HANDLE w bufferHandle in
  if (commandList =? 0) || (buffer =? 0) then w
  else call w commandList
         (IASetVertexBuffers (GetGPUVirtualAddress n buffer)
            (to_UINT size) (to_UINT stride)).

(** [void drawInstanced(commandList, vertexCount, instanceCount, startVertex,
    startInstance)] *)
Definition drawInstanced (w : World)
    (commandListHandle vertexCount instanceCount startVertex startInstance : Z) :
    World :=
  let commandList := GET_HANDLE w commandListHandle in
  if negb (commandList =? 0)
  then call w commandList
         (DrawInstanced (to_UINT vertexCount) (to_UINT instanceCount)
            (to_UINT startVertex) (to_UINT startInstance))
  else w.

(** [void copyTextureToBuffer(commandList, texture, buffer, width, height)] *)
Definition copyTextureToBuffer (w : World)
    (commandListHandle textureHandle bufferHandle width height : Z) : World :=
  let commandList := GET_HANDLE w commandListHandle in
  let texture := GET_HANDLE w textureHandle in
  let buffer := GET_HANDLE w bufferHandle in
  if (commandList =? 0) || (texture =? 0) || (buffer =? 0) then w
  else call w commandList
         (CopyTextureRegion buffer (Readback.copy_footprint width height) texture 0).

(** The recording entry points with their arguments, and the handle of the
    command list each is called on. *)
Inductive Recording :=
  | resourceBarrier_ (commandList resource stateBefore stateAfter : Z)
  | setRenderTarget_ (commandList device rtvHeap index : Z)
  | clearRenderTarget_ (commandList device rtvHeap index r g b a : Z)
  | setViewport_ (commandList x y width height : Z)
  | setScissorRect_ (commandList x y width height : Z)
  | setRootSignature_ (commandList rootSig : Z)
  | setGraphicsRoot32BitConstants_ (commandList rootParameterIndex : Z)
      (values : list Z) (offset : Z)
  | setPrimitiveTopology_ (commandList topology : Z)
  | setPipelineState_ (commandList pso : Z)
  | setVertexBuffer_ (commandList buffer stride size : Z)
  | drawInstanced_ (commandList vertexCount instanceCount startVertex
      startInstance : Z)
  | copyTextureToBuffer_ (commandList texture buffer width height : Z).

Definition list_of (e : Recording) : Z :=
  match e with
  | resourceBarrier_ h _ _ _ | setRenderTarget_ h _ _ _
  | clearRenderTarget_ h _ _ _ _ _ _ _ | setViewport_ h _ _ _ _
  | setScissorRect_ h _ _ _ _ | setRootSignature_ h _
  | setGraphicsRoot32BitConstants_ h _ _ _ | setPrimitiveTopology_ h _
  | setPipelineState_ h _ | setVertexBuffer_ h _ _ _
  | drawInstanced_ h _ _ _ _ | copyTextureToBuffer_ h _ _ _ _ => h
  end.

Definition record (n : Native) (w : World) (e : Recording) : World :=
  match e with
  | resourceBarrier_ h r b a => resourceBarrier w h r b a
  | setRenderTarget_ h d hp i => setRenderTarget n w h d hp i
  | clearRenderTarget_ h d hp i r g b a => clearRenderTarget n w h d hp i r g b a
  | setViewport_ h x y wd ht => setViewport w h x y wd ht
  | setScissorRect_ h x y wd ht => setScissorRect w h x y wd ht
  | setRootSignature_ h r => setRootSignature w h r
  | setGraphicsRoot32BitConstants_ h i v o => setGraphicsRoot32BitConstants w h i v o
  | setPrimitiveTopology_ h t => setPrimitiveTopology w h t
  | setPipelineState_ h ps => setPipelineState w h ps
  | setVertexBuffer_ h b s sz => setVertexBuffer n w h b s sz
  | drawInstanced_ h v i sv si => drawInstanced w h v i sv si
  | copyTextureToBuffer_ h t b wd ht => copyTextureToBuffer w h t b wd ht
  end.

(** The state of the list at address [commandList] after the calls so far:
    a list is created recording, [Close] closes it and [Reset] reopens it. *)
Definition closed (cs : list (Z * NativeCall)) (commandList : Z) : bool :=
  fold_left
    (λ st rc,
       if fst rc =? commandList
       then match snd rc with
            | Close => true
            | Reset _ _ => false
            | _ => st
            end
       else st)
    cs false.

(** The calls that reached the list at address [commandList]. *)
Definition received (cs : list (Z * NativeCall)) (commandList : Z) : list NativeCall :=
  snd <$> filter (λ rc, fst rc = commandList) cs.

(** A driver, and the world in which handle 1 is a device, handle 2 an
    allocator and [createCommandList] has just returned handle 3 for the list
    at address 500, which it has closed. *)
Definition a_driver : Native :=
  {| CreateCommandList := λ _ _, Some 500%positive;
     GetDescriptorHandleIncrementSize := λ _, 32;
     GetCPUDescriptorHandleForHeapStart := λ _, 4096;
     GetGPUVirtualAddress := λ _, 65536 |}.

Definition fresh_list : World :=
  (createCommandList a_driver
     {| proc := (Registry.store 400 (Registry.store 100 Registry.boot).2).2;
        calls := [] |} 1 2).2.

(** *** The root signature ([CreateRootSignature])

    The two root parameters and the static sampler of the descriptor that is
    serialised. *)
Inductive RootParameter :=
  | Constants32 (ShaderRegister RegisterSpace Num32BitValues ShaderVisibility : Z)
  | SrvTable (NumDescriptors BaseShaderRegister RegisterSpace ShaderVisibility : Z).

Definition D3D12_SHADER_VISIBILITY_ALL : Z := 0.
Definition D3D12_SHADER_VISIBILITY_PIXEL : Z := 5.

Definition rootParams : list RootParameter :=
  [ Constants32 0 0 20 D3D12_SHADER_VISIBILITY_ALL;
    SrvTable 1 0 0 D3D12_SHADER_VISIBILITY_PIXEL ].

(** Where a [SetGraphicsRoot32BitConstants] writes: the root parameter, and
    the first byte of the destination inside its constant block (the
    destination offset is counted in 32-bit values). *)
Definition constants_target (c : NativeCall) : option (Z * Z) :=
  match c with
  | SetGraphicsRoot32BitConstants i _ _ o => Some (i, 4 * o)
  | _ => None
  end.

End CommandList.

(** ** Fences ([waitForFence], [getFenceCompletedValue])

    Time is a count of instants.  [GetCompletedValue f t] is the [UINT64]
    that the fence at address [f] reports at instant [t].  The operating
    system decides whether [CreateEvent] returns a handle or [NULL] and
    whether [SetEventOnCompletion] accepts the request; an accepted request
    sets the event at the first instant at which the fence has reached the
    value, and [WaitForSingleObject(event, INFINITE)] returns at the instant
    the event is set. *)

Module Fence.

Record Env := mkEnv {
  GetCompletedValue : Z → nat → Z;
  CreateEvent : option positive;
  SetEventOnCompletion : bool;
}.

(** The first instant from [t] on, among the next [fuel], at which the fence
    has reached [target]. *)
Fixpoint first_reached (fuel : nat) (e : Env) (fence target : Z) (t : nat) :
    option nat :=
  match fuel with
  | O => None
  | S fuel' =>
      if target <=? GetCompletedValue e fence t then Some t
      else first_reached fuel' e fence target (S t)
  end.

(** [WaitForSingleObject(event, INFINITE)] after [SetEventOnCompletion]:
    the instant of return, [None] when the call has not returned within
    [fuel] instants (it never returns when the request was refused, for
    nothing sets the event). *)
Definition WaitForSingleObject (fuel : nat) (e : Env) (fence target : Z) (t : nat) :
    option nat :=
  if SetEventOnCompletion e then first_reached fuel e fence target t else None.

(** [void waitForFence(fence, value)], entered at instant [now]: the instant
    at which it returns.  [value] is a [jlong]; the comparison with the
    [UINT64] of [GetCompletedValue] and the argument of
    [SetEventOnCompletion] are unsigned. *)
Definition waitForFence (fuel : nat) (e : Env) (p : Registry.Process)
    (fenceHandle value : Z) (now : nat) : option nat :=
  let fence := Registry.get fenceHandle p in
  if fence =? 0 then Some now
  else if GetCompletedValue e fence now <? to_UINT64 value then
    match CreateEvent e with
    | Some event => WaitForSingleObject fuel e fence (to_UINT64 value) now
    | None => Some now
    end
  else Some now.

(** [jlong getFenceCompletedValue(fence)] at instant [t]. *)
Definition getFenceCompletedValue (e : Env) (p : Registry.Process)
    (fenceHandle : Z) (t : nat) : Z :=
  let fence := Registry.get fenceHandle p in
  if fence =? 0 then 0 else to_jlong (GetCompletedValue e fence t).

End Fence.

(** ** Object factories

    [createCommandQueue], [createCommandAllocator], [createFence],
    [createRootSignature], [createRTVHeap], [createSRVHeap],
    [createRenderTarget], [createReadbackBuffer], [createBuffer] and
    [createTexture].  Each resolves the device handle, asks the driver for
    the object and stores what it gets.  The driver calls are taken as
    they answer: the address of the new object, which then holds one
    reference, or [None] for a failed [HRESULT].  A [float] is kept as its
    bit pattern. *)

Module Factory.

Definition D3D12_COMMAND_LIST_TYPE_DIRECT : Z := 0.
Definition D3D12_COMMAND_QUEUE_PRIORITY_NORMAL : Z := 0.
Definition D3D12_COMMAND_QUEUE_FLAG_NONE : Z := 0.
Definition D3D12_FENCE_FLAG_NONE : Z := 0.
Definition D3D12_DESCRIPTOR_HEAP_TYPE_CBV_SRV_UAV : Z := 0.
Definition D3D12_DESCRIPTOR_HEAP_TYPE_RTV : Z := 2.
Definition D3D12_DESCRIPTOR_HEAP_FLAG_NONE : Z := 0.
Definition D3D12_DESCRIPTOR_HEAP_FLAG_SHADER_VISIBLE : Z := 1.
Definition D3D12_HEAP_TYPE_DEFAULT : Z := 1.
Definition D3D12_HEAP_TYPE_UPLOAD : Z := 2.
Definition D3D12_HEAP_TYPE_READBACK : Z := 3.
Definition D3D12_HEAP_FLAG_NONE : Z := 0.
Definition D3D12_RESOURCE_DIMENSION_BUFFER : Z := 1.
Definition D3D12_RESOURCE_DIMENSION_TEXTURE2D : Z := 3.
Definition D3D12_TEXTURE_LAYOUT_UNKNOWN : Z := 0.
Definition D3D12_TEXTURE_LAYOUT_ROW_MAJOR : Z := 1.
Definition D3D12_RESOURCE_FLAG_NONE : Z := 0.
Definition D3D12_RESOURCE_FLAG_ALLOW_RENDER_TARGET : Z := 1.
Definition D3D12_RESOURCE_STATE_RENDER_TARGET : Z := 4.
Definition D3D12_RESOURCE_STATE_COPY_DEST : Z := 1024.
Definition D3D12_RESOURCE_STATE_GENERIC_READ : Z := 2755.
Definition D3D12_FILTER_MIN_MAG_MIP_LINEAR : Z := 21.
Definition D3D12_TEXTURE_ADDRESS_MODE_CLAMP : Z := 3.
Definition D3D12_COMPARISON_FUNC_NEVER : Z := 1.
Definition D3D12_STATIC_BORDER_COLOR_TRANSPARENT_BLACK : Z := 0.
Definition D3D12_ROOT_SIGNATURE_FLAG_ALLOW_INPUT_ASSEMBLER_INPUT_LAYOUT : Z := 1.
Definition D3D_ROOT_SIGNATURE_VERSION_1 : Z := 1.
Definition float_0 : Z := 0.
Definition float_1 : Z := 1065353216.
Definition D3D12_FLOAT32_MAX : Z := 2139095039.

Record D3D12_COMMAND_QUEUE_DESC := mkQueueDesc {
  QueueType : Z;
  Priority : Z;
  QueueFlags : Z;
  QueueNodeMask : Z;
}.

Record D3D12_DESCRIPTOR_HEAP_DESC := mkHeapDesc {
  HeapDescType : Z;
  NumDescriptors : Z;
  HeapDescFlags : Z;
  HeapNodeMask : Z;
}.

Record D3D12_RESOURCE_DESC := mkResourceDesc {
  Dimension : Z;
  Alignment : Z;
  ResWidth : Z;
  ResHeight : Z;
  DepthOrArraySize : Z;
  MipLevels : Z;
  ResFormat : Z;
  SampleCount : Z;
  SampleQuality : Z;
  Layout : Z;
  ResFlags : Z;
}.

Record D3D12_CLEAR_VALUE := mkClearValue {
  ClearFormat : Z;
  Color0 : Z;
  Color1 : Z;
  Color2 : Z;
  Color3 : Z;
}.

Record D3D12_STATIC_SAMPLER_DESC := mkSampler {
  Filter : Z;
  AddressU : Z;
  AddressV : Z;
  AddressW : Z;
  MipLODBias : Z;
  MaxAnisotropy : Z;
  ComparisonFunc : Z;
  BorderColor : Z;
  MinLOD : Z;
  MaxLOD : Z;
  SamplerRegister : Z;
  SamplerSpace : Z;
  SamplerVisibility : Z;
}.

Record D3D12_ROOT_SIGNATURE_DESC := mkRootSigDesc {
  pParameters : list CommandList.RootParameter;
  pStaticSamplers : list D3D12_STATIC_SAMPLER_DESC;
  RootFlags : Z;
}.

Record Driver := mkDriver {
  CreateCommandQueue : Z → D3D12_COMMAND_QUEUE_DESC → option positive;
  CreateCommandAllocator : Z → Z → option positive;
  CreateFence : Z → Z → Z → option positive;
  D3D12SerializeRootSignature : D3D12_ROOT_SIGNATURE_DESC → Z → option (list Z);
  CreateRootSignature_ : Z → Z → list Z → option positive;
  CreateDescriptorHeap : Z → D3D12_DESCRIPTOR_HEAP_DESC → option positive;
  CreateCommittedResource :
    Z → Z → Z → D3D12_RESOURCE_DESC → Z → option D3D12_CLEAR_VALUE →
    option positive;
}.

(** An out-parameter after the call: the new object, or [nullptr]. *)
Definition out_ptr (r : option positive) : Z :=
  match r with
  | Some obj => Z.pos obj
  | None => 0
  end.

(** The object at [obj] has just been created: it holds its first
    reference.  Nothing has been created when [obj] is [nullptr]. *)
Definition created (obj : Z) (p : Registry.Process) : Registry.Process :=
  if obj =? 0 then p
  else {| Registry.refs := Registry.AddRef obj (Registry.refs p);
          Registry.inst := Registry.inst p |}.

(** [STORE_HANDLE(obj)] on the result of a creation call. *)
Definition STORE_HANDLE (p : Registry.Process) (r : option positive) :
    Z * Registry.Process :=
  Registry.store (out_ptr r) (created (out_ptr r) p).

(** [jlong createCommandQueue(device)] *)
Definition createCommandQueue (d : Driver) (p : Registry.Process)
    (deviceHandle : Z) : Z * Registry.Process :=
  let device := Registry.get deviceHandle p in
  if device =? 0 then (0, p)
  else
    let desc := {| QueueType := D3D12_COMMAND_LIST_TYPE_DIRECT;
                   Priority := D3D12_COMMAND_QUEUE_PRIORITY_NORMAL;
                   QueueFlags := D3D12_COMMAND_QUEUE_FLAG_NONE;
                   QueueNodeMask := 0 |} in
    match CreateCommandQueue d device desc with
    | None => (0, p)
    | Some queue => STORE_HANDLE p (Some queue)
    end.

(** [jlong createCommandAllocator(device)] *)
Definition createCommandAllocator (d : Driver) (p : Registry.Process)
    (deviceHandle : Z) : Z * Registry.Process :=
  let device := Registry.get deviceHandle p in
  if device =? 0 then (0, p)
  else
    match CreateCommandAllocator d device D3D12_COMMAND_LIST_TYPE_DIRECT with
    | None => (0, p)
    | Some allocator => STORE_HANDLE p (Some allocator)
    end.

(** [jlong createFence(device, initialValue)] *)
Definition createFence (d : Driver) (p : Registry.Process)
    (deviceHandle initialValue : Z) : Z * Registry.Process :=
  let device := Registry.get deviceHandle p in
  if device =? 0 then (0, p)
  else
    match CreateFence d device (to_UINT64 initialValue) D3D12_FENCE_FLAG_NONE with
    | None => (0, p)
    | Some fence => STORE_HANDLE p (Some fence)
    end.

(** The sampler and the descriptor of [CreateRootSignature]. *)
Definition sampler : D3D12_STATIC_SAMPLER_DESC :=
  {| Filter := D3D12_FILTER_MIN_MAG_MIP_LINEAR;
     AddressU := D3D12_TEXTURE_ADDRESS_MODE_CLAMP;
     AddressV := D3D12_TEXTURE_ADDRESS_MODE_CLAMP;
     AddressW := D3D12_TEXTURE_ADDRESS_MODE_CLAMP;
     MipLODBias := float_0;
     MaxAnisotropy := 1;
     ComparisonFunc := D3D12_COMPARISON_FUNC_NEVER;
     BorderColor := D3D12_STATIC_BORDER_COLOR_TRANSPARENT_BLACK;
     MinLOD := float_0;
     MaxLOD := D3D12_FLOAT32_MAX;
     SamplerRegister := 0;
     SamplerSpace := 0;
     SamplerVisibility := CommandList.D3D12_SHADER_VISIBILITY_PIXEL |}.

Definition rootSigDesc : D3D12_ROOT_SIGNATURE_DESC :=
  {| pParameters := CommandList.rootParams;
     pStaticSamplers := [sampler];
     RootFlags := D3D12_ROOT_SIGNATURE_FLAG_ALLOW_INPUT_ASSEMBLER_INPUT_LAYOUT |}.

(** [static ID3D12RootSignature* CreateRootSignature(device)]: the result of
    [device->CreateRootSignature] is not tested, [rootSig] stays null when
    it fails. *)
Definition CreateRootSignature (d : Driver) (device : Z) : option positive :=
  match D3D12SerializeRootSignature d rootSigDesc D3D_ROOT_SIGNATURE_VERSION_1 with
  | None => None
  | Some signature => CreateRootSignature_ d device 0 signature
  end.

(** [jlong createRootSignature(device)] *)
Definition createRootSignature (d : Driver) (p : Registry.Process)
    (deviceHandle : Z) : Z * Registry.Process :=
  let device := Registry.get deviceHandle p in
  if device =? 0 then (0, p)
  else STORE_HANDLE p (CreateRootSignature d device).

(** [static ID3D12DescriptorHeap* CreateRTVHeap(device, numDescriptors)] *)
Definition CreateRTVHeap (d : Driver) (device numDescriptors : Z) : option positive :=
  CreateDescriptorHeap d device
    {| HeapDescType := D3D12_DESCRIPTOR_HEAP_TYPE_RTV;
       NumDescriptors := numDescriptors;
       HeapDescFlags := D3D12_DESCRIPTOR_HEAP_FLAG_NONE;
       HeapNodeMask := 0 |}.

(** [jlong createRTVHeap(device, numDescriptors)]: the [jint] count becomes
    the [UINT] parameter of the helper. *)
Definition createRTVHeap (d : Driver) (p : Registry.Process)
    (deviceHandle numDescriptors : Z) : Z * Registry.Process :=
  let device := Registry.get deviceHandle p in
  if device =? 0 then (0, p)
  else STORE_HANDLE p (CreateRTVHeap d device (to_UINT numDescriptors)).

(** [static ID3D12DescriptorHeap* CreateSRVHeap(device, numDescriptors)] *)
Definition CreateSRVHeap (d : Driver) (device numDescriptors : Z) : option positive :=
  CreateDescriptorHeap d device
    {| HeapDescType := D3D12_DESCRIPTOR_HEAP_TYPE_CBV_SRV_UAV;
       NumDescriptors := numDescriptors;
       HeapDescFlags := D3D12_DESCRIPTOR_HEAP_FLAG_SHADER_VISIBLE;
       HeapNodeMask := 0 |}.

(** [jlong createSRVHeap(device, numDescriptors)] *)
Definition createSRVHeap (d : Driver) (p : Registry.Process)
    (deviceHandle numDescriptors : Z) : Z * Registry.Process :=
  let device := Registry.get deviceHandle p in
  if device =? 0 then (0, p)
  else STORE_HANDLE p (CreateSRVHeap d device (to_UINT numDescriptors)).

(** [jlong createRenderTarget(device, width, height)]: [desc.Width] is a
    [UINT64] and [desc.Height] a [UINT]. *)
Definition createRenderTarget (d : Driver) (p : Registry.Process)
    (deviceHandle width height : Z) : Z * Registry.Process :=
  let device := Registry.get deviceHandle p in
  if device =? 0 then (0, p)
  else
    let desc := {| Dimension := D3D12_RESOURCE_DIMENSION_TEXTURE2D;
                   Alignment := 0;
                   ResWidth := to_UINT64 width;
                   ResHeight := to_UINT height;
                   DepthOrArraySize := 1;
                   MipLevels := 1;
                   ResFormat := Readback.DXGI_FORMAT_R8G8B8A8_UNORM;
                   SampleCount := 1;
                   SampleQuality := 0;
                   Layout := D3D12_TEXTURE_LAYOUT_UNKNOWN;
                   ResFlags := D3D12_RESOURCE_FLAG_ALLOW_RENDER_TARGET |} in
    let clearValue := {| ClearFormat := Readback.DXGI_FORMAT_R8G8B8A8_UNORM;
                         Color0 := float_0;
                         Color1 := float_0;
                         Color2 := float_0;
                         Color3 := float_1 |} in
    match CreateCommittedResource d device D3D12_HEAP_TYPE_DEFAULT
            D3D12_HEAP_FLAG_NONE desc D3D12_RESOURCE_STATE_RENDER_TARGET
            (Some clearValue) with
    | None => (0, p)
    | Some renderTarget => STORE_HANDLE p (Some renderTarget)
    end.

(** The descriptor of a buffer of [size] bytes ([createReadbackBuffer] and
    [createBuffer] fill it in the same way). *)
Definition buffer_desc (size : Z) : D3D12_RESOURCE_DESC :=
  {| Dimension := D3D12_RESOURCE_DIMENSION_BUFFER;
     Alignment := 0;
     ResWidth := to_UINT64 size;
     ResHeight := 1;
     DepthOrArraySize := 1;
     MipLevels := 1;
     ResFormat := Pipeline.DXGI_FORMAT_UNKNOWN;
     SampleCount := 1;
     SampleQuality := 0;
     Layout := D3D12_TEXTURE_LAYOUT_ROW_MAJOR;
     ResFlags := D3D12_RESOURCE_FLAG_NONE |}.

(** [jlong createReadbackBuffer(device, size)] *)
Definition createReadbackBuffer (d : Driver) (p : Registry.Process)
    (deviceHandle size : Z) : Z * Registry.Process :=
  let device := Registry.get deviceHandle p in
  if device =? 0 then (0, p)
  else
    match CreateCommittedResource d device D3D12_HEAP_TYPE_READBACK
            D3D12_HEAP_FLAG_NONE (buffer_desc size)
            D3D12_RESOURCE_STATE_COPY_DEST None with
    | None => (0, p)
    | Some buffer => STORE_HANDLE p (Some buffer)
    end.

(** [jlong createBuffer(device, size, usageFlags)]: [usageFlags] is not
    read. *)
Definition createBuffer (d : Driver) (p : Registry.Process)
    (deviceHandle size usageFlags : Z) : Z * Registry.Process :=
  let device := Registry.get deviceHandle p in
  if device =? 0 then (0, p)
  else
    match CreateCommittedResource d device D3D12_HEAP_TYPE_UPLOAD
            D3D12_HEAP_FLAG_NONE (buffer_desc size)
            D3D12_RESOURCE_STATE_GENERIC_READ None with
    | None => (0, p)
    | Some buffer => STORE_HANDLE p (Some buffer)
    end.

(** [jlong createTexture(device, width, height, format)] *)
Definition createTexture (d : Driver) (p : Registry.Process)
    (deviceHandle width height format : Z) : Z * Registry.Process :=
  let device := Registry.get deviceHandle p in
  if device =? 0 then (0, p)
  else
    let desc := {| Dimension := D3D12_RESOURCE_DIMENSION_TEXTURE2D;
                   Alignment := 0;
                   ResWidth := to_UINT64 width;
                   ResHeight := to_UINT height;
                   DepthOrArraySize := 1;
                   MipLevels := 1;
                   ResFormat := format;
                   SampleCount := 1;
                   SampleQuality := 0;
                   Layout := D3D12_TEXTURE_LAYOUT_UNKNOWN;
                   ResFlags := D3D12_RESOURCE_FLAG_NONE |} in
    match CreateCommittedResource d device D3D12_HEAP_TYPE_DEFAULT
            D3D12_HEAP_FLAG_NONE desc D3D12_RESOURCE_STATE_COPY_DEST None with
    | None => (0, p)
    | Some texture => STORE_HANDLE p (Some texture)
    end.

(** The driver that answers every creation call with the object at [obj]. *)
Definition accepting (obj : positive) : Driver :=
  {| CreateCommandQueue := λ _ _, Some obj;
     CreateCommandAllocator := λ _ _, Some obj;
     CreateFence := λ _ _ _, Some obj;
     D3D12SerializeRootSignature := λ _ _, Some [];
     CreateRootSignature_ := λ _ _ _, Some obj;
     CreateDescriptorHeap := λ _ _, Some obj;
     CreateCommittedResource := λ _ _ _ _ _ _, Some obj |}.

(** [hp] is the handle and the process after storing the outcome [r] of a
    creation call: nothing for a failure; for a new object the next handle,
    which resolves to it, with the other handles as they were and two
    references on the object, its own and the one of the registry. *)
Definition stored (p : Registry.Process) (r : option positive)
    (hp : Z * Registry.Process) : Prop :=
  match r with
  | None => hp = (0, p)
  | Some obj =>
      hp.1 = Registry.next p
      ∧ Registry.get hp.1 hp.2 = Z.pos obj
      ∧ (∀ k, k ≠ hp.1 → Registry.get k hp.2 = Registry.get k p)
      ∧ Registry.refs hp.2 =
          Registry.AddRef (Z.pos obj) (Registry.AddRef (Z.pos obj) (Registry.refs p))
  end.

(** The factories with their arguments, and the device handle of each. *)
Inductive Create :=
  | createCommandQueue_ (device : Z)
  | createCommandAllocator_ (device : Z)
  | createFence_ (device initialValue : Z)
  | createRootSignature_ (device : Z)
  | createRTVHeap_ (device numDescriptors : Z)
  | createSRVHeap_ (device numDescriptors : Z)
  | createRenderTarget_ (device width height : Z)
  | createReadbackBuffer_ (device size : Z)
  | createBuffer_ (device size usageFlags : Z)
  | createTexture_ (device width height format : Z).

Definition device_of (c : Create) : Z :=
  match c with
  | createCommandQueue_ h | createCommandAllocator_ h | createFence_ h _
  | createRootSignature_ h | createRTVHeap_ h _ | createSRVHeap_ h _
  | createRenderTarget_ h _ _ | createReadbackBuffer_ h _
  | createBuffer_ h _ _ | createTexture_ h _ _ _ => h
  end.

Definition create (d : Driver) (p : Registry.Process) (c : Create) :
    Z * Registry.Process :=
  match c with
  | createCommandQueue_ h => createCommandQueue d p h
  | createCommandAllocator_ h => createCommandAllocator d p h
  | createFence_ h v => createFence d p h v
  | createRootSignature_ h => createRootSignature d p h
  | createRTVHeap_ h n => createRTVHeap d p h n
  | createSRVHeap_ h n => createSRVHeap d p h n
  | createRenderTarget_ h w ht => createRenderTarget d p h w ht
  | createReadbackBuffer_ h s => createReadbackBuffer d p h s
  | createBuffer_ h s u => createBuffer d p h s u
  | createTexture_ h w ht f => createTexture d p h w ht f
  end.

End Factory.

(** ** Submission ([resetCommandAllocator], [executeCommandList],
    [signalFence])

    As for command lists, the embedding records the calls that reach the
    native allocators and queues, oldest first, each with the address of its
    receiver. *)

Module Queue.

Inductive NativeCall :=
  | AllocatorReset
  | ExecuteCommandLists (NumCommandLists : Z) (ppCommandLists : list Z)
  | Signal (pFence Value : Z).

Record World := mkWorld {
  proc : Registry.Process;
  calls : list (Z * NativeCall);
}.

Definition call (w : World) (receiver : Z) (c : NativeCall) : World :=
  {| proc := proc w; calls := calls w ++ [(receiver, c)] |}.

Definition GET_HANDLE (w : World) (handle : Z) : Z := Registry.get handle (proc w).

(** [void resetCommandAllocator(allocator)] *)
Definition resetCommandAllocator (w : World) (allocatorHandle : Z) : World :=
  let allocator := GET_HANDLE w allocatorHandle in
  if negb (allocator =? 0) then call w allocator AllocatorReset else w.

(** [void executeCommandList(queue, commandList)] *)
Definition executeCommandList (w : World) (queueHandle commandListHandle : Z) : World :=
  let queue := GET_HANDLE w queueHandle in
  let commandList := GET_HANDLE w commandListHandle in
  if negb (queue =? 0) && negb (commandList =? 0)
  then call w queue (ExecuteCommandLists 1 [commandList])
  else w.

(** [void signalFence(queue, fence, value)]: [value] is a [jlong], the
    parameter of [Signal] a [UINT64]. *)
Definition signalFence (w : World) (queueHandle fenceHandle value : Z) : World :=
  let queue := GET_HANDLE w queueHandle in
  let fence := GET_HANDLE w fenceHandle in
  if negb (queue =? 0) && negb (fence =? 0)
  then call w queue (Signal fence (to_UINT64 value))
  else w.

(** [executeCommandList(queue, h)] for each [h] of [handles] in turn. *)
Definition execute_each (w : World) (queueHandle : Z) (handles : list Z) : World :=
  fold_left (λ w h, executeCommandList w queueHandle h) handles w.

(** The lists among [handles] that resolve, in order. *)
Definition resolved (p : Registry.Process) (handles : list Z) : list Z :=
  filter (λ obj, obj ≠ 0) ((λ h, Registry.get h p) <$> handles).

End Queue.

(** ** Render target views ([createRTV])

    [createRTV] makes its call on the device; the embedding returns the
    call, or [None] when a handle does not resolve and nothing is called. *)

Module Views.

Inductive DeviceCall :=
  | CreateRenderTargetView (pResource pDesc DestDescriptor : Z).

(** [void createRTV(device, resource, rtvHeap, index)] *)
Definition createRTV (n : CommandList.Native) (p : Registry.Process)
    (deviceHandle resourceHandle rtvHeapHandle index : Z) :
    option (Z * DeviceCall) :=
  let device := Registry.get deviceHandle p in
  let resource := Registry.get resourceHandle p in
  let heap := Registry.get rtvHeapHandle p in
  if (device =? 0) || (resource =? 0) || (heap =? 0) then None
  else
    let rtvDescriptorSize := CommandList.GetDescriptorHandleIncrementSize n device in
    let handle := CommandList.GetCPUDescriptorHandleForHeapStart n heap in
    let handle := to_UINT64 (handle + to_UINT (index * rtvDescriptorSize)) in
    Some (device, CreateRenderTargetView resource 0 handle).

(** The descriptor that a call on a command list addresses. *)
Definition descriptor_of (c : CommandList.NativeCall) : option Z :=
  match c with
  | CommandList.OMSetRenderTargets rtv => Some rtv
  | CommandList.ClearRenderTargetView rtv _ _ _ _ => Some rtv
  | _ => None
  end.

End Views.

(** ** Buffer upload ([uploadBufferData])

    Memory is addressed by byte, addresses are 64 bits wide.  The elements
    of the [jfloatArray] are 32-bit patterns, stored little-endian.
    Reading past the end of the array has no defined result. *)

Module Upload.

(** Byte [j] of the elements of [data]. *)
Definition floatData (data : list Z) (j : Z) : Z :=
  match data !! Z.to_nat (j / 4) with
  | Some word => (word / 2 ^ (8 * (j mod 4))) mod 256
  | None => 0
  end.

(** [void uploadBufferData(buffer, data, offset, count)].  [Map buffer] is
    the outcome of [buffer->Map]: the address of the mapping, or [None].
    [offset * sizeof(float)] and [count * sizeof(float)] are computed in
    [size_t]. *)
Definition uploadBufferData (p : Registry.Process) (Map : Z → option Z)
    (memory : Z → Z) (bufferHandle : Z) (data : list Z) (offset count : Z) :
    option (Z → Z) :=
  let buffer := Registry.get bufferHandle p in
  if buffer =? 0 then Some memory
  else
    match Map buffer with
    | Some mapped =>
        let n := to_UINT64 (to_UINT64 count * 4) in
        if n <=? 4 * Z.of_nat (length data) then
          Some (Readback.memcpy memory
                  (to_UINT64 (mapped + to_UINT64 (to_UINT64 offset * 4)))
                  (floatData data) 0 n)
        else None
    | None => Some memory
    end.

(** The 32-bit word at address [a]. *)
Definition word_at (memory : Z → Z) (a : Z) : Z :=
  memory a + 2 ^ 8 * memory (a + 1) + 2 ^ 16 * memory (a + 2)
  + 2 ^ 24 * memory (a + 3).

End Upload.

(** ** Reference accounting

    What the registry owes each object: one reference per handle that
    resolves to it. *)

Module Accounting.

(** The number of handles that resolve to [obj]. *)
Definition handles_to (p : Registry.Process) (obj : Z) : nat :=
  size (filter (λ kv : Z * Z, kv.2 = obj) (Registry.objects_ (Registry.inst p))).

(** The reference count of an object with [n] references: an object without
    references is gone. *)
Definition counted (n : nat) : option nat :=
  match n with
  | O => None
  | S _ => Some n
  end.

(** Every object holds exactly the references of its handles. *)
Definition accounted (p : Registry.Process) : Prop :=
  ∀ obj, Registry.refs p !! obj = counted (handles_to p obj).

(** No handle at or past the counter resolves. *)
Definition below_counter (p : Registry.Process) : Prop :=
  ∀ h, Registry.live p h → h < Registry.next p.

End Accounting.

(** * Properties *)

(** ** Machine integers *)

Lemma to_jlong_id z : - 2 ^ 63 <= z <= INT64_MAX → to_jlong z = z.
Proof.
  unfold to_jlong, INT64_MAX. intros H.
  rewrite Z.mod_small; lia.
Qed.

Lemma to_jint_id z : - 2 ^ 31 <= z <= INT32_MAX → to_jint z = z.
Proof.
  unfold to_jint, INT32_MAX. intros H.
  rewrite Z.mod_small; lia.
Qed.

Lemma to_UINT_id z : 0 <= z < 2 ^ 32 → to_UINT z = z.
Proof. unfold to_UINT. intros H. apply Z.mod_small; lia. Qed.

Lemma to_UINT64_id z : 0 <= z < 2 ^ 64 → to_UINT64 z = z.
Proof. unfold to_UINT64. intros H. apply Z.mod_small; lia. Qed.

(** ** The handle registry *)

Module RegistryFacts.
Import Registry.

Lemma increasing_nil : increasing [].
Proof. intros i j a b _ H. by rewrite lookup_nil in H. Qed.

Lemma increasing_cons a l :
  Forall (λ b, a < b) l → increasing l → increasing (a :: l).
Proof.
  intros Hall Hl i j x y Hij Hi Hj.
  destruct j as [|j]; [lia|].
  destruct i as [|i]; simpl in *.
  - inversion Hi; subst x.
    rewrite Forall_forall in Hall. apply Hall.
    apply list_elem_of_lookup. eauto.
  - apply (Hl i j); [lia | done | done].
Qed.

Lemma store_null p : store 0 p = (0, p).
Proof. reflexivity. Qed.

Lemma store_nonnull obj p :
  obj ≠ 0 →
  store obj p =
    (next p,
     {| refs := AddRef obj (refs p);
        inst := {| objects_ := <[next p := obj]> (objects_ (inst p));
                   nextHandle_ := to_jlong (next p + 1) |} |}).
Proof.
  intros H. unfold store. destruct (Z.eqb_spec obj 0); [done | reflexivity].
Qed.

Lemma get_dead h p : ¬ live p h → get h p = 0.
Proof.
  unfold live, get. destruct (objects_ (inst p) !! h); [|done].
  intros H. destruct H. eauto.
Qed.

Lemma release_dead h p : ¬ live p h → release h p = p.
Proof.
  unfold live, release. destruct (objects_ (inst p) !! h); [|done].
  intros H. destruct H. eauto.
Qed.

Lemma release_kills h p : ¬ live (release h p) h.
Proof.
  unfold live, release.
  destruct (objects_ (inst p) !! h) eqn:E; simpl.
  - rewrite lookup_delete_eq. by intros [? ?].
  - rewrite E. by intros [? ?].
Qed.

Lemma release_live h k p : live (release h p) k → live p k ∧ k ≠ h.
Proof.
  intros H. split.
  - revert H. unfold live, release.
    destruct (objects_ (inst p) !! h) eqn:E; simpl; [|done].
    destruct (decide (h = k)) as [->|Hne].
    + rewrite lookup_delete_eq. by intros [? ?].
    + by rewrite lookup_delete_ne.
  - intros ->. by apply (release_kills h p).
Qed.

Lemma release_next h p : next (release h p) = next p.
Proof. unfold next, release. by destruct (objects_ (inst p) !! h). Qed.

Lemma release_twice h p : release h (release h p) = release h p.
Proof. apply release_dead, release_kills. Qed.

Lemma run_app a b p :
  run (a ++ b) p =
    ((run b (run a p).1).1, (run a p).2 ++ (run b (run a p).1).2).
Proof.
  revert p. induction a as [|o a IH]; intros p; simpl.
  - by destruct (run b p).
  - destruct (step p o) as [p1 r]. rewrite IH.
    destruct (run a p1) as [p2 tr]; simpl.
    by destruct (run b p2).
Qed.

Lemma issued_cons_store obj h tr :
  obj ≠ 0 → issued ((store_ obj, RHandle h) :: tr) = h :: issued tr.
Proof.
  intros H. unfold issued; simpl. by destruct (Z.eqb_spec obj 0).
Qed.

(** What a run preserves, from any state whose counter is in range. *)
Lemma run_spec ops : ∀ p,
  1 <= next p →
  next p + Z.of_nat (length ops) <= INT64_MAX →
  next p <= next (run ops p).1 <= next p + Z.of_nat (length ops)
  ∧ Forall (λ h, next p <= h < next (run ops p).1) (issued (run ops p).2)
  ∧ increasing (issued (run ops p).2)
  ∧ ∀ h, live (run ops p).1 h → live p h ∨ h ∈ issued (run ops p).2.
Proof.
  induction ops as [|o ops IH]; intros p H1 Hb.
  - simpl. repeat split; try lia; [constructor | apply increasing_nil | auto].
  - rewrite length_cons, Nat2Z.inj_succ in Hb |- *.
    destruct o as [obj|h|h]; simpl.
    + destruct (Z.eq_dec obj 0) as [->|Hobj].
      * rewrite store_null.
        destruct (IH p H1 ltac:(lia)) as (Hn & Hall & Hinc & Hlive).
        destruct (run ops p) as [p2 tr]; simpl in *.
        repeat split; try lia; auto.
      * rewrite (store_nonnull obj p Hobj).
        set (p1 := {| refs := _; inst := _ |}).
        assert (Hp1 : next p1 = next p + 1).
        { unfold next, p1; simpl. fold (next p). apply to_jlong_id.
          unfold INT64_MAX in *. lia. }
        destruct (IH p1 ltac:(lia) ltac:(lia)) as (Hn & Hall & Hinc & Hlive).
        destruct (run ops p1) as [p2 tr] eqn:Erun. cbn [fst snd] in *.
        rewrite (issued_cons_store obj (next p) tr Hobj).
        repeat split; try lia.
        -- constructor; [lia|].
           eapply Forall_impl; [exact Hall|]. simpl. intros; lia.
        -- apply increasing_cons; [|done].
           eapply Forall_impl; [exact Hall|]. simpl. intros; lia.
        -- intros h Hh. destruct (Hlive h Hh) as [Hl|Hi].
           ++ destruct (decide (h = next p)) as [->|Hne].
              ** right. apply list_elem_of_here.
              ** left. revert Hl. unfold live, p1; simpl.
                 by rewrite lookup_insert_ne.
           ++ right. by apply list_elem_of_further.
    + destruct (IH p H1 ltac:(lia)) as (Hn & Hall & Hinc & Hlive).
      destruct (run ops p) as [p2 tr]; simpl in *.
      repeat split; try lia; auto.
    + pose proof (release_next h p) as Hrn.
      destruct (IH (release h p) ltac:(lia) ltac:(lia)) as (Hn & Hall & Hinc & Hlive).
      destruct (run ops (release h p)) as [p2 tr]; simpl in *.
      rewrite Hrn in *.
      repeat split; try lia; auto.
      intros k Hk. destruct (Hlive k Hk) as [Hl|Hi]; [left|by right].
      by apply release_live in Hl as [? _].
Qed.

Lemma boot_next : next boot = 1.
Proof. reflexivity. Qed.

Lemma boot_dead h : ¬ live boot h.
Proof. unfold live; simpl. rewrite lookup_empty. by intros [? ?]. Qed.

(** From the initial state: the counter is past every live and every issued
    handle, and every live handle was issued. *)
Lemma run_boot ops :
  Z.of_nat (length ops) < INT64_MAX →
  1 <= next (run ops boot).1 <= 1 + Z.of_nat (length ops)
  ∧ Forall (λ h, 1 <= h < next (run ops boot).1) (issued (run ops boot).2)
  ∧ increasing (issued (run ops boot).2)
  ∧ ∀ h, live (run ops boot).1 h → h ∈ issued (run ops boot).2.
Proof.
  intros Hb.
  destruct (run_spec ops boot) as (Hn & Hall & Hinc & Hlive);
    rewrite ?boot_next; try lia.
  rewrite boot_next in *.
  repeat split; try lia; auto.
  intros h Hh. destruct (Hlive h Hh) as [Hl|Hi]; [|done].
  by apply boot_dead in Hl.
Qed.

Lemma increasing_NoDup l : increasing l → NoDup l.
Proof.
  intros Hinc. apply NoDup_alt. intros i j x Hi Hj.
  destruct (Nat.lt_trichotomy i j) as [Hlt|[Heq|Hgt]]; [|done|].
  - pose proof (Hinc i j x x Hlt Hi Hj). lia.
  - pose proof (Hinc j i x x Hgt Hj Hi). lia.
Qed.

Lemma run_dead_stays_dead ops p h :
  1 <= next p →
  next p + Z.of_nat (length ops) <= INT64_MAX →
  h < next p → ¬ live p h → ¬ live (run ops p).1 h.
Proof.
  intros H1 Hb Hlt Hdead Hl.
  destruct (run_spec ops p H1 Hb) as (_ & Hall & _ & Hlive).
  destruct (Hlive h Hl) as [?|Hi]; [done|].
  rewrite Forall_forall in Hall. apply Hall in Hi. lia.
Qed.

(** Past [INT64_MAX] the counter would wrap, which is why the runs below
    are bounded. *)
Lemma counter_wraps obj p :
  obj ≠ 0 → next p = INT64_MAX → next (store obj p).2 = - 2 ^ 63.
Proof.
  intros Hobj Hn. rewrite (store_nonnull obj p Hobj).
  unfold next; simpl. fold (next p). rewrite Hn. reflexivity.
Qed.

(** C2: after any run of the registry from its initial state, the store of a
    non-null object returns a handle that is not zero, was never issued
    before and resolves to nothing at that moment; afterwards it resolves
    to the stored object and every other handle resolves as before, so no
    live object loses or shares its handle.  The run has fewer than
    [INT64_MAX] calls, the range of the [jlong] counter. *)
Theorem store_issues_fresh_handle (ops : list op) (obj : Z) :
  Z.of_nat (length ops) < INT64_MAX →
  obj ≠ 0 →
  let p := (run ops boot).1 in
  let h := (store obj p).1 in
  let p' := (store obj p).2 in
  h ≠ 0
  ∧ (h ∉ issued (run ops boot).2)
  ∧ ¬ live p h
  ∧ get h p' = obj
  ∧ ∀ k, k ≠ h → get k p' = get k p.
Proof.
  intros Hb Hobj p h p'.
  destruct (run_boot ops Hb) as (Hn & Hall & _ & Hlive).
  subst h p'. rewrite (store_nonnull obj p Hobj). simpl. fold p in Hn, Hall, Hlive.
  assert (Hfresh : next p ∉ issued (run ops boot).2).
  { intros Hi. rewrite Forall_forall in Hall. apply Hall in Hi. lia. }
  repeat split.
  - lia.
  - exact Hfresh.
  - intros Hl. apply Hfresh. subst p. by apply Hlive.
  - unfold get; simpl. by rewrite lookup_insert_eq.
  - intros k Hk. unfold get; simpl. by rewrite lookup_insert_ne.
Qed.

Lemma store_issues_fresh_handle_witness :
  let ops := [store_ 100; store_ 200; release_ 1; store_ 300; get_ 2] in
  Z.of_nat (length ops) < INT64_MAX ∧ 400 ≠ 0 ∧
  (store 400 (run ops boot).1).1 ≠ 0
  ∧ ((store 400 (run ops boot).1).1 ∉ issued (run ops boot).2)
  ∧ ¬ live (run ops boot).1 (store 400 (run ops boot).1).1
  ∧ get (store 400 (run ops boot).1).1 (store 400 (run ops boot).1).2 = 400
  ∧ ∀ k, k ≠ (store 400 (run ops boot).1).1 →
      get k (store 400 (run ops boot).1).2 = get k (run ops boot).1.
Proof.
  intros ops.
  assert (Hb : Z.of_nat (length ops) < INT64_MAX) by reflexivity.
  assert (Hobj : 400 ≠ 0) by discriminate.
  split; [exact Hb|]. split; [exact Hobj|].
  exact (store_issues_fresh_handle ops 400 Hb Hobj).
Defined.

(** C3: a handle that is zero, was never issued or was issued and has been
    released resolves to null and its release changes nothing; the store of
    null returns zero and changes nothing; and a destroy call repeated on
    any handle changes nothing the second time.  The run has fewer than
    [INT64_MAX] calls. *)
Theorem invalid_handle_is_inert (ops : list op) (h : Z) :
  Z.of_nat (length ops) < INT64_MAX →
  h = 0 ∨ h ∉ issued (run ops boot).2 ∨ released_in ops h →
  let p := (run ops boot).1 in
  get h p = 0
  ∧ release h p = p
  ∧ destroy h p = p
  ∧ store 0 p = (0, p)
  ∧ ∀ k, destroy k (destroy k p) = destroy k p.
Proof.
  intros Hb Hh p.
  assert (Hdead : ¬ live p h).
  { destruct (run_boot ops Hb) as (Hn & Hall & _ & Hlive). fold p in Hn, Hlive.
    rewrite Forall_forall in Hall.
    destruct Hh as [->|[Hni|(before & after & -> & Hi)]].
    - intros Hl. apply Hlive, Hall in Hl. lia.
    - intros Hl. by apply Hni, Hlive.
    - subst p. rewrite run_app. cbn [fst].
      rewrite length_app, length_cons in Hb.
      assert (Hb1 : Z.of_nat (length before) < INT64_MAX) by lia.
      destruct (run_boot before Hb1) as (Hn1 & Hall1 & _ & _).
      rewrite Forall_forall in Hall1. apply Hall1 in Hi.
      set (p1 := (run before boot).1) in *.
      change (run (release_ h :: after) p1) with
        (let '(p2, tr) := run after (release h p1) in (p2, (release_ h, RVoid) :: tr)).
      destruct (run after (release h p1)) as [p2 tr] eqn:E. cbn [fst].
      change p2 with (p2, tr).1. rewrite <- E.
      apply run_dead_stays_dead; rewrite ?release_next; try lia.
      apply release_kills. }
  repeat split.
  - by apply get_dead.
  - by apply release_dead.
  - by apply release_dead.
  - intros k. apply release_twice.
Qed.

Lemma invalid_handle_is_inert_witness :
  let ops := [store_ 100; store_ 200; release_ 1; store_ 300] in
  Z.of_nat (length ops) < INT64_MAX ∧
  (1 = 0 ∨ 1 ∉ issued (run ops boot).2 ∨ released_in ops 1) ∧
  get 1 (run ops boot).1 = 0
  ∧ release 1 (run ops boot).1 = (run ops boot).1
  ∧ destroy 1 (run ops boot).1 = (run ops boot).1
  ∧ store 0 (run ops boot).1 = (0, (run ops boot).1)
  ∧ ∀ k, destroy k (destroy k (run ops boot).1) = destroy k (run ops boot).1.
Proof.
  intros ops.
  assert (Hb : Z.of_nat (length ops) < INT64_MAX) by reflexivity.
  assert (Hh : 1 = 0 ∨ 1 ∉ issued (run ops boot).2 ∨ released_in ops 1).
  { right; right. exists [store_ 100; store_ 200], [store_ 300].
    split; [reflexivity|]. apply list_elem_of_here. }
  split; [exact Hb|]. split; [exact Hh|].
  exact (invalid_handle_is_inert ops 1 Hb Hh).
Defined.

(** C10: the handles that the stores of a run return, in the order of the
    calls, are strictly increasing, so none is returned twice, whatever was
    released in between.  The run has fewer than [INT64_MAX] calls. *)
Theorem handles_strictly_increasing (ops : list op) :
  Z.of_nat (length ops) < INT64_MAX →
  increasing (issued (run ops boot).2) ∧ NoDup (issued (run ops boot).2).
Proof.
  intros Hb. destruct (run_boot ops Hb) as (_ & _ & Hinc & _).
  split; [done | by apply increasing_NoDup].
Qed.

Lemma handles_strictly_increasing_witness :
  let ops := [store_ 100; release_ 1; store_ 100; get_ 1; store_ 0; store_ 300] in
  Z.of_nat (length ops) < INT64_MAX ∧
  increasing (issued (run ops boot).2) ∧ NoDup (issued (run ops boot).2).
Proof.
  intros ops.
  assert (Hb : Z.of_nat (length ops) < INT64_MAX) by reflexivity.
  split; [exact Hb|].
  exact (handles_strictly_increasing ops Hb).
Defined.

End RegistryFacts.

(** ** The blend table *)

Module BlendFacts.
Import Blend.

(** C4: [GetBlendDesc] disables blending for mode 0 and, for the modes 1 to
    4, enables it with the source factor, destination factor and operation
    of the table: alpha = (src-alpha, inv-src-alpha, add), additive =
    (src-alpha, one, add), multiply = (dest-color, zero, add),
    premultiplied alpha = (one, inv-src-alpha, add). *)
Theorem GetBlendDesc_table :
  BlendEnable (GetBlendDesc 0) = false
  ∧ (BlendEnable (GetBlendDesc 1) = true
     ∧ colour_blend (GetBlendDesc 1) =
         (D3D12_BLEND_SRC_ALPHA, D3D12_BLEND_INV_SRC_ALPHA, D3D12_BLEND_OP_ADD))
  ∧ (BlendEnable (GetBlendDesc 2) = true
     ∧ colour_blend (GetBlendDesc 2) =
         (D3D12_BLEND_SRC_ALPHA, D3D12_BLEND_ONE, D3D12_BLEND_OP_ADD))
  ∧ (BlendEnable (GetBlendDesc 3) = true
     ∧ colour_blend (GetBlendDesc 3) =
         (D3D12_BLEND_DEST_COLOR, D3D12_BLEND_ZERO, D3D12_BLEND_OP_ADD))
  ∧ (BlendEnable (GetBlendDesc 4) = true
     ∧ colour_blend (GetBlendDesc 4) =
         (D3D12_BLEND_ONE, D3D12_BLEND_INV_SRC_ALPHA, D3D12_BLEND_OP_ADD)).
Proof. repeat split. Qed.

(** The alpha channel of the enabled modes, and what is common to all. *)
Lemma GetBlendDesc_fixed mode :
  LogicOpEnable (GetBlendDesc mode) = false
  ∧ LogicOp (GetBlendDesc mode) = D3D12_LOGIC_OP_NOOP
  ∧ RenderTargetWriteMask (GetBlendDesc mode) = D3D12_COLOR_WRITE_ENABLE_ALL.
Proof.
  unfold GetBlendDesc.
  repeat (match goal with |- context [if ?b then _ else _] => destruct b end);
    repeat split.
Qed.

(** A mode outside the enumeration leaves blending disabled. *)
Lemma GetBlendDesc_other mode :
  mode < 0 ∨ 4 < mode → BlendEnable (GetBlendDesc mode) = false.
Proof.
  intros H. unfold GetBlendDesc.
  unfold BLEND_NONE, BLEND_ALPHA, BLEND_ADDITIVE, BLEND_MULTIPLY,
    BLEND_PREMULTIPLIED_ALPHA.
  repeat (match goal with
          | |- context [?a =? ?b] => destruct (Z.eqb_spec a b); [lia|]
          end).
  reflexivity.
Qed.

End BlendFacts.

(** ** Pixel readback *)

Module ReadbackFacts.
Import Readback.

Lemma land_lnot_255 v : Z.land v (Z.lnot 255) = 256 * (v / 256).
Proof.
  rewrite <- Z.ldiff_land. change 255 with (Z.ones 8).
  rewrite Z.ldiff_ones_r by lia.
  rewrite Z.shiftr_div_pow2, Z.shiftl_mul_pow2 by lia.
  change (2 ^ 8) with 256. lia.
Qed.

Lemma rowPitch_small W :
  1 <= W → 4 * W + 255 <= INT32_MAX →
  rowPitch W = 256 * ((4 * W + 255) / 256).
Proof.
  unfold rowPitch, INT32_MAX. intros H1 H2.
  rewrite (to_jint_id (W * 4)) by (unfold INT32_MAX; lia).
  rewrite (to_jint_id (W * 4 + 255)) by (unfold INT32_MAX; lia).
  rewrite land_lnot_255.
  replace (W * 4 + 255) with (4 * W + 255) by lia.
  apply to_UINT_id.
  pose proof (Z.div_pos (4 * W + 255) 256 ltac:(lia) ltac:(lia)).
  pose proof (Z.mul_div_le (4 * W + 255) 256 ltac:(lia)).
  lia.
Qed.

Lemma rowPitch_least W :
  1 <= W → 4 * W + 255 <= INT32_MAX →
  least_multiple_of_256 (rowPitch W) (4 * W).
Proof.
  intros H1 H2. rewrite (rowPitch_small W H1 H2).
  pose proof (Z.div_mod (4 * W + 255) 256 ltac:(lia)) as Hdm.
  pose proof (Z.mod_pos_bound (4 * W + 255) 256 ltac:(lia)) as Hm.
  repeat split.
  - exists ((4 * W + 255) / 256). lia.
  - lia.
  - intros k [q ->] Hk. lia.
Qed.

Section Rows.
Variables (W : Z) (mapped : Z → Z).
Hypothesis W_pos : 1 <= W.
Hypothesis W_fits : 4 * W <= INT32_MAX.

Local Abbreviation rp := (rowPitch W).

Lemma rp_nonneg : 0 <= rp.
Proof. unfold rowPitch, to_UINT. apply Z.mod_pos_bound. lia. Qed.

Lemma copy_row_at pd y a :
  row_in_range W y →
  copy_row W mapped pd y a =
    if (4 * (y * W) <=? a) && (a <? 4 * (y * W) + 4 * W)
    then mapped (y * rp + (a - 4 * (y * W)))
    else pd a.
Proof.
  intros (Hy & HyW & Hyr). unfold copy_row, memcpy.
  pose proof rp_nonneg.
  rewrite (to_jint_id (y * W)) by (unfold INT32_MAX in *; nia).
  rewrite (to_jint_id (W * 4)) by (unfold INT32_MAX in *; lia).
  rewrite (to_UINT64_id (W * 4)) by (unfold INT32_MAX in *; lia).
  rewrite (to_UINT_id (y * rp)) by nia.
  replace (W * 4) with (4 * W) by lia. reflexivity.
Qed.

Lemma row_loop_below n : ∀ y0 pd a,
  (∀ y, y0 <= y < y0 + Z.of_nat n → row_in_range W y) →
  a < 4 * (y0 * W) →
  row_loop n y0 W mapped pd a = pd a.
Proof.
  induction n as [|n IH]; intros y0 pd a Hr Ha; [reflexivity|].
  cbn [row_loop]. rewrite IH.
  - rewrite copy_row_at by (apply Hr; lia).
    destruct (Z.leb_spec (4 * (y0 * W)) a); [lia | reflexivity].
  - intros y Hy. apply Hr. lia.
  - nia.
Qed.

Lemma row_loop_row n : ∀ y0 pd y b,
  (∀ y, y0 <= y < y0 + Z.of_nat n → row_in_range W y) →
  y0 <= y < y0 + Z.of_nat n →
  0 <= b < 4 * W →
  row_loop n y0 W mapped pd (4 * (y * W) + b) = mapped (y * rp + b).
Proof.
  induction n as [|n IH]; intros y0 pd y b Hr Hy Hb; [lia|].
  cbn [row_loop].
  destruct (Z.eq_dec y y0) as [->|Hne].
  - rewrite row_loop_below.
    + rewrite copy_row_at by (apply Hr; lia).
      destruct (Z.leb_spec (4 * (y0 * W)) (4 * (y0 * W) + b)); [|lia].
      destruct (Z.ltb_spec (4 * (y0 * W) + b) (4 * (y0 * W) + 4 * W)); [|lia].
      simpl. f_equal. lia.
    + intros y Hy'. apply Hr. lia.
    + nia.
  - apply IH; [|lia|lia].
    intros y' Hy'. apply Hr. lia.
Qed.
End Rows.

Lemma laid_out_at W H texel x y c :
  1 <= W → 4 * W + 255 <= INT32_MAX →
  0 <= x < W → 0 <= y → 0 <= c < 4 →
  laid_out (copy_footprint W H) texel (y * rowPitch W + 4 * x + c) = texel x y c.
Proof.
  intros HW Hfit Hx Hy Hc.
  destruct (rowPitch_least W HW Hfit) as ([q Hq] & Hge & _).
  unfold laid_out. cbn [Offset RowPitch copy_footprint].
  change (to_UINT (Z.land (to_jint (to_jint (W * 4) + 255)) (Z.lnot 255)))
    with (rowPitch W).
  rewrite Z.sub_0_r.
  assert (Hdiv : (y * rowPitch W + 4 * x + c) / rowPitch W = y).
  { symmetry. apply (Z.div_unique_pos _ _ y (4 * x + c)); lia. }
  assert (Hmod : (y * rowPitch W + 4 * x + c) mod rowPitch W = 4 * x + c).
  { symmetry. apply (Z.mod_unique_pos _ _ y (4 * x + c)); lia. }
  assert (Hx4 : (4 * x + c) / 4 = x).
  { symmetry. apply (Z.div_unique_pos _ _ x c); lia. }
  assert (Hc4 : (y * rowPitch W + 4 * x + c) mod 4 = c).
  { symmetry. apply (Z.mod_unique_pos _ _ (64 * q * y + x) c); lia. }
  by rewrite Hdiv, Hmod, Hx4, Hc4.
Qed.

(** C5 (as amended): as long as the 32-bit computations stay in range,
    [copyTextureToBuffer] and [readBufferData] use the same row pitch, the
    least multiple of 256 that is at least [4 * W]; [readBufferData] copies
    byte [c] of output pixel [y * W + x] from offset
    [y * rowPitch + 4 * x + c] of the mapping, so it reads the mapping up to
    [(H - 1) * rowPitch + 4 * W], which is at or past the end [4 * W * H] of
    the read range it declares to [Map], and strictly past it for a width
    that is no multiple of 64 and at least two rows; and provided the
    mapping holds, at every offset that is read, the bytes of a buffer laid
    out by the footprint of [copyTextureToBuffer], the output holds the
    image pixel for pixel. *)
Theorem readback_round_trip (p : Registry.Process)
    (Map : Z → Z → Z → option (Z → Z)) (bufferHandle : Z)
    (pixels mapped : Z → Z) (texel : Z → Z → Z → Z) (W H : Z) :
  1 <= W → 1 <= H →
  4 * W + 255 <= INT32_MAX →
  4 * (W * H) <= INT32_MAX →
  (H - 1) * rowPitch W < 2 ^ 32 →
  Registry.get bufferHandle p ≠ 0 →
  Map (Registry.get bufferHandle p) 0 (4 * (W * H)) = Some mapped →
  let out := readBufferData p Map bufferHandle pixels W H in
  let read_end := (H - 1) * rowPitch W + 4 * W in
  RowPitch (copy_footprint W H) = rowPitch W
  ∧ least_multiple_of_256 (rowPitch W) (4 * W)
  ∧ (∀ x y c, 0 <= x < W → 0 <= y < H → 0 <= c < 4 →
       out (4 * (y * W + x) + c) = mapped (y * rowPitch W + 4 * x + c)
       ∧ 0 <= y * rowPitch W + 4 * x + c < read_end)
  ∧ (4 * (W * H) <= read_end
     ∧ (2 <= H → ¬ (64 | W) → 4 * (W * H) < read_end))
  ∧ ((∀ a, 0 <= a < read_end → mapped a = laid_out (copy_footprint W H) texel a) →
     ∀ x y, 0 <= x < W → 0 <= y < H →
       jint_at out (y * W + x) = texel_word texel x y).
Proof.
  intros HW HH Hfit Harea Hpitch Hbuf Hmap out read_end.
  destruct (rowPitch_least W HW Hfit) as ([q Hq] & Hge & _).
  assert (Hend : to_UINT64 (to_jint (to_jint (W * H) * 4)) = 4 * (W * H)).
  { unfold INT32_MAX in *.
    rewrite (to_jint_id (W * H)) by (unfold INT32_MAX; nia).
    rewrite to_jint_id by (unfold INT32_MAX; nia).
    rewrite to_UINT64_id; nia. }
  assert (Hbytes : ∀ x y c, 0 <= x < W → 0 <= y < H → 0 <= c < 4 →
            out (4 * (y * W + x) + c) = mapped (y * rowPitch W + 4 * x + c)).
  { intros x y c Hx Hy Hc. subst out. unfold readBufferData.
    destruct (Z.eqb_spec (Registry.get bufferHandle p) 0) as [|_]; [done|].
    rewrite Hend, Hmap.
    replace (4 * (y * W + x) + c) with (4 * (y * W) + (4 * x + c)) by lia.
    replace (y * rowPitch W + 4 * x + c) with (y * rowPitch W + (4 * x + c)) by lia.
    apply row_loop_row; unfold INT32_MAX in *; try lia.
    intros y' Hy'. rewrite Z2Nat.id in Hy' by lia.
    unfold row_in_range, INT32_MAX. repeat split; nia. }
  assert (Hin : ∀ x y c, 0 <= x < W → 0 <= y < H → 0 <= c < 4 →
            0 <= y * rowPitch W + 4 * x + c < read_end).
  { intros x y c Hx Hy Hc. subst read_end. nia. }
  split; [reflexivity|]. split; [by apply rowPitch_least|].
  split; [intros x y c Hx Hy Hc; split; [by apply Hbytes | by apply Hin]|].
  split.
  - subst read_end. split; [nia|].
    intros H2 Hno.
    assert (Hgt : 4 * W < rowPitch W).
    { destruct (Z.eq_dec (rowPitch W) (4 * W)) as [E|E]; [|lia].
      destruct Hno. exists q. lia. }
    nia.
  - intros Hlaid x y Hx Hy. unfold jint_at, texel_word.
    replace (4 * (y * W + x)) with (4 * (y * W + x) + 0) at 1 by lia.
    rewrite !Hbytes by lia.
    rewrite !Hlaid by (apply Hin; lia).
    rewrite !laid_out_at by lia.
    reflexivity.
Qed.

Lemma readback_round_trip_witness :
  let p := (Registry.store 100 Registry.boot).2 in
  let texel := λ x y c : Z, 16 * x + 64 * y + c in
  let mapped := laid_out (copy_footprint 3 2) texel in
  let Map := λ (_ _ _ : Z), Some mapped in
  let out := readBufferData p Map 1 (λ _, 0) 3 2 in
  let read_end := (2 - 1) * rowPitch 3 + 4 * 3 in
  (1 <= 3 ∧ 1 <= 2 ∧ 4 * 3 + 255 <= INT32_MAX ∧ 4 * (3 * 2) <= INT32_MAX
   ∧ (2 - 1) * rowPitch 3 < 2 ^ 32 ∧ Registry.get 1 p ≠ 0)
  ∧ RowPitch (copy_footprint 3 2) = rowPitch 3
  ∧ least_multiple_of_256 (rowPitch 3) (4 * 3)
  ∧ (∀ x y c, 0 <= x < 3 → 0 <= y < 2 → 0 <= c < 4 →
       out (4 * (y * 3 + x) + c) = mapped (y * rowPitch 3 + 4 * x + c)
       ∧ 0 <= y * rowPitch 3 + 4 * x + c < read_end)
  ∧ (4 * (3 * 2) <= read_end
     ∧ (2 <= 2 → ¬ (64 | 3) → 4 * (3 * 2) < read_end))
  ∧ ((∀ a, 0 <= a < read_end → mapped a = laid_out (copy_footprint 3 2) texel a) →
     ∀ x y, 0 <= x < 3 → 0 <= y < 2 →
       jint_at out (y * 3 + x) = texel_word texel x y).
Proof.
  intros p texel mapped Map out read_end.
  assert (H1 : 1 <= 3) by lia.
  assert (H2 : 1 <= 2) by lia.
  assert (H3 : 4 * 3 + 255 <= INT32_MAX) by (vm_compute; discriminate).
  assert (H4 : 4 * (3 * 2) <= INT32_MAX) by (vm_compute; discriminate).
  assert (H5 : (2 - 1) * rowPitch 3 < 2 ^ 32) by reflexivity.
  assert (H6 : Registry.get 1 p ≠ 0) by (vm_compute; discriminate).
  split; [tauto|].
  exact (readback_round_trip p Map 1 (λ _, 0) mapped texel 3 2
           H1 H2 H3 H4 H5 H6 eq_refl).
Defined.

(** The premise on the mapping is needed.  A [Map] that shows the buffer
    inside the range it is given and zeroes outside: for the 3 x 2 image the
    range is the first 24 bytes, row 0 comes out right and row 1, which
    lies at offset 256, comes out as zeroes. *)
Example readback_through_the_declared_range :
  let p := (Registry.store 100 Registry.boot).2 in
  let texel := λ x y c : Z, 1 + 16 * x + 64 * y + c in
  let buffer := laid_out (copy_footprint 3 2) texel in
  let Map := λ (_ Begin End : Z),
               Some (λ a, if (Begin <=? a) && (a <? End) then buffer a else 0) in
  let out := readBufferData p Map 1 (λ _, 0) 3 2 in
  jint_at out (0 * 3 + 0) = texel_word texel 0 0
  ∧ jint_at out (0 * 3 + 2) = texel_word texel 2 0
  ∧ jint_at out (1 * 3 + 0) = 0
  ∧ texel_word texel 0 1 ≠ 0.
Proof.
  intros p texel buffer Map out.
  split; [reflexivity|]. split; [reflexivity|]. split; [reflexivity|].
  vm_compute. discriminate.
Qed.

(** Against C5 as stated, for every width: the image of width [2 ^ 30] and
    height 1.  [width * 4] leaves the range
    of [int], the row pitch comes out as zero, which is less than the
    [4 * W] bytes of a row, and [readBufferData] copies nothing. *)
Lemma rowPitch_wraps :
  1 <= 2 ^ 30 ∧ 1 <= 1
  ∧ rowPitch (2 ^ 30) = 0
  ∧ RowPitch (copy_footprint (2 ^ 30) 1) = 0
  ∧ ¬ least_multiple_of_256 (rowPitch (2 ^ 30)) (4 * 2 ^ 30)
  ∧ ∀ p Map bufferHandle pixels a,
      readBufferData p Map bufferHandle pixels (2 ^ 30) 1 a = pixels a.
Proof.
  split; [lia|]. split; [lia|]. split; [reflexivity|]. split; [reflexivity|].
  split.
  - intros (_ & Hge & _). revert Hge. vm_compute. intros H. by apply H.
  - intros p Map bufferHandle pixels a. unfold readBufferData.
    destruct (Registry.get bufferHandle p =? 0); [reflexivity|].
    destruct (Map _ _ _); [|reflexivity].
    cbn [Z.to_nat Pos.to_nat Pos.iter_op row_loop Nat.add].
    change (Z.to_nat 1) with 1%nat. cbn [row_loop].
    unfold copy_row, memcpy.
    change (to_UINT64 (to_jint (2 ^ 30 * 4))) with 0.
    destruct (Z.leb_spec (4 * to_jint (0 * 2 ^ 30)) a);
      destruct (Z.ltb_spec a (4 * to_jint (0 * 2 ^ 30) + 0)); simpl; try reflexivity.
    lia.
Qed.

End ReadbackFacts.

(** ** Adapter selection *)

Module DeviceFacts.
Import Device.

Lemma first_capable_cons a l :
  first_capable (a :: l) =
    if is_software a then first_capable l
    else match D3D12CreateDevice a with
         | Some device => Some device
         | None => first_capable l
         end.
Proof.
  unfold first_capable. rewrite filter_cons.
  destruct (is_software a); simpl.
  - destruct (decide (true = false)); [discriminate | reflexivity].
  - destruct (decide (false = false)); [|done].
    simpl. by destruct (D3D12CreateDevice a).
Qed.

(** Either loop, started at index [i] with more fuel than adapters are
    left, leaves with the first capable adapter from [i] on. *)
Lemma isAvailable_loop_drop m : ∀ fuel i,
  Z.of_nat (length (adapters m)) < 2 ^ 32 →
  (length (adapters m) - i < fuel)%nat →
  isAvailable_loop fuel m (Z.of_nat i) =
    Some (bool_decide (is_Some (first_capable (drop i (adapters m))))).
Proof.
  induction fuel as [|fuel IH]; intros i Hlen Hfuel.
  - lia.
  - cbn [isAvailable_loop]. unfold EnumAdapters1. rewrite Nat2Z.id.
    destruct (adapters m !! i) as [a|] eqn:E.
    + apply lookup_lt_Some in E as Hi.
      assert (Hnext : to_UINT (Z.of_nat i + 1) = Z.of_nat (S i)).
      { rewrite to_UINT_id; lia. }
      rewrite (drop_S _ _ _ E), first_capable_cons, Hnext.
      destruct (is_software a).
      * apply IH; [done | lia].
      * destruct (D3D12CreateDevice a); [reflexivity|].
        apply IH; [done | lia].
    + apply lookup_ge_None in E. by rewrite drop_ge.
Qed.

Lemma createDevice_loop_drop m p : ∀ fuel i,
  Z.of_nat (length (adapters m)) < 2 ^ 32 →
  (length (adapters m) - i < fuel)%nat →
  createDevice_loop fuel m p (Z.of_nat i) =
    Some match first_capable (drop i (adapters m)) with
         | Some device =>
             Registry.store (Z.pos device)
               {| Registry.refs := Registry.AddRef (Z.pos device) (Registry.refs p);
                  Registry.inst := Registry.inst p |}
         | None => (0, p)
         end.
Proof.
  induction fuel as [|fuel IH]; intros i Hlen Hfuel.
  - lia.
  - cbn [createDevice_loop]. unfold EnumAdapters1. rewrite Nat2Z.id.
    destruct (adapters m !! i) as [a|] eqn:E.
    + apply lookup_lt_Some in E as Hi.
      assert (Hnext : to_UINT (Z.of_nat i + 1) = Z.of_nat (S i)).
      { rewrite to_UINT_id; lia. }
      rewrite (drop_S _ _ _ E), first_capable_cons, Hnext.
      destruct (is_software a).
      * apply IH; [done | lia].
      * destruct (D3D12CreateDevice a); [reflexivity|].
        apply IH; [done | lia].
    + apply lookup_ge_None in E. by rewrite drop_ge.
Qed.

(** C8: with fuel for every adapter, [createDevice] and [isAvailable] both
    return; when some adapter that is not a software adapter accepts device
    creation, [createDevice] returns a non-zero handle that resolves to the
    device of the first such adapter in enumeration order and [isAvailable]
    returns true; otherwise [createDevice] returns 0, leaves the registry as
    it was, and [isAvailable] returns false.  So [isAvailable] is true
    exactly when [createDevice] returns a non-zero handle. *)
Theorem createDevice_selects (m : Machine) (p : Registry.Process) (fuel : nat) :
  Z.of_nat (length (adapters m)) < 2 ^ 32 →
  (length (adapters m) < fuel)%nat →
  Registry.next p ≠ 0 →
  ∃ h p' b,
    createDevice fuel m p = Some (h, p')
    ∧ isAvailable fuel m = Some b
    ∧ match selected m with
      | Some device => h ≠ 0 ∧ Registry.get h p' = Z.pos device ∧ b = true
      | None => h = 0 ∧ p' = p ∧ b = false
      end
    ∧ (b = true ↔ h ≠ 0).
Proof.
  intros Hlen Hfuel Hnext.
  unfold createDevice, isAvailable, selected.
  destruct (CreateDXGIFactory1 m); simpl.
  - pose proof (createDevice_loop_drop m p fuel 0%nat Hlen ltac:(lia)) as Hc.
    pose proof (isAvailable_loop_drop m fuel 0%nat Hlen ltac:(lia)) as Ha.
    rewrite drop_0 in Hc, Ha. change (Z.of_nat 0) with 0 in Hc, Ha.
    rewrite Hc, Ha. clear Hc Ha.
    destruct (first_capable (adapters m)) as [device|].
    + rewrite RegistryFacts.store_nonnull by done.
      eexists _, _, _. split; [reflexivity|]. split; [reflexivity|].
      assert (Hb : bool_decide (is_Some (Some device)) = true)
        by (apply bool_decide_eq_true; eauto).
      rewrite Hb. split; [|done].
      repeat split; try done.
      unfold Registry.get; simpl. by rewrite lookup_insert_eq.
    + exists 0, p, false. repeat split; done.
  - exists 0, p, false. repeat split; done.
Qed.

Lemma createDevice_selects_witness :
  let m := {| CreateDXGIFactory1 := true;
              adapters := [ {| Flags := 2; D3D12CreateDevice := Some 7%positive |};
                            {| Flags := 0; D3D12CreateDevice := None |};
                            {| Flags := 0; D3D12CreateDevice := Some 9%positive |};
                            {| Flags := 0; D3D12CreateDevice := Some 11%positive |} ] |} in
  (Z.of_nat (length (adapters m)) < 2 ^ 32
   ∧ (length (adapters m) < 5)%nat
   ∧ Registry.next Registry.boot ≠ 0)
  ∧ ∃ h p' b,
      createDevice 5 m Registry.boot = Some (h, p')
      ∧ isAvailable 5 m = Some b
      ∧ match selected m with
        | Some device => h ≠ 0 ∧ Registry.get h p' = Z.pos device ∧ b = true
        | None => h = 0 ∧ p' = Registry.boot ∧ b = false
        end
      ∧ (b = true ↔ h ≠ 0).
Proof.
  intros m.
  assert (H1 : Z.of_nat (length (adapters m)) < 2 ^ 32) by reflexivity.
  assert (H2 : (length (adapters m) < 5)%nat) by (simpl; lia).
  assert (H3 : Registry.next Registry.boot ≠ 0) by discriminate.
  split; [tauto|].
  exact (createDevice_selects m Registry.boot 5 H1 H2 H3).
Defined.

Example createDevice_skips_software :
  let m := {| CreateDXGIFactory1 := true;
              adapters := [ {| Flags := 2; D3D12CreateDevice := Some 7%positive |};
                            {| Flags := 0; D3D12CreateDevice := None |};
                            {| Flags := 0; D3D12CreateDevice := Some 9%positive |} ] |} in
  (fst <$> createDevice 4 m Registry.boot) = Some 1
  ∧ (Registry.get 1 ∘ snd <$> createDevice 4 m Registry.boot) = Some 9
  ∧ isAvailable 4 m = Some true.
Proof. repeat split. Qed.

End DeviceFacts.

(** ** Pipeline state objects *)

Module PipelineFacts.
Import Pipeline.

Lemma build_layout_extra formats offs extra :
  length offs = length formats →
  build_layout formats (offs ++ extra) = build_layout formats offs.
Proof.
  intros Hlen. unfold build_layout. apply Forall_mapM_ext.
  apply Forall_forall. intros i Hi. apply elem_of_seq in Hi.
  rewrite lookup_app_l by lia. reflexivity.
Qed.

Lemma build_layout_defined formats offs :
  length offs = length formats → is_Some (build_layout formats offs).
Proof.
  intros Hlen. unfold build_layout. apply mapM_is_Some_2.
  apply Forall_forall. intros i Hi. apply elem_of_seq in Hi. simpl.
  destruct (lookup_lt_is_Some_2 formats i) as [f Hf]; [lia|].
  destruct (lookup_lt_is_Some_2 offs i) as [o Ho]; [lia|].
  rewrite Hf, Ho. simpl. eauto.
Qed.

Lemma build_layout_short formats offsets :
  (length offsets < length formats)%nat → build_layout formats offsets = None.
Proof.
  intros Hlen. unfold build_layout. apply mapM_None_2.
  apply Exists_exists. exists (length offsets). split.
  - apply elem_of_seq. lia.
  - destruct (formats !! length offsets); simpl; [|done].
    by rewrite (lookup_ge_None_2 offsets (length offsets)).
Qed.

(** Element [i] of the layout is made of format [i] and offset [i]. *)
Lemma build_layout_lookup formats offsets layout (i : nat) format offset :
  build_layout formats offsets = Some layout →
  formats !! i = Some format → offsets !! i = Some offset →
  layout !! i = Some (input_element i format offset).
Proof.
  intros H Hf Ho. unfold build_layout in H. apply mapM_Some_1 in H.
  assert (Hi : seq 0 (length formats) !! i = Some i).
  { apply lookup_seq. split; [done|]. by apply lookup_lt_Some in Hf. }
  destruct (Forall2_lookup_l _ _ _ _ _ H Hi) as (e & He & Hmade).
  simpl in Hmade. rewrite Hf, Ho in Hmade. simpl in Hmade.
  by injection Hmade as <-.
Qed.

Lemma build_layout_length formats offsets layout :
  build_layout formats offsets = Some layout → length layout = length formats.
Proof.
  intros H. unfold build_layout in H. apply mapM_Some_1, Forall2_length in H.
  by rewrite length_seq in H.
Qed.

Section Driver.
Variable CreateGraphicsPipelineState :
  Z → D3D12_GRAPHICS_PIPELINE_STATE_DESC → option positive.

Local Abbreviation create := (createPipelineState CreateGraphicsPipelineState).

(** C6 (as amended): [createPipelineState] does not compare the lengths of
    the two arrays.  It builds one input element per format, element [i]
    from format [i] and offset [i], so offsets behind the last format are
    not read.  With at least as many offsets as formats the call returns:
    0, with the registry as it was, when the device or the root signature
    handle does not resolve or the driver refuses the descriptor with that
    layout; otherwise the next handle of the registry, which resolves to the
    pipeline object of the driver.  It is in every case what the call
    without the surplus offsets returns, and a call that returns 0 leaves
    the registry as it was, so later calls are not affected by it. *)
Theorem createPipelineState_extra_offsets (p : Registry.Process)
    (deviceHandle rootSigHandle : Z) (vs ps : list Z) (topologyType blendMode : Z)
    (formats offs extra : list Z) (stride : Z) :
  length offs = length formats →
  Registry.next p ≠ 0 →
  ∃ layout,
    build_layout formats (offs ++ extra) = Some layout
    ∧ length layout = length formats
    ∧ (∀ (i : nat) format offset,
         formats !! i = Some format → offs !! i = Some offset →
         layout !! i = Some (input_element i format offset))
    ∧ (Registry.get deviceHandle p = 0 ∨ Registry.get rootSigHandle p = 0
       ∨ CreateGraphicsPipelineState (Registry.get deviceHandle p)
           (pso_desc (Registry.get rootSigHandle p) vs ps topologyType blendMode
              layout) = None →
       create p deviceHandle rootSigHandle vs ps topologyType blendMode
         formats (offs ++ extra) stride = Some (0, p))
    ∧ (∀ pso,
         Registry.get deviceHandle p ≠ 0 → Registry.get rootSigHandle p ≠ 0 →
         CreateGraphicsPipelineState (Registry.get deviceHandle p)
           (pso_desc (Registry.get rootSigHandle p) vs ps topologyType blendMode
              layout) = Some pso →
         ∃ p', create p deviceHandle rootSigHandle vs ps topologyType blendMode
                 formats (offs ++ extra) stride = Some (Registry.next p, p')
               ∧ Registry.get (Registry.next p) p' = Z.pos pso)
    ∧ is_Some (create p deviceHandle rootSigHandle vs ps topologyType blendMode
                 formats offs stride)
    ∧ create p deviceHandle rootSigHandle vs ps topologyType blendMode
        formats (offs ++ extra) stride
      = create p deviceHandle rootSigHandle vs ps topologyType blendMode
          formats offs stride
    ∧ ∀ p', create p deviceHandle rootSigHandle vs ps topologyType blendMode
              formats (offs ++ extra) stride = Some (0, p') → p' = p.
Proof.
  intros Hlen Hnext.
  destruct (build_layout_defined formats offs Hlen) as [layout Hlayout].
  assert (Hextra := build_layout_extra formats offs extra Hlen).
  rewrite Hlayout in Hextra.
  exists layout. split; [exact Hextra|].
  split; [by apply (build_layout_length formats offs)|].
  split; [intros i format offset Hf Ho;
          by apply (build_layout_lookup formats offs)|].
  unfold createPipelineState. rewrite Hextra, Hlayout.
  destruct (Z.eqb_spec (Registry.get deviceHandle p) 0) as [Hd|Hd].
  { cbn [orb]. split; [done|]. split; [intros pso H; done|].
    split; [eauto|]. split; [done|]. by intros p' [= <-]. }
  destruct (Z.eqb_spec (Registry.get rootSigHandle p) 0) as [Hr|Hr].
  { cbn [orb]. split; [done|]. split; [intros pso _ H; done|].
    split; [eauto|]. split; [done|]. by intros p' [= <-]. }
  cbn [orb mbind option_bind].
  destruct (CreateGraphicsPipelineState _ _) as [pso|] eqn:E.
  - rewrite RegistryFacts.store_nonnull by done.
    split; [intros [?|[?|?]]; done|].
    split.
    { intros pso' _ _ [= <-]. eexists. split; [reflexivity|].
      unfold Registry.get; simpl. by rewrite lookup_insert_eq. }
    split; [eauto|]. split; [done|].
    intros p' [= H0 _]. unfold Registry.next in *; simpl in *. done.
  - split; [done|]. split; [intros pso _ _ H; done|].
    split; [eauto|]. split; [done|]. by intros p' [= <-].
Qed.

(** With fewer offsets than formats the loop reads past the end of
    [offsetsData], unless a handle is invalid and the call has returned
    before. *)
Lemma createPipelineState_short_offsets (p : Registry.Process)
    (deviceHandle rootSigHandle : Z) (vs ps : list Z) (topologyType blendMode : Z)
    (formats offsets : list Z) (stride : Z) :
  (length offsets < length formats)%nat →
  Registry.get deviceHandle p ≠ 0 →
  Registry.get rootSigHandle p ≠ 0 →
  create p deviceHandle rootSigHandle vs ps topologyType blendMode
    formats offsets stride = None.
Proof.
  intros Hlen Hd Hr. unfold createPipelineState.
  destruct (Z.eqb_spec (Registry.get deviceHandle p) 0); [done|].
  destruct (Z.eqb_spec (Registry.get rootSigHandle p) 0); [done|].
  simpl. by rewrite build_layout_short.
Qed.

End Driver.

(** A process with a device behind handle 1 and a root signature behind
    handle 2, and a driver that accepts the pipeline. *)
Lemma createPipelineState_extra_offsets_witness :
  let p := (Registry.store 200 (Registry.store 100 Registry.boot).2).2 in
  let driver := λ (_ : Z) (_ : D3D12_GRAPHICS_PIPELINE_STATE_DESC), Some 300%positive in
  (length [0; 12] = length [6; 2] ∧ Registry.next p ≠ 0)
  ∧ ∃ layout,
      build_layout [6; 2] ([0; 12] ++ [28]) = Some layout
      ∧ length layout = length [6; 2]
      ∧ (∀ (i : nat) format offset,
           [6; 2] !! i = Some format → [0; 12] !! i = Some offset →
           layout !! i = Some (input_element i format offset))
      ∧ (Registry.get 1 p = 0 ∨ Registry.get 2 p = 0
         ∨ driver (Registry.get 1 p)
             (pso_desc (Registry.get 2 p) [1; 2] [3; 4] 3 1 layout) = None →
         createPipelineState driver p 1 2 [1; 2] [3; 4] 3 1 [6; 2] ([0; 12] ++ [28]) 28
         = Some (0, p))
      ∧ (∀ pso,
           Registry.get 1 p ≠ 0 → Registry.get 2 p ≠ 0 →
           driver (Registry.get 1 p)
             (pso_desc (Registry.get 2 p) [1; 2] [3; 4] 3 1 layout) = Some pso →
           ∃ p', createPipelineState driver p 1 2 [1; 2] [3; 4] 3 1 [6; 2]
                   ([0; 12] ++ [28]) 28 = Some (Registry.next p, p')
                 ∧ Registry.get (Registry.next p) p' = Z.pos pso)
      ∧ is_Some (createPipelineState driver p 1 2 [1; 2] [3; 4] 3 1 [6; 2] [0; 12] 28)
      ∧ createPipelineState driver p 1 2 [1; 2] [3; 4] 3 1 [6; 2] ([0; 12] ++ [28]) 28
        = createPipelineState driver p 1 2 [1; 2] [3; 4] 3 1 [6; 2] [0; 12] 28
      ∧ ∀ p', createPipelineState driver p 1 2 [1; 2] [3; 4] 3 1 [6; 2]
                ([0; 12] ++ [28]) 28 = Some (0, p') → p' = p.
Proof.
  intros p driver.
  assert (H1 : length [0; 12] = length [6; 2]) by reflexivity.
  assert (H2 : Registry.next p ≠ 0) by discriminate.
  split; [tauto|].
  exact (createPipelineState_extra_offsets driver p 1 2 [1; 2] [3; 4] 3 1
           [6; 2] [0; 12] [28] 28 H1 H2).
Defined.

(** Against C6 as stated: two formats and three offsets.  The lengths
    differ, the driver accepts
    the pipeline, and the call returns handle 3, as the call with the two
    offsets alone does. *)
Lemma createPipelineState_mismatch_accepted :
  let p := (Registry.store 200 (Registry.store 100 Registry.boot).2).2 in
  let driver := λ (_ : Z) (_ : D3D12_GRAPHICS_PIPELINE_STATE_DESC), Some 300%positive in
  length [6; 2] ≠ length [0; 12; 28]
  ∧ (fst <$> createPipelineState driver p 1 2 [1; 2] [3; 4] 3 1 [6; 2] [0; 12; 28] 28)
    = Some 3
  ∧ (fst <$> createPipelineState driver p 1 2 [1; 2] [3; 4] 3 1 [6; 2] [0; 12] 28)
    = Some 3
  ∧ ¬ (fst <$> createPipelineState driver p 1 2 [1; 2] [3; 4] 3 1 [6; 2] [0; 12; 28] 28)
      = Some 0.
Proof.
  intros p driver. split; [discriminate|].
  split; [reflexivity|]. split; [reflexivity|]. discriminate.
Qed.

End PipelineFacts.

(** ** Command recording *)

Module CommandListFacts.
Import CommandList.

(** Open the body of whichever entry point the goal is about. *)
Ltac unfold_entry :=
  unfold resourceBarrier, setRenderTarget, clearRenderTarget, setViewport,
    setScissorRect, setRootSignature, setGraphicsRoot32BitConstants,
    setPrimitiveTopology, setPipelineState, setVertexBuffer, drawInstanced,
    copyTextureToBuffer.

(** An entry point whose command list handle does not resolve leaves the
    world as it is. *)
Lemma record_invalid n w e : GET_HANDLE w (list_of e) = 0 → record n w e = w.
Proof.
  destruct e; simpl; intros H; unfold_entry; rewrite H; reflexivity.
Qed.

Lemma reset_invalid w commandList allocator pso :
  GET_HANDLE w commandList = 0 ∨ GET_HANDLE w allocator = 0 →
  resetCommandList w commandList allocator pso = w.
Proof.
  unfold resetCommandList. intros [H|H]; rewrite H.
  - reflexivity.
  - by rewrite andb_false_r.
Qed.

(** On a handle that resolves, the call is made; the calls made before,
    and with them the state of the list, play no part. *)
Lemma drawInstanced_forwards w h v i sv si :
  GET_HANDLE w h ≠ 0 →
  drawInstanced w h v i sv si =
    call w (GET_HANDLE w h)
      (DrawInstanced (to_UINT v) (to_UINT i) (to_UINT sv) (to_UINT si)).
Proof.
  intros H. unfold drawInstanced.
  by destruct (Z.eqb_spec (GET_HANDLE w h) 0).
Qed.

(** No entry point looks at the calls made before: it does to any history
    what it does to the empty one. *)
Lemma record_ignores_history n p cs e :
  record n {| proc := p; calls := cs |} e =
    {| proc := proc (record n {| proc := p; calls := [] |} e);
       calls := cs ++ calls (record n {| proc := p; calls := [] |} e) |}.
Proof.
  destruct e; simpl; unfold_entry; unfold GET_HANDLE, call; simpl;
    repeat (match goal with |- context [if ?b then _ else _] => destruct b end);
    simpl; rewrite ?app_nil_r; reflexivity.
Qed.

(** C7 (as amended): for a command list handle that does not resolve (zero,
    never issued or released), every recording entry point is a no-op, and
    so is [resetCommandList] with that handle as its list or as its
    allocator.  Nothing is said about a closed list. *)
Theorem invalid_handle_records_nothing (n : Native) (w : World) (h : Z) :
  GET_HANDLE w h = 0 →
  (∀ e, list_of e = h → record n w e = w)
  ∧ ∀ other pso,
      resetCommandList w h other pso = w ∧ resetCommandList w other h pso = w.
Proof.
  intros H. split.
  - intros e <-. by apply record_invalid.
  - intros other pso. split; apply reset_invalid; auto.
Qed.

Lemma invalid_handle_records_nothing_witness :
  GET_HANDLE fresh_list 7 = 0
  ∧ (∀ e, list_of e = 7 → record a_driver fresh_list e = fresh_list)
  ∧ ∀ other pso,
      resetCommandList fresh_list 7 other pso = fresh_list
      ∧ resetCommandList fresh_list other 7 pso = fresh_list.
Proof.
  assert (H : GET_HANDLE fresh_list 7 = 0) by reflexivity.
  split; [exact H|].
  exact (invalid_handle_records_nothing a_driver fresh_list 7 H).
Defined.

(** Against C7 as stated: the list behind handle 3 is closed, and
    [drawInstanced] on it is no no-op: the list receives [DrawInstanced]. *)
Lemma drawInstanced_on_closed_list :
  GET_HANDLE fresh_list 3 = 500
  ∧ closed (calls fresh_list) 500 = true
  ∧ record a_driver fresh_list (drawInstanced_ 3 3 1 0 0) ≠ fresh_list
  ∧ received (calls (record a_driver fresh_list (drawInstanced_ 3 3 1 0 0))) 500
    = received (calls fresh_list) 500 ++ [DrawInstanced 3 1 0 0].
Proof.
  split; [reflexivity|]. split; [reflexivity|]. split; [|reflexivity].
  intros H. apply (f_equal (λ w, length (calls w))) in H.
  revert H. vm_compute. discriminate.
Qed.

(** C9 (as amended): on a command list handle that resolves,
    [setGraphicsRoot32BitConstants] makes one call that carries the whole
    [values] array, to the root parameter that the caller names in
    [rootParameterIndex], at a destination offset of [offset] 32-bit values,
    which is byte [4 * offset] of the block; in the root signature,
    parameter 0 is the block of 20 constants. *)
Theorem setGraphicsRoot32BitConstants_call (w : World)
    (h rootParameterIndex : Z) (values : list Z) (offset : Z) :
  GET_HANDLE w h ≠ 0 →
  let c := SetGraphicsRoot32BitConstants (to_UINT rootParameterIndex)
             (to_UINT (Z.of_nat (length values))) values (to_UINT offset) in
  setGraphicsRoot32BitConstants w h rootParameterIndex values offset
    = call w (GET_HANDLE w h) c
  ∧ constants_target c = Some (to_UINT rootParameterIndex, 4 * to_UINT offset)
  ∧ rootParams !! 0%nat = Some (Constants32 0 0 20 D3D12_SHADER_VISIBILITY_ALL).
Proof.
  intros H c. unfold setGraphicsRoot32BitConstants.
  destruct (Z.eqb_spec (GET_HANDLE w h) 0); [done|].
  repeat split.
Qed.

Lemma setGraphicsRoot32BitConstants_call_witness :
  GET_HANDLE fresh_list 3 ≠ 0
  ∧ setGraphicsRoot32BitConstants fresh_list 3 0 [1; 2; 3; 4] 16
    = call fresh_list (GET_HANDLE fresh_list 3)
        (SetGraphicsRoot32BitConstants (to_UINT 0) (to_UINT (Z.of_nat 4))
           [1; 2; 3; 4] (to_UINT 16))
  ∧ constants_target
      (SetGraphicsRoot32BitConstants (to_UINT 0) (to_UINT (Z.of_nat 4))
         [1; 2; 3; 4] (to_UINT 16))
    = Some (to_UINT 0, 4 * to_UINT 16)
  ∧ rootParams !! 0%nat = Some (Constants32 0 0 20 D3D12_SHADER_VISIBILITY_ALL).
Proof.
  assert (H : GET_HANDLE fresh_list 3 ≠ 0) by discriminate.
  split; [exact H|].
  exact (setGraphicsRoot32BitConstants_call fresh_list 3 0 [1; 2; 3; 4] 16 H).
Defined.

(** Against C9 as stated: a call with [rootParameterIndex = 1] and
    [offset = 2].  The constants go to root parameter 1, not 0, and start at
    byte 8, not 2. *)
Lemma constants_to_parameter_1 :
  GET_HANDLE fresh_list 3 ≠ 0
  ∧ last (calls (setGraphicsRoot32BitConstants fresh_list 3 1 [1; 2; 3; 4] 2))
    = Some (500, SetGraphicsRoot32BitConstants 1 4 [1; 2; 3; 4] 2)
  ∧ constants_target (SetGraphicsRoot32BitConstants 1 4 [1; 2; 3; 4] 2)
    = Some (1, 8)
  ∧ constants_target (SetGraphicsRoot32BitConstants 1 4 [1; 2; 3; 4] 2)
    ≠ Some (0, 2).
Proof.
  split; [discriminate|]. split; [reflexivity|]. split; [reflexivity|].
  discriminate.
Qed.

End CommandListFacts.

(** ** Fences *)

Module FenceFacts.
Import Fence.

Lemma first_reached_sound e fence target : ∀ fuel t t',
  first_reached fuel e fence target t = Some t' →
  (t <= t')%nat
  ∧ target <= GetCompletedValue e fence t'
  ∧ ∀ s, (t <= s < t')%nat → GetCompletedValue e fence s < target.
Proof.
  induction fuel as [|fuel IH]; intros t t' H; [discriminate|].
  cbn [first_reached] in H.
  destruct (Z.leb_spec target (GetCompletedValue e fence t)) as [Hle|Hlt].
  - injection H as <-. repeat split; [lia | done | intros s Hs; lia].
  - apply IH in H as (Ht & Hreach & Hbefore).
    repeat split; [lia | done |].
    intros s Hs. destruct (decide (s = t)) as [->|Hne]; [done|].
    apply Hbefore. lia.
Qed.

Lemma first_reached_total e fence target : ∀ fuel t t1,
  (t <= t1)%nat → (t1 - t < fuel)%nat →
  target <= GetCompletedValue e fence t1 →
  ∃ t', first_reached fuel e fence target t = Some t' ∧ (t' <= t1)%nat.
Proof.
  induction fuel as [|fuel IH]; intros t t1 Ht Hfuel Hreach; [lia|].
  cbn [first_reached].
  destruct (Z.leb_spec target (GetCompletedValue e fence t)) as [Hle|Hlt].
  - exists t. split; [reflexivity | lia].
  - assert (t ≠ t1) by (intros ->; lia).
    apply IH; [lia | lia | done].
Qed.

(** When [CreateEvent] returns a handle, a return of [waitForFence] comes at
    an instant at which the fence has reached the value, and the call does
    return once the fence gets there. *)
Lemma waitForFence_with_event fuel e p fenceHandle value now event t :
  Registry.get fenceHandle p ≠ 0 →
  CreateEvent e = Some event →
  waitForFence fuel e p fenceHandle value now = Some t →
  (now <= t)%nat
  ∧ to_UINT64 value <= GetCompletedValue e (Registry.get fenceHandle p) t.
Proof.
  intros Hf Hev. unfold waitForFence, WaitForSingleObject.
  destruct (Z.eqb_spec (Registry.get fenceHandle p) 0); [done|].
  destruct (Z.ltb_spec (GetCompletedValue e (Registry.get fenceHandle p) now)
              (to_UINT64 value)) as [Hlt|Hge].
  - rewrite Hev. destruct (SetEventOnCompletion e); [|discriminate].
    intros H. by apply first_reached_sound in H as (? & ? & _).
  - intros [= <-]. split; [lia | done].
Qed.

Lemma waitForFence_returns fuel e p fenceHandle value now event t1 :
  CreateEvent e = Some event →
  SetEventOnCompletion e = true →
  (now <= t1)%nat → (t1 - now < fuel)%nat →
  to_UINT64 value <= GetCompletedValue e (Registry.get fenceHandle p) t1 →
  is_Some (waitForFence fuel e p fenceHandle value now).
Proof.
  intros Hev Hset Ht Hfuel Hreach. unfold waitForFence, WaitForSingleObject.
  destruct (_ =? 0); [eauto|].
  destruct (_ <? _); [|eauto].
  rewrite Hev, Hset.
  destruct (first_reached_total e (Registry.get fenceHandle p) (to_UINT64 value)
              fuel now t1 Ht Hfuel Hreach) as (t' & -> & _).
  eauto.
Qed.

(** When [CreateEvent] returns [NULL], [waitForFence] returns at once. *)
Lemma waitForFence_without_event fuel e p fenceHandle value now :
  CreateEvent e = None →
  waitForFence fuel e p fenceHandle value now = Some now.
Proof.
  intros Hev. unfold waitForFence. rewrite Hev.
  destruct (_ =? 0); [done|]. by destruct (_ <? _).
Qed.

(** C1 fails at a fence that is at 0 and reaches 1 at instant 5, with
    [CreateEvent] returning [NULL]: [waitForFence(fence, 1)] entered at
    instant 0 returns at instant 0, when [getFenceCompletedValue] is still
    0. *)
Theorem waitForFence_returns_early :
  let p := (Registry.store 600 Registry.boot).2 in
  let e := {| GetCompletedValue := λ _ t, if (t <? 5)%nat then 0 else 1;
              CreateEvent := None;
              SetEventOnCompletion := true |} in
  Registry.get 1 p = 600
  ∧ (∀ fuel, waitForFence fuel e p 1 1 0 = Some 0%nat)
  ∧ getFenceCompletedValue e p 1 0 = 0
  ∧ ¬ getFenceCompletedValue e p 1 0 >= 1.
Proof.
  intros p e. split; [reflexivity|]. split; [|split].
  - intros fuel. by apply waitForFence_without_event.
  - reflexivity.
  - vm_compute. intros H. by apply H.
Qed.

(** The same fence with [CreateEvent] returning a handle: the call returns
    at instant 5. *)
Example waitForFence_waits :
  let p := (Registry.store 600 Registry.boot).2 in
  let e := {| GetCompletedValue := λ _ t, if (t <? 5)%nat then 0 else 1;
              CreateEvent := Some 9%positive;
              SetEventOnCompletion := true |} in
  waitForFence 10 e p 1 1 0 = Some 5%nat.
Proof. reflexivity. Qed.

End FenceFacts.

(** * Further properties *)

(** ** The registry: round trips, numbering and reference accounting *)

Module RegistryMore.
Import Registry Accounting.

Lemma Release_AddRef obj (r : gmap Z nat) :
  r !! obj ≠ Some 0%nat → Release obj (AddRef obj r) = r.
Proof.
  intros H0. unfold Release, AddRef. rewrite lookup_insert_eq.
  destruct (r !! obj) as [[|n]|] eqn:E; simpl.
  - done.
  - rewrite insert_insert_eq. by apply insert_id.
  - by apply delete_insert_id.
Qed.

(** X1: in a state in which the counter is not a live handle, storing a
    non-null object and releasing the handle again gives back the map
    and the reference counts; what stays is the step of the counter.  In
    between, the handle resolves to the object. *)
Theorem store_release_round_trip (obj : Z) (p : Process) :
  obj ≠ 0 →
  ¬ live p (next p) →
  refs p !! obj ≠ Some 0%nat →
  let h := (store obj p).1 in
  let p1 := (store obj p).2 in
  get h p1 = obj
  ∧ objects_ (inst (release h p1)) = objects_ (inst p)
  ∧ refs (release h p1) = refs p
  ∧ next (release h p1) = to_jlong (next p + 1).
Proof.
  intros Hobj Hfresh H0 h p1. subst h p1.
  rewrite (RegistryFacts.store_nonnull obj p Hobj). cbn [fst snd].
  assert (Hnone : objects_ (inst p) !! next p = None).
  { destruct (objects_ (inst p) !! next p) eqn:E; [|done].
    destruct Hfresh. unfold live. rewrite E. eauto. }
  unfold get, release; cbn [inst objects_ nextHandle_ refs].
  rewrite lookup_insert_eq. cbn [inst objects_ nextHandle_ refs].
  repeat split.
  - by apply delete_insert_id.
  - by apply Release_AddRef.
Qed.

Lemma store_release_round_trip_witness :
  let p := (run [store_ 100; store_ 200; release_ 1] boot).1 in
  (200 ≠ 0 ∧ ¬ live p (next p) ∧ refs p !! 200 ≠ Some 0%nat)
  ∧ get (store 200 p).1 (store 200 p).2 = 200
  ∧ objects_ (inst (release (store 200 p).1 (store 200 p).2)) = objects_ (inst p)
  ∧ refs (release (store 200 p).1 (store 200 p).2) = refs p
  ∧ next (release (store 200 p).1 (store 200 p).2) = to_jlong (next p + 1).
Proof.
  intros p.
  assert (H1 : 200 ≠ 0) by discriminate.
  assert (H2 : ¬ live p (next p)) by (intros [x Hx]; vm_compute in Hx; discriminate).
  assert (H3 : refs p !! 200 ≠ Some 0%nat) by (vm_compute; discriminate).
  split; [tauto|].
  exact (store_release_round_trip 200 p H1 H2 H3).
Defined.

(** The handles of a run count up from the counter it starts with. *)
Lemma run_numbers ops : ∀ p,
  1 <= next p →
  next p + Z.of_nat (length ops) <= INT64_MAX →
  issued (run ops p).2 = seqZ (next p) (Z.of_nat (length (issued (run ops p).2)))
  ∧ next (run ops p).1 = next p + Z.of_nat (length (issued (run ops p).2)).
Proof.
  induction ops as [|o ops IH]; intros p H1 Hb.
  - simpl. split; [reflexivity | lia].
  - rewrite length_cons, Nat2Z.inj_succ in Hb.
    destruct o as [obj|h|h]; simpl.
    + destruct (Z.eq_dec obj 0) as [->|Hobj].
      * rewrite RegistryFacts.store_null.
        destruct (IH p H1 ltac:(lia)) as (Hi & Hn).
        destruct (run ops p) as [p2 tr]; cbn [fst snd] in *. done.
      * rewrite (RegistryFacts.store_nonnull obj p Hobj).
        set (p1 := {| refs := _; inst := _ |}).
        assert (Hp1 : next p1 = next p + 1).
        { unfold next, p1; simpl. fold (next p). apply to_jlong_id.
          unfold INT64_MAX in *. lia. }
        destruct (IH p1 ltac:(lia) ltac:(lia)) as (Hi & Hn).
        destruct (run ops p1) as [p2 tr]; cbn [fst snd] in *.
        rewrite (RegistryFacts.issued_cons_store obj (next p) tr Hobj).
        rewrite length_cons, Nat2Z.inj_succ. split; [|lia].
        rewrite seqZ_cons by lia. f_equal.
        rewrite Hi at 1. f_equal; lia.
    + destruct (IH p H1 ltac:(lia)) as (Hi & Hn).
      destruct (run ops p) as [p2 tr]; cbn [fst snd] in *. done.
    + pose proof (RegistryFacts.release_next h p) as Hrn.
      destruct (IH (release h p) ltac:(lia) ltac:(lia)) as (Hi & Hn).
      destruct (run ops (release h p)) as [p2 tr]; cbn [fst snd] in *.
      rewrite Hrn in *. done.
Qed.

(** X2: from the initial state, the store of the [i]-th non-null object
    (counting from 0) returns the handle [1 + i], and the counter ends one
    past the number of such stores.  The run has fewer than [INT64_MAX]
    calls. *)
Theorem handles_count_from_one (ops : list op) :
  Z.of_nat (length ops) < INT64_MAX →
  (∀ (i : nat) h, issued (run ops boot).2 !! i = Some h → h = 1 + Z.of_nat i)
  ∧ next (run ops boot).1 = 1 + Z.of_nat (length (issued (run ops boot).2)).
Proof.
  intros Hb.
  destruct (run_numbers ops boot) as (Hi & Hn);
    rewrite ?RegistryFacts.boot_next; try lia.
  rewrite RegistryFacts.boot_next in *. split; [|done].
  intros i h Hh. rewrite Hi in Hh. by apply lookup_seqZ in Hh as [-> _].
Qed.

Lemma handles_count_from_one_witness :
  let ops := [store_ 100; release_ 1; store_ 0; store_ 100; get_ 7; store_ 300] in
  Z.of_nat (length ops) < INT64_MAX
  ∧ (∀ (i : nat) h, issued (run ops boot).2 !! i = Some h → h = 1 + Z.of_nat i)
  ∧ next (run ops boot).1 = 1 + Z.of_nat (length (issued (run ops boot).2)).
Proof.
  intros ops.
  assert (Hb : Z.of_nat (length ops) < INT64_MAX) by reflexivity.
  split; [exact Hb|].
  exact (handles_count_from_one ops Hb).
Defined.

Lemma handles_to_store obj p o :
  obj ≠ 0 → ¬ live p (next p) →
  handles_to (store obj p).2 o =
    if decide (o = obj) then S (handles_to p o) else handles_to p o.
Proof.
  intros Hobj Hfresh. rewrite (RegistryFacts.store_nonnull obj p Hobj).
  unfold handles_to; cbn [snd inst objects_].
  assert (Hnone : objects_ (inst p) !! next p = None).
  { destruct (objects_ (inst p) !! next p) eqn:E; [|done].
    destruct Hfresh. unfold live. rewrite E. eauto. }
  destruct (decide (o = obj)) as [->|Hne].
  - rewrite map_filter_insert_True by done.
    apply map_size_insert_None. apply map_lookup_filter_None. by left.
  - rewrite map_filter_insert_not'; [done | simpl; congruence |].
    intros y Hy. congruence.
Qed.

Lemma handles_to_release h obj p o :
  objects_ (inst p) !! h = Some obj →
  handles_to (release h p) o =
    if decide (o = obj) then Nat.pred (handles_to p o) else handles_to p o.
Proof.
  intros Hh. unfold release. rewrite Hh.
  unfold handles_to; cbn [inst objects_].
  rewrite map_filter_delete.
  destruct (decide (o = obj)) as [->|Hne].
  - apply map_size_delete_Some. exists obj.
    by apply map_lookup_filter_Some.
  - apply map_size_delete_None. apply map_lookup_filter_None. right.
    intros y Hy. simpl. congruence.
Qed.

Lemma handles_to_positive h obj p :
  objects_ (inst p) !! h = Some obj → (0 < handles_to p obj)%nat.
Proof.
  intros Hh. unfold handles_to.
  destruct (size _) eqn:E; [|lia].
  apply map_size_empty_inv in E.
  assert (Hl : filter (λ kv : Z * Z, kv.2 = obj) (objects_ (inst p)) !! h = Some obj)
    by (by apply map_lookup_filter_Some).
  rewrite E, lookup_empty in Hl. discriminate.
Qed.

Lemma accounted_store obj p :
  obj ≠ 0 → ¬ live p (next p) → accounted p → accounted (store obj p).2.
Proof.
  intros Hobj Hfresh Hacc o.
  rewrite (handles_to_store obj p o Hobj Hfresh).
  rewrite (RegistryFacts.store_nonnull obj p Hobj). cbn [snd refs].
  unfold AddRef. destruct (decide (o = obj)) as [->|Hne].
  - rewrite lookup_insert_eq, (Hacc obj).
    by destruct (handles_to p obj).
  - rewrite lookup_insert_ne by done. apply Hacc.
Qed.

Lemma accounted_release h p : accounted p → accounted (release h p).
Proof.
  intros Hacc o.
  destruct (objects_ (inst p) !! h) as [obj|] eqn:Hh.
  - rewrite (handles_to_release h obj p o Hh).
    pose proof (handles_to_positive h obj p Hh) as Hpos.
    unfold release. rewrite Hh. cbn [refs]. unfold Release.
    rewrite (Hacc obj).
    destruct (handles_to p obj) as [|[|n]] eqn:En; [lia| |]; simpl.
    + destruct (decide (o = obj)) as [->|Hne].
      * rewrite lookup_delete_eq, En. reflexivity.
      * rewrite lookup_delete_ne by done. apply Hacc.
    + destruct (decide (o = obj)) as [->|Hne].
      * rewrite lookup_insert_eq, En. reflexivity.
      * rewrite lookup_insert_ne by done. apply Hacc.
  - unfold release at 2. rewrite Hh.
    rewrite (RegistryFacts.release_dead h p); [apply Hacc|].
    unfold live. rewrite Hh. by intros [? ?].
Qed.

Lemma below_counter_store obj p :
  obj ≠ 0 → next p + 1 <= INT64_MAX → 1 <= next p →
  below_counter p → below_counter (store obj p).2.
Proof.
  intros Hobj Hmax H1 Hb h. rewrite (RegistryFacts.store_nonnull obj p Hobj).
  unfold live, next; cbn [snd inst objects_ nextHandle_]. fold (next p).
  rewrite to_jlong_id by (unfold INT64_MAX in *; lia).
  destruct (decide (h = next p)) as [->|Hne]; [lia|].
  rewrite lookup_insert_ne by done. intros Hl. apply Hb in Hl. lia.
Qed.

Lemma below_counter_release h p : below_counter p → below_counter (release h p).
Proof.
  intros Hb k Hk. rewrite RegistryFacts.release_next.
  apply Hb. by apply RegistryFacts.release_live in Hk as [? _].
Qed.

Lemma below_counter_fresh p : below_counter p → ¬ live p (next p).
Proof. intros Hb Hl. apply Hb in Hl. lia. Qed.

Lemma run_accounted ops : ∀ p,
  1 <= next p →
  next p + Z.of_nat (length ops) <= INT64_MAX →
  below_counter p → accounted p →
  below_counter (run ops p).1 ∧ accounted (run ops p).1.
Proof.
  induction ops as [|o ops IH]; intros p H1 Hb Hbelow Hacc; [done|].
  rewrite length_cons, Nat2Z.inj_succ in Hb.
  destruct o as [obj|h|h]; simpl.
  - destruct (Z.eq_dec obj 0) as [->|Hobj].
    + rewrite RegistryFacts.store_null.
      destruct (IH p H1 ltac:(lia) Hbelow Hacc) as (? & ?).
      destruct (run ops p) as [p2 tr]; cbn [fst] in *. done.
    + pose proof (below_counter_store obj p Hobj ltac:(lia) H1 Hbelow) as Hb1.
      pose proof (accounted_store obj p Hobj (below_counter_fresh p Hbelow) Hacc) as Ha1.
      assert (Hn1 : next (store obj p).2 = next p + 1).
      { rewrite (RegistryFacts.store_nonnull obj p Hobj).
        unfold next; cbn [snd inst nextHandle_]. fold (next p).
        apply to_jlong_id. unfold INT64_MAX in *. lia. }
      destruct (store obj p) as [h1 p1]; cbn [snd] in *.
      destruct (IH p1 ltac:(lia) ltac:(lia) Hb1 Ha1) as (? & ?).
      destruct (run ops p1) as [p2 tr]; cbn [fst] in *. done.
  - destruct (IH p H1 ltac:(lia) Hbelow Hacc) as (? & ?).
    destruct (run ops p) as [p2 tr]; cbn [fst] in *. done.
  - pose proof (RegistryFacts.release_next h p) as Hrn.
    destruct (IH (release h p) ltac:(lia) ltac:(lia)
                (below_counter_release h p Hbelow) (accounted_release h p Hacc))
      as (? & ?).
    destruct (run ops (release h p)) as [p2 tr]; cbn [fst] in *. done.
Qed.

(** X3: after any run of [store], [get] and [release] from the initial
    state, every object holds exactly one reference for each handle that
    resolves to it, and an object without handle holds none: the registry
    neither leaks nor over-releases.  The run has fewer than [INT64_MAX]
    calls. *)
Theorem references_match_handles (ops : list op) :
  Z.of_nat (length ops) < INT64_MAX →
  ∀ obj, refs (run ops boot).1 !! obj = counted (handles_to (run ops boot).1 obj).
Proof.
  intros Hb.
  destruct (run_accounted ops boot) as (_ & Hacc);
    rewrite ?RegistryFacts.boot_next; try lia; [| |exact Hacc].
  - intros h Hl. by apply RegistryFacts.boot_dead in Hl.
  - intros obj. unfold handles_to; simpl.
    by rewrite map_filter_empty, map_size_empty, lookup_empty.
Qed.

Lemma references_match_handles_witness :
  let ops := [store_ 100; store_ 100; store_ 200; release_ 1; release_ 3] in
  Z.of_nat (length ops) < INT64_MAX
  ∧ ∀ obj, refs (run ops boot).1 !! obj = counted (handles_to (run ops boot).1 obj).
Proof.
  intros ops.
  assert (Hb : Z.of_nat (length ops) < INT64_MAX) by reflexivity.
  split; [exact Hb|].
  exact (references_match_handles ops Hb).
Defined.

End RegistryMore.

(** ** Object factories *)

Module FactoryFacts.
Import Factory.

Lemma STORE_HANDLE_None p : STORE_HANDLE p None = (0, p).
Proof. reflexivity. Qed.

Lemma STORE_HANDLE_Some p obj :
  STORE_HANDLE p (Some obj) =
    (Registry.next p,
     {| Registry.refs :=
          Registry.AddRef (Z.pos obj) (Registry.AddRef (Z.pos obj) (Registry.refs p));
        Registry.inst :=
          {| Registry.objects_ :=
               <[Registry.next p := Z.pos obj]> (Registry.objects_ (Registry.inst p));
             Registry.nextHandle_ := to_jlong (Registry.next p + 1) |} |}).
Proof.
  unfold STORE_HANDLE, created, out_ptr.
  by rewrite RegistryFacts.store_nonnull.
Qed.

Lemma STORE_HANDLE_stored p r : stored p r (STORE_HANDLE p r).
Proof.
  destruct r as [obj|]; [|reflexivity].
  rewrite STORE_HANDLE_Some. unfold stored; cbn [fst snd].
  repeat split.
  - unfold Registry.get; simpl. by rewrite lookup_insert_eq.
  - intros k Hk. unfold Registry.get; simpl. by rewrite lookup_insert_ne.
Qed.

(** Every factory either changes nothing and returns 0, or stores one new
    object. *)
Lemma create_outcome d p c :
  (create d p c = (0, p))
  ∨ (Registry.get (device_of c) p ≠ 0
     ∧ ∃ obj, stored p (Some obj) (create d p c)).
Proof.
  destruct c; simpl;
    unfold createCommandQueue, createCommandAllocator, createFence,
      createRootSignature, createRTVHeap, createSRVHeap, createRenderTarget,
      createReadbackBuffer, createBuffer, createTexture;
    match goal with
    | |- context [Registry.get ?h p =? 0] =>
        destruct (Z.eqb_spec (Registry.get h p) 0) as [|Hdev]; [by left|]
    end;
    match goal with
    | |- context [match ?r with Some _ => _ | None => _ end] =>
        destruct r as [obj|] eqn:E; [|by left]
    | |- context [STORE_HANDLE p ?r] =>
        destruct r as [obj|] eqn:E; [|by left]
    end;
    right; (split; [done|]); exists obj; exact (STORE_HANDLE_stored p (Some obj)).
Qed.

Lemma get_nonzero_lookup h p obj :
  Registry.get h p = obj → obj ≠ 0 →
  Registry.objects_ (Registry.inst p) !! h = Some obj.
Proof.
  unfold Registry.get.
  destruct (Registry.objects_ (Registry.inst p) !! h); intros <- H; done.
Qed.

(** X4: every factory returns 0 and leaves the process as it was when the
    device handle does not resolve; whenever it returns 0 the process is
    unchanged; and a handle that is not 0 is the next handle of the
    registry, resolves to an object, and leaves what every other handle
    resolves to as it was. *)
Theorem factory_contract (d : Driver) (p : Registry.Process) (c : Create) :
  Registry.next p ≠ 0 →
  (Registry.get (device_of c) p = 0 → create d p c = (0, p))
  ∧ ((create d p c).1 = 0 → (create d p c).2 = p)
  ∧ ((create d p c).1 ≠ 0 →
     (create d p c).1 = Registry.next p
     ∧ Registry.get (create d p c).1 (create d p c).2 ≠ 0
     ∧ ∀ k, k ≠ (create d p c).1 →
         Registry.get k (create d p c).2 = Registry.get k p).
Proof.
  intros Hnext.
  destruct (create_outcome d p c) as [E|(Hdev & obj & Hn & Hget & Hother & _)].
  - rewrite E. cbn [fst snd]. repeat split; done.
  - repeat split; try done.
    + intros H0. congruence.
    + by rewrite Hget.
Qed.

Lemma factory_contract_witness :
  let p := (Registry.store 100 Registry.boot).2 in
  let d := accepting 700%positive in
  let c := createFence_ 1 5 in
  Registry.next p ≠ 0
  ∧ (Registry.get (device_of c) p = 0 → create d p c = (0, p))
  ∧ ((create d p c).1 = 0 → (create d p c).2 = p)
  ∧ ((create d p c).1 ≠ 0 →
     (create d p c).1 = Registry.next p
     ∧ Registry.get (create d p c).1 (create d p c).2 ≠ 0
     ∧ ∀ k, k ≠ (create d p c).1 →
         Registry.get k (create d p c).2 = Registry.get k p).
Proof.
  intros p d c.
  assert (H : Registry.next p ≠ 0) by discriminate.
  split; [exact H|].
  exact (factory_contract d p c H).
Defined.

(** X5: the object behind a handle that a factory has returned holds two
    references, its own and the one [store] has added; destroying the
    handle gives back one of them.  For an object that was not alive
    before, one reference is left when its only handle is gone. *)
Theorem factory_object_outlives_handle (d : Driver) (p : Registry.Process)
    (c : Create) :
  (create d p c).1 ≠ 0 →
  Registry.refs p !! Registry.get (create d p c).1 (create d p c).2 = None →
  let h := (create d p c).1 in
  let obj := Registry.get h (create d p c).2 in
  Registry.refs (create d p c).2 !! obj = Some 2%nat
  ∧ Registry.get h (Registry.destroy h (create d p c).2) = 0
  ∧ Registry.refs (Registry.destroy h (create d p c).2) !! obj = Some 1%nat.
Proof.
  intros Hh Hnew h obj. subst h obj.
  destruct (create_outcome d p c) as [E|(Hdev & obj & Hn & Hget & Hother & Hrefs)].
  { rewrite E in Hh. done. }
  rewrite Hget in *.
  assert (Hl := get_nonzero_lookup _ _ _ Hget ltac:(done)).
  assert (H2 : Registry.refs (create d p c).2 !! Z.pos obj = Some 2%nat).
  { rewrite Hrefs. unfold Registry.AddRef.
    rewrite lookup_insert_eq, lookup_insert_eq, Hnew. reflexivity. }
  split; [exact H2|].
  unfold Registry.destroy, Registry.release. rewrite Hl.
  unfold Registry.get; cbn [Registry.inst Registry.objects_ Registry.refs].
  rewrite lookup_delete_eq. split; [reflexivity|].
  unfold Registry.Release. rewrite H2. by rewrite lookup_insert_eq.
Qed.

Lemma factory_object_outlives_handle_witness :
  let p := (Registry.store 100 Registry.boot).2 in
  let d := accepting 700%positive in
  let c := createBuffer_ 1 4096 0 in
  ((create d p c).1 ≠ 0
   ∧ Registry.refs p !! Registry.get (create d p c).1 (create d p c).2 = None)
  ∧ Registry.refs (create d p c).2 !! Registry.get (create d p c).1 (create d p c).2
    = Some 2%nat
  ∧ Registry.get (create d p c).1
      (Registry.destroy (create d p c).1 (create d p c).2) = 0
  ∧ Registry.refs (Registry.destroy (create d p c).1 (create d p c).2)
      !! Registry.get (create d p c).1 (create d p c).2 = Some 1%nat.
Proof.
  intros p d c.
  assert (H1 : (create d p c).1 ≠ 0) by discriminate.
  assert (H2 : Registry.refs p !! Registry.get (create d p c).1 (create d p c).2 = None)
    by reflexivity.
  split; [tauto|].
  exact (factory_object_outlives_handle d p c H1 H2).
Defined.

End FactoryFacts.

(** ** Submission and fences *)

Module QueueFacts.
Import Queue.

Lemma executeCommandList_proc w q h : proc (executeCommandList w q h) = proc w.
Proof.
  unfold executeCommandList.
  by destruct (negb (GET_HANDLE w q =? 0) && negb (GET_HANDLE w h =? 0)).
Qed.

Lemma execute_each_calls hs : ∀ w q,
  GET_HANDLE w q ≠ 0 →
  proc (execute_each w q hs) = proc w
  ∧ calls (execute_each w q hs) =
      calls w
      ++ ((λ commandList, (GET_HANDLE w q, ExecuteCommandLists 1 [commandList]))
            <$> resolved (proc w) hs).
Proof.
  induction hs as [|h hs IH]; intros w q Hq.
  - simpl. by rewrite app_nil_r.
  - unfold execute_each. cbn [fold_left]. fold (execute_each (executeCommandList w q h) q hs).
    assert (Hp := executeCommandList_proc w q h).
    assert (Hq' : GET_HANDLE (executeCommandList w q h) q ≠ 0)
      by (unfold GET_HANDLE in *; by rewrite Hp).
    destruct (IH _ q Hq') as (IHp & IHc).
    rewrite IHp, IHc, Hp. split; [done|].
    unfold resolved. rewrite fmap_cons, filter_cons.
    replace (GET_HANDLE (executeCommandList w q h) q) with (GET_HANDLE w q)
      by (unfold GET_HANDLE; by rewrite Hp).
    unfold executeCommandList. fold (GET_HANDLE w h).
    destruct (Z.eqb_spec (GET_HANDLE w q) 0) as [|_]; [done|].
    destruct (Z.eqb_spec (GET_HANDLE w h) 0) as [E|E]; simpl.
    + destruct (decide (GET_HANDLE w h ≠ 0)); done.
    + destruct (decide (GET_HANDLE w h ≠ 0)); [|done].
      by rewrite fmap_cons, <- app_assoc.
Qed.

Lemma execute_each_invalid hs : ∀ w q,
  GET_HANDLE w q = 0 → execute_each w q hs = w.
Proof.
  induction hs as [|h hs IH]; intros w q Hq; [done|].
  unfold execute_each. cbn [fold_left].
  assert (E : executeCommandList w q h = w).
  { unfold executeCommandList. by rewrite Hq. }
  rewrite E. by apply IH.
Qed.

(** X6: a run of [executeCommandList] calls on one queue leaves the registry
    alone and hands the queue one [ExecuteCommandLists] of one list for
    each handle that resolves, in the order of the calls; the handles that
    do not resolve are passed over without a trace, and so is everything
    when the queue handle does not resolve. *)
Theorem submissions_keep_their_order (w : World) (q : Z) (hs : list Z) :
  proc (execute_each w q hs) = proc w
  ∧ calls (execute_each w q hs) =
      if decide (GET_HANDLE w q = 0) then calls w
      else calls w
           ++ ((λ commandList, (GET_HANDLE w q, ExecuteCommandLists 1 [commandList]))
                 <$> resolved (proc w) hs).
Proof.
  destruct (decide (GET_HANDLE w q = 0)) as [E|E].
  - by rewrite execute_each_invalid.
  - by apply execute_each_calls.
Qed.

(** [signalFence] hands the queue the value as [waitForFence] compares it. *)
Lemma signalFence_call w q f v :
  GET_HANDLE w q ≠ 0 → GET_HANDLE w f ≠ 0 →
  signalFence w q f v =
    call w (GET_HANDLE w q) (Signal (GET_HANDLE w f) (to_UINT64 v)).
Proof.
  intros Hq Hf. unfold signalFence.
  destruct (Z.eqb_spec (GET_HANDLE w q) 0); [done|].
  by destruct (Z.eqb_spec (GET_HANDLE w f) 0).
Qed.

(** X7: [signalFence(queue, fence, v)] asks the queue to signal [v] as an
    unsigned 64-bit value, and [waitForFence(fence, v)] waits for that same
    value.  On queue and fence handles that resolve, when [CreateEvent]
    returns an event and [SetEventOnCompletion] accepts the request, and
    the fence shows at instant [t1] the value that was signalled, the wait
    started at or before [t1] returns, no later than [t1] and with the
    fence at or past the value. *)
Theorem wait_meets_signal (w : World) (q f v : Z) (e : Fence.Env)
    (fuel now t1 : nat) (event : positive) :
  GET_HANDLE w q ≠ 0 → GET_HANDLE w f ≠ 0 →
  Fence.CreateEvent e = Some event →
  Fence.SetEventOnCompletion e = true →
  (now <= t1)%nat → (t1 - now < fuel)%nat →
  (∀ u, last (calls (signalFence w q f v)) = Some (GET_HANDLE w q, Signal (GET_HANDLE w f) u) →
        Fence.GetCompletedValue e (GET_HANDLE w f) t1 = u) →
  ∃ t, Fence.waitForFence fuel e (proc w) f v now = Some t
       ∧ (t <= t1)%nat
       ∧ to_UINT64 v <= Fence.GetCompletedValue e (GET_HANDLE w f) t.
Proof.
  intros Hq Hf Hev Hset Ht Hfuel Hshown.
  assert (Hu : Fence.GetCompletedValue e (GET_HANDLE w f) t1 = to_UINT64 v).
  { apply Hshown. rewrite (signalFence_call w q f v Hq Hf).
    unfold call; cbn [calls]. by rewrite last_snoc. }
  unfold Fence.waitForFence, Fence.WaitForSingleObject.
  fold (GET_HANDLE w f).
  destruct (Z.eqb_spec (GET_HANDLE w f) 0); [done|].
  destruct (Z.ltb_spec (Fence.GetCompletedValue e (GET_HANDLE w f) now) (to_UINT64 v)).
  - rewrite Hev, Hset.
    destruct (FenceFacts.first_reached_total e (GET_HANDLE w f) (to_UINT64 v)
                fuel now t1 Ht Hfuel ltac:(lia)) as (t & Hr & Hle).
    exists t. split; [done|]. split; [done|].
    by apply FenceFacts.first_reached_sound in Hr as (_ & ? & _).
  - exists now. repeat split; [lia | done].
Qed.

Lemma wait_meets_signal_witness :
  let w := {| proc := (Registry.store 600 (Registry.store 100 Registry.boot).2).2;
              calls := [] |} in
  let e := {| Fence.GetCompletedValue := λ _ t, if (t <? 5)%nat then 0 else 7;
              Fence.CreateEvent := Some 9%positive;
              Fence.SetEventOnCompletion := true |} in
  (GET_HANDLE w 1 ≠ 0 ∧ GET_HANDLE w 2 ≠ 0 ∧ (0 <= 5)%nat ∧ (5 - 0 < 10)%nat)
  ∧ ∃ t, Fence.waitForFence 10 e (proc w) 2 7 0 = Some t
         ∧ (t <= 5)%nat
         ∧ to_UINT64 7 <= Fence.GetCompletedValue e (GET_HANDLE w 2) t.
Proof.
  intros w e.
  assert (H1 : GET_HANDLE w 1 ≠ 0) by discriminate.
  assert (H2 : GET_HANDLE w 2 ≠ 0) by discriminate.
  assert (H3 : (0 <= 5)%nat) by lia.
  assert (H4 : (5 - 0 < 10)%nat) by (simpl; lia).
  assert (H5 : ∀ u, last (calls (signalFence w 1 2 7))
                     = Some (GET_HANDLE w 1, Signal (GET_HANDLE w 2) u) →
                   Fence.GetCompletedValue e (GET_HANDLE w 2) 5 = u).
  { intros u Hu. vm_compute in Hu. injection Hu as <-. reflexivity. }
  split; [tauto|].
  exact (wait_meets_signal w 1 2 7 e 10 0 5 9%positive H1 H2 eq_refl eq_refl H3 H4 H5).
Defined.

End QueueFacts.

(** ** Fences: when a wait returns *)

Module FenceMore.
Import Fence.

(** X8: on a fence handle that resolves, with an event and an accepted
    completion request, [waitForFence] returns exactly at the first instant
    from its entry on at which the fence has reached the value, at once
    when it already has. *)
Theorem waitForFence_first_instant (fuel : nat) (e : Env) (p : Registry.Process)
    (fenceHandle value : Z) (now t1 : nat) (event : positive) :
  CreateEvent e = Some event →
  SetEventOnCompletion e = true →
  (now <= t1)%nat → (t1 - now < fuel)%nat →
  to_UINT64 value <= GetCompletedValue e (Registry.get fenceHandle p) t1 →
  (∀ s, (now <= s < t1)%nat →
        GetCompletedValue e (Registry.get fenceHandle p) s < to_UINT64 value) →
  Registry.get fenceHandle p ≠ 0 →
  waitForFence fuel e p fenceHandle value now = Some t1.
Proof.
  intros Hev Hset Ht Hfuel Hreach Hbefore Hvalid.
  unfold waitForFence, WaitForSingleObject.
  destruct (Z.eqb_spec (Registry.get fenceHandle p) 0); [done|].
  destruct (Z.ltb_spec (GetCompletedValue e (Registry.get fenceHandle p) now)
              (to_UINT64 value)) as [Hlt|Hge].
  - rewrite Hev, Hset.
    destruct (FenceFacts.first_reached_total e _ (to_UINT64 value)
                fuel now t1 Ht Hfuel Hreach) as (t & Hr & Hle).
    rewrite Hr. f_equal.
    apply FenceFacts.first_reached_sound in Hr as (Hnow & Hthere & _).
    destruct (decide (t = t1)) as [|Hne]; [done|].
    specialize (Hbefore t ltac:(lia)). lia.
  - destruct (decide (now = t1)) as [->|Hne]; [done|].
    specialize (Hbefore now ltac:(lia)). lia.
Qed.

Lemma waitForFence_first_instant_witness :
  let p := (Registry.store 600 Registry.boot).2 in
  let e := {| GetCompletedValue := λ _ t, Z.of_nat t;
              CreateEvent := Some 9%positive;
              SetEventOnCompletion := true |} in
  ((2 <= 6)%nat ∧ (6 - 2 < 8)%nat
   ∧ to_UINT64 6 <= GetCompletedValue e (Registry.get 1 p) 6
   ∧ Registry.get 1 p ≠ 0)
  ∧ waitForFence 8 e p 1 6 2 = Some 6%nat.
Proof.
  intros p e.
  assert (H1 : (2 <= 6)%nat) by lia.
  assert (H2 : (6 - 2 < 8)%nat) by (simpl; lia).
  assert (H3 : to_UINT64 6 <= GetCompletedValue e (Registry.get 1 p) 6)
    by (vm_compute; discriminate).
  assert (H4 : ∀ s, (2 <= s < 6)%nat →
                 GetCompletedValue e (Registry.get 1 p) s < to_UINT64 6).
  { intros s Hs. change (Z.of_nat s < 6). lia. }
  assert (H5 : Registry.get 1 p ≠ 0) by discriminate.
  split; [tauto|].
  exact (waitForFence_first_instant 8 e p 1 6 2 6 9%positive
           eq_refl eq_refl H1 H2 H3 H4 H5).
Defined.

Lemma first_reached_never e fence target : ∀ fuel t,
  (∀ s, GetCompletedValue e fence s < target) →
  first_reached fuel e fence target t = None.
Proof.
  induction fuel as [|fuel IH]; intros t Hnever; [reflexivity|].
  cbn [first_reached].
  destruct (Z.leb_spec target (GetCompletedValue e fence t)) as [Hle|_].
  - specialize (Hnever t). lia.
  - by apply IH.
Qed.

(** X9: the value is compared as an unsigned number.  A negative [value]
    stands for [2 ^ 64 + value]: on a fence that stays below [2 ^ 63] the
    wait, once it has its event, does not return, however long it is
    given. *)
Theorem waitForFence_negative_value (e : Env) (p : Registry.Process)
    (fenceHandle value : Z) (now : nat) (event : positive) :
  - 2 ^ 63 <= value < 0 →
  Registry.get fenceHandle p ≠ 0 →
  CreateEvent e = Some event →
  (∀ s, 0 <= GetCompletedValue e (Registry.get fenceHandle p) s < 2 ^ 63) →
  to_UINT64 value = 2 ^ 64 + value
  ∧ ∀ fuel, waitForFence fuel e p fenceHandle value now = None.
Proof.
  intros Hv Hvalid Hev Hlow.
  assert (Hu : to_UINT64 value = 2 ^ 64 + value).
  { unfold to_UINT64. symmetry. apply (Z.mod_unique_pos _ _ (-1)); lia. }
  split; [exact Hu|]. intros fuel.
  unfold waitForFence, WaitForSingleObject.
  destruct (Z.eqb_spec (Registry.get fenceHandle p) 0); [done|].
  rewrite Hu.
  destruct (Z.ltb_spec (GetCompletedValue e (Registry.get fenceHandle p) now)
              (2 ^ 64 + value)) as [_|Hge].
  - rewrite Hev. destruct (SetEventOnCompletion e); [|done].
    apply first_reached_never. intros s. specialize (Hlow s). lia.
  - specialize (Hlow now). lia.
Qed.

Lemma waitForFence_negative_value_witness :
  let p := (Registry.store 600 Registry.boot).2 in
  let e := {| GetCompletedValue := λ _ t, Z.of_nat t mod 1000;
              CreateEvent := Some 9%positive;
              SetEventOnCompletion := true |} in
  (- 2 ^ 63 <= -1 < 0 ∧ Registry.get 1 p ≠ 0)
  ∧ to_UINT64 (-1) = 2 ^ 64 + -1
  ∧ ∀ fuel, waitForFence fuel e p 1 (-1) 0 = None.
Proof.
  intros p e.
  assert (H1 : - 2 ^ 63 <= -1 < 0) by lia.
  assert (H2 : Registry.get 1 p ≠ 0) by discriminate.
  assert (H3 : ∀ s, 0 <= GetCompletedValue e (Registry.get 1 p) s < 2 ^ 63).
  { intros s. change (0 <= Z.of_nat s mod 1000 < 2 ^ 63).
    pose proof (Z.mod_pos_bound (Z.of_nat s) 1000 ltac:(lia)). lia. }
  split; [tauto|].
  exact (waitForFence_negative_value e p 1 (-1) 0 9%positive H1 H2 eq_refl H3).
Defined.

(** X10: whenever [getFenceCompletedValue] is already at or past a value
    that is not negative, [waitForFence] for that value returns at once,
    whatever the operating system would have done. *)
Theorem waitForFence_agrees_with_query (fuel : nat) (e : Env)
    (p : Registry.Process) (fenceHandle value : Z) (now : nat) :
  0 <= value <= INT64_MAX →
  0 <= GetCompletedValue e (Registry.get fenceHandle p) now < 2 ^ 64 →
  getFenceCompletedValue e p fenceHandle now >= value →
  waitForFence fuel e p fenceHandle value now = Some now.
Proof.
  intros Hv Hc Hq. unfold waitForFence, getFenceCompletedValue in *.
  destruct (Z.eqb_spec (Registry.get fenceHandle p) 0); [done|].
  rewrite (to_UINT64_id value) by (unfold INT64_MAX in *; lia).
  destruct (Z.ltb_spec (GetCompletedValue e (Registry.get fenceHandle p) now) value)
    as [Hlt|_]; [|done].
  exfalso. revert Hq. unfold to_jlong.
  set (c := GetCompletedValue e (Registry.get fenceHandle p) now) in *.
  destruct (Z_lt_ge_dec c (2 ^ 63)).
  - rewrite Z.mod_small by lia. lia.
  - replace ((c + 2 ^ 63) mod 2 ^ 64) with (c - 2 ^ 63); [lia|].
    apply (Z.mod_unique_pos _ _ 1); lia.
Qed.

Lemma waitForFence_agrees_with_query_witness :
  let p := (Registry.store 600 Registry.boot).2 in
  let e := {| GetCompletedValue := λ _ _, 12;
              CreateEvent := None;
              SetEventOnCompletion := false |} in
  (0 <= 10 <= INT64_MAX
   ∧ 0 <= GetCompletedValue e (Registry.get 1 p) 3 < 2 ^ 64
   ∧ getFenceCompletedValue e p 1 3 >= 10)
  ∧ waitForFence 0 e p 1 10 3 = Some 3%nat.
Proof.
  intros p e.
  assert (H1 : 0 <= 10 <= INT64_MAX) by (unfold INT64_MAX; lia).
  assert (H2 : 0 <= GetCompletedValue e (Registry.get 1 p) 3 < 2 ^ 64)
    by (change (0 <= 12 < 2 ^ 64); lia).
  assert (H3 : getFenceCompletedValue e p 1 3 >= 10) by (vm_compute; discriminate).
  split; [tauto|].
  exact (waitForFence_agrees_with_query 0 e p 1 10 3 H1 H2 H3).
Defined.

(** X11: a fence handle that has been destroyed is not an error anywhere:
    [waitForFence] on it returns at once without waiting, and
    [getFenceCompletedValue] reads 0, as it would for a live fence that
    has completed nothing. *)
Theorem destroyed_fence_does_not_wait (fuel : nat) (e : Env)
    (p : Registry.Process) (fenceHandle value : Z) (now : nat) :
  waitForFence fuel e (Registry.destroy fenceHandle p) fenceHandle value now
    = Some now
  ∧ getFenceCompletedValue e (Registry.destroy fenceHandle p) fenceHandle now = 0.
Proof.
  assert (H : Registry.get fenceHandle (Registry.destroy fenceHandle p) = 0).
  { apply RegistryFacts.get_dead, RegistryFacts.release_kills. }
  unfold waitForFence, getFenceCompletedValue. rewrite H. done.
Qed.

End FenceMore.

(** ** Command lists: the life cycle and the descriptor slots *)

Module CommandListMore.
Import CommandList.

Lemma closed_snoc cs receiver c commandList :
  closed (cs ++ [(receiver, c)]) commandList =
    if receiver =? commandList
    then match c with
         | Close => true
         | Reset _ _ => false
         | _ => closed cs commandList
         end
    else closed cs commandList.
Proof. unfold closed. by rewrite fold_left_app. Qed.

Lemma record_keeps_state n w e commandList :
  closed (calls (record n w e)) commandList = closed (calls w) commandList.
Proof.
  destruct e; cbn [record]; CommandListFacts.unfold_entry;
    repeat (match goal with |- context [if ?b then _ else _] => destruct b end);
    try reflexivity;
    unfold call; cbn [calls]; rewrite closed_snoc;
    by destruct (_ =? commandList).
Qed.

(** X12: the recording entry points never close or reopen a list, whatever
    their arguments; [closeCommandList] closes the list behind a handle that
    resolves and [resetCommandList] reopens it when the allocator resolves
    too, both leaving every other list as it is; and a list comes out of
    [createCommandList] closed. *)
Theorem list_life_cycle (n : Native) (w : World) :
  (∀ e commandList,
     closed (calls (record n w e)) commandList = closed (calls w) commandList)
  ∧ (∀ h commandList,
       closed (calls (closeCommandList w h)) commandList =
         if negb (GET_HANDLE w h =? 0) && (GET_HANDLE w h =? commandList)
         then true else closed (calls w) commandList)
  ∧ (∀ h allocator pso commandList,
       closed (calls (resetCommandList w h allocator pso)) commandList =
         if negb (GET_HANDLE w h =? 0) && negb (GET_HANDLE w allocator =? 0)
            && (GET_HANDLE w h =? commandList)
         then false else closed (calls w) commandList)
  ∧ (∀ device allocator,
       (createCommandList n w device allocator).1 ≠ 0 →
       let w' := (createCommandList n w device allocator).2 in
       closed (calls w') (GET_HANDLE w' (createCommandList n w device allocator).1)
         = true).
Proof.
  split; [intros; apply record_keeps_state|]. split; [|split].
  - intros h commandList. unfold closeCommandList.
    destruct (GET_HANDLE w h =? 0); simpl; [done|].
    unfold call; cbn [calls]. rewrite closed_snoc.
    by destruct (GET_HANDLE w h =? commandList).
  - intros h allocator pso commandList. unfold resetCommandList.
    destruct (GET_HANDLE w h =? 0); simpl; [done|].
    destruct (GET_HANDLE w allocator =? 0); simpl; [done|].
    unfold call; cbn [calls]. rewrite closed_snoc.
    by destruct (GET_HANDLE w h =? commandList).
  - intros device allocator. unfold createCommandList.
    destruct ((GET_HANDLE w device =? 0) || (GET_HANDLE w allocator =? 0)); [done|].
    destruct (CreateCommandList n _ _) as [commandList|]; [|done].
    rewrite RegistryFacts.store_nonnull by done. cbn [fst snd].
    intros _. unfold GET_HANDLE, Registry.get, call.
    cbn [proc calls Registry.inst Registry.objects_ Registry.refs].
    rewrite lookup_insert_eq, closed_snoc.
    by rewrite Z.eqb_refl.
Qed.

(** X13: [createRTV], [setRenderTarget] and [clearRenderTarget] address the
    same descriptor for the same device, heap and index; for an index
    inside a heap of [N] descriptors that fits the address space it is the
    heap start plus [index] times the increment of the device, so different
    indices give different descriptors, all inside the heap. *)
Theorem descriptor_slots_agree (n : Native) (w : World)
    (listHandle deviceHandle resourceHandle heapHandle index N r g b a : Z) :
  GET_HANDLE w listHandle ≠ 0 →
  GET_HANDLE w deviceHandle ≠ 0 →
  GET_HANDLE w resourceHandle ≠ 0 →
  GET_HANDLE w heapHandle ≠ 0 →
  let increment := GetDescriptorHandleIncrementSize n (GET_HANDLE w deviceHandle) in
  let start := GetCPUDescriptorHandleForHeapStart n (GET_HANDLE w heapHandle) in
  0 < increment → 0 <= start →
  N * increment <= 2 ^ 32 → start + N * increment <= 2 ^ 64 →
  0 <= index < N →
  let slot := start + index * increment in
  start <= slot < start + N * increment
  ∧ Views.createRTV n (proc w) deviceHandle resourceHandle heapHandle index
    = Some (GET_HANDLE w deviceHandle,
            Views.CreateRenderTargetView (GET_HANDLE w resourceHandle) 0 slot)
  ∧ last (calls (setRenderTarget n w listHandle deviceHandle heapHandle index))
    = Some (GET_HANDLE w listHandle, OMSetRenderTargets slot)
  ∧ last (calls (clearRenderTarget n w listHandle deviceHandle heapHandle index
                   r g b a))
    = Some (GET_HANDLE w listHandle, ClearRenderTargetView slot r g b a).
Proof.
  intros Hl Hd Hr Hh increment start Hinc Hstart HN Hfit Hi slot.
  assert (Hprod : 0 <= index * increment < N * increment) by nia.
  assert (Hslot : to_UINT64 (start + to_UINT (index * increment)) = slot).
  { rewrite to_UINT_id by lia. apply to_UINT64_id. subst slot. lia. }
  split; [subst slot; lia|].
  unfold Views.createRTV, setRenderTarget, clearRenderTarget, rtv_slot.
  unfold GET_HANDLE in *.
  destruct (Z.eqb_spec (Registry.get deviceHandle (proc w)) 0); [done|].
  destruct (Z.eqb_spec (Registry.get resourceHandle (proc w)) 0); [done|].
  destruct (Z.eqb_spec (Registry.get heapHandle (proc w)) 0); [done|].
  destruct (Z.eqb_spec (Registry.get listHandle (proc w)) 0); [done|].
  cbn [orb]. fold increment start. rewrite Hslot.
  unfold call; cbn [calls]. by rewrite !last_snoc.
Qed.

Lemma descriptor_slots_agree_witness :
  let w := {| proc := (Registry.store 400 (Registry.store 300
                         (Registry.store 200 (Registry.store 100 Registry.boot).2).2).2).2;
              calls := [] |} in
  (GET_HANDLE w 1 ≠ 0 ∧ GET_HANDLE w 2 ≠ 0 ∧ GET_HANDLE w 3 ≠ 0 ∧ GET_HANDLE w 4 ≠ 0
   ∧ 0 < 32 ∧ 0 <= 4096 ∧ 8 * 32 <= 2 ^ 32 ∧ 4096 + 8 * 32 <= 2 ^ 64 ∧ 0 <= 5 < 8)
  ∧ 4096 <= 4096 + 5 * 32 < 4096 + 8 * 32
  ∧ Views.createRTV a_driver (proc w) 2 3 4 5
    = Some (GET_HANDLE w 2, Views.CreateRenderTargetView (GET_HANDLE w 3) 0 (4096 + 5 * 32))
  ∧ last (calls (setRenderTarget a_driver w 1 2 4 5))
    = Some (GET_HANDLE w 1, OMSetRenderTargets (4096 + 5 * 32))
  ∧ last (calls (clearRenderTarget a_driver w 1 2 4 5 0 0 0 1065353216))
    = Some (GET_HANDLE w 1, ClearRenderTargetView (4096 + 5 * 32) 0 0 0 1065353216).
Proof.
  intros w.
  assert (H1 : GET_HANDLE w 1 ≠ 0) by discriminate.
  assert (H2 : GET_HANDLE w 2 ≠ 0) by discriminate.
  assert (H3 : GET_HANDLE w 3 ≠ 0) by discriminate.
  assert (H4 : GET_HANDLE w 4 ≠ 0) by discriminate.
  assert (H5 : 0 < 32) by lia.
  assert (H6 : 0 <= 4096) by lia.
  assert (H7 : 8 * 32 <= 2 ^ 32) by lia.
  assert (H8 : 4096 + 8 * 32 <= 2 ^ 64) by lia.
  assert (H9 : 0 <= 5 < 8) by lia.
  split; [tauto|].
  exact (descriptor_slots_agree a_driver w 1 2 3 4 5 8 0 0 0 1065353216
           H1 H2 H3 H4 H5 H6 H7 H8 H9).
Defined.

End CommandListMore.

(** ** Buffer upload *)

Module UploadFacts.
Import Upload.

Lemma word_of_bytes x :
  0 <= x < 2 ^ 32 →
  (x / 2 ^ (8 * 0)) mod 256 + 2 ^ 8 * ((x / 2 ^ (8 * 1)) mod 256)
  + 2 ^ 16 * ((x / 2 ^ (8 * 2)) mod 256) + 2 ^ 24 * ((x / 2 ^ (8 * 3)) mod 256) = x.
Proof.
  intros Hx.
  change (2 ^ (8 * 0)) with 1. change (2 ^ (8 * 1)) with 256.
  change (2 ^ (8 * 2)) with 65536. change (2 ^ (8 * 3)) with 16777216.
  change (2 ^ 8) with 256. change (2 ^ 16) with 65536.
  change (2 ^ 24) with 16777216. change (2 ^ 32) with 4294967296 in Hx.
  Z.to_euclidean_division_equations. lia.
Qed.

Lemma floatData_at data (i : nat) x k :
  data !! i = Some x → 0 <= k < 4 →
  floatData data (4 * Z.of_nat i + k) = (x / 2 ^ (8 * k)) mod 256.
Proof.
  intros Hx Hk. unfold floatData.
  assert (Hd : (4 * Z.of_nat i + k) / 4 = Z.of_nat i).
  { symmetry. apply (Z.div_unique_pos _ _ _ k); lia. }
  assert (Hm : (4 * Z.of_nat i + k) mod 4 = k).
  { symmetry. apply (Z.mod_unique_pos _ _ (Z.of_nat i) k); lia. }
  by rewrite Hd, Hm, Nat2Z.id, Hx.
Qed.

(** X14: with a buffer that resolves and maps, an [offset] that is not
    negative and a [count] within the array, [uploadBufferData] puts
    element [i] of the array at float [offset + i] of the mapping, for every
    [i] below [count], and leaves every byte outside those [count] floats as
    it was. *)
Theorem upload_writes_the_floats (p : Registry.Process) (Map : Z → option Z)
    (memory : Z → Z) (bufferHandle : Z) (data : list Z) (offset count mapped : Z) :
  Registry.get bufferHandle p ≠ 0 →
  Map (Registry.get bufferHandle p) = Some mapped →
  0 <= offset <= INT32_MAX →
  0 <= count <= Z.of_nat (length data) →
  count <= INT32_MAX →
  0 <= mapped →
  mapped + 4 * (offset + count) < 2 ^ 64 →
  Forall (λ x, 0 <= x < 2 ^ 32) data →
  ∃ memory',
    uploadBufferData p Map memory bufferHandle data offset count = Some memory'
    ∧ (∀ (i : nat) x, data !! i = Some x → Z.of_nat i < count →
         word_at memory' (mapped + 4 * (offset + Z.of_nat i)) = x)
    ∧ (∀ a, a < mapped + 4 * offset ∨ mapped + 4 * (offset + count) <= a →
         memory' a = memory a).
Proof.
  intros Hvalid Hmap Hoff Hcount Hcmax Hbase Hfit Hdata.
  unfold uploadBufferData.
  destruct (Z.eqb_spec (Registry.get bufferHandle p) 0); [done|].
  rewrite Hmap.
  assert (Hn : to_UINT64 (to_UINT64 count * 4) = 4 * count).
  { unfold INT32_MAX in *. rewrite (to_UINT64_id count) by lia.
    rewrite to_UINT64_id; lia. }
  assert (Hd : to_UINT64 (mapped + to_UINT64 (to_UINT64 offset * 4))
               = mapped + 4 * offset).
  { unfold INT32_MAX in *. rewrite (to_UINT64_id offset) by lia.
    rewrite (to_UINT64_id (offset * 4)) by lia.
    rewrite to_UINT64_id; lia. }
  rewrite Hn, Hd.
  destruct (Z.leb_spec (4 * count) (4 * Z.of_nat (length data))); [|lia].
  eexists. split; [reflexivity|]. split.
  - intros i x Hx Hi.
    assert (Hr : 0 <= x < 2 ^ 32).
    { rewrite Forall_forall in Hdata. apply Hdata.
      apply list_elem_of_lookup. eauto. }
    assert (Hbyte : ∀ k, 0 <= k < 4 →
              Readback.memcpy memory (mapped + 4 * offset) (floatData data) 0
                (4 * count) (mapped + 4 * (offset + Z.of_nat i) + k)
              = (x / 2 ^ (8 * k)) mod 256).
    { intros k Hk. unfold Readback.memcpy.
      destruct (Z.leb_spec (mapped + 4 * offset)
                  (mapped + 4 * (offset + Z.of_nat i) + k)); [|lia].
      destruct (Z.ltb_spec (mapped + 4 * (offset + Z.of_nat i) + k)
                  (mapped + 4 * offset + 4 * count)); [|lia].
      cbn [andb].
      replace (0 + (mapped + 4 * (offset + Z.of_nat i) + k - (mapped + 4 * offset)))
        with (4 * Z.of_nat i + k) by lia.
      by apply floatData_at. }
    unfold word_at.
    replace (mapped + 4 * (offset + Z.of_nat i))
      with (mapped + 4 * (offset + Z.of_nat i) + 0) at 1 by lia.
    rewrite !Hbyte by lia. by apply word_of_bytes.
  - intros a Ha. unfold Readback.memcpy.
    destruct (Z.leb_spec (mapped + 4 * offset) a);
      destruct (Z.ltb_spec a (mapped + 4 * offset + 4 * count));
      cbn [andb]; try reflexivity.
    lia.
Qed.

Lemma upload_writes_the_floats_witness :
  let p := (Registry.store 100 Registry.boot).2 in
  let Map := λ _ : Z, Some 4096 in
  let data := [1065353216; 0; 3212836864] in
  (Registry.get 1 p ≠ 0 ∧ 0 <= 2 <= INT32_MAX ∧ 0 <= 3 <= Z.of_nat (length data)
   ∧ 3 <= INT32_MAX ∧ 0 <= 4096 ∧ 4096 + 4 * (2 + 3) < 2 ^ 64
   ∧ Forall (λ x, 0 <= x < 2 ^ 32) data)
  ∧ ∃ memory',
      uploadBufferData p Map (λ _, 255) 1 data 2 3 = Some memory'
      ∧ (∀ (i : nat) x, data !! i = Some x → Z.of_nat i < 3 →
           word_at memory' (4096 + 4 * (2 + Z.of_nat i)) = x)
      ∧ (∀ a, a < 4096 + 4 * 2 ∨ 4096 + 4 * (2 + 3) <= a → memory' a = 255).
Proof.
  intros p Map data.
  assert (H1 : Registry.get 1 p ≠ 0) by discriminate.
  assert (H2 : 0 <= 2 <= INT32_MAX) by (unfold INT32_MAX; lia).
  assert (H3 : 0 <= 3 <= Z.of_nat (length data)) by (simpl; lia).
  assert (H4 : 3 <= INT32_MAX) by (unfold INT32_MAX; lia).
  assert (H5 : 0 <= 4096) by lia.
  assert (H6 : 4096 + 4 * (2 + 3) < 2 ^ 64) by lia.
  assert (H7 : Forall (λ x, 0 <= x < 2 ^ 32) data) by (repeat constructor; lia).
  split; [tauto|].
  exact (upload_writes_the_floats p Map (λ _, 255) 1 data 2 3 4096
           H1 eq_refl H2 H3 H4 H5 H6 H7).
Defined.

(** X15: [uploadBufferData] checks neither [count] nor the handle loudly:
    a buffer that does not resolve or does not map leaves the memory as it
    is, and on a mapped buffer a negative [count], or one beyond the
    length of the array, makes [memcpy] read past the array. *)
Theorem upload_edges (p : Registry.Process) (Map : Z → option Z)
    (memory : Z → Z) (bufferHandle : Z) (data : list Z) (offset count : Z) :
  Z.of_nat (length data) <= INT32_MAX →
  - 2 ^ 31 <= count <= INT32_MAX →
  (Registry.get bufferHandle p = 0 ∨ Map (Registry.get bufferHandle p) = None →
   uploadBufferData p Map memory bufferHandle data offset count = Some memory)
  ∧ (Registry.get bufferHandle p ≠ 0 →
     is_Some (Map (Registry.get bufferHandle p)) →
     count < 0 ∨ Z.of_nat (length data) < count →
     uploadBufferData p Map memory bufferHandle data offset count = None).
Proof.
  intros Hlen Hcount. unfold uploadBufferData, INT32_MAX in *. split.
  - intros [->|H]; [reflexivity|].
    destruct (_ =? 0); [reflexivity|]. by rewrite H.
  - intros Hvalid [mapped ->] Hbad.
    destruct (Z.eqb_spec (Registry.get bufferHandle p) 0); [done|].
    assert (Hn : 4 * Z.of_nat (length data) < to_UINT64 (to_UINT64 count * 4)).
    { destruct (Z_lt_ge_dec count 0) as [Hneg|Hpos].
      - assert (Hu : to_UINT64 count = 2 ^ 64 + count).
        { unfold to_UINT64. symmetry. apply (Z.mod_unique_pos _ _ (-1)); lia. }
        rewrite Hu.
        assert (Hm : to_UINT64 ((2 ^ 64 + count) * 4) = 2 ^ 64 + 4 * count).
        { unfold to_UINT64. symmetry. apply (Z.mod_unique_pos _ _ 3); lia. }
        rewrite Hm. lia.
      - rewrite (to_UINT64_id count) by lia.
        rewrite to_UINT64_id; lia. }
    destruct (Z.leb_spec (to_UINT64 (to_UINT64 count * 4))
                (4 * Z.of_nat (length data))); [lia | reflexivity].
Qed.

Lemma upload_edges_witness :
  let p := (Registry.store 100 Registry.boot).2 in
  let Map := λ _ : Z, Some 4096 in
  let data := [1065353216; 0] in
  (Z.of_nat (length data) <= INT32_MAX ∧ - 2 ^ 31 <= 3 <= INT32_MAX)
  ∧ (Registry.get 1 p = 0 ∨ Map (Registry.get 1 p) = None →
     uploadBufferData p Map (λ _, 0) 1 data 0 3 = Some (λ _, 0))
  ∧ (Registry.get 1 p ≠ 0 →
     is_Some (Map (Registry.get 1 p)) →
     3 < 0 ∨ Z.of_nat (length data) < 3 →
     uploadBufferData p Map (λ _, 0) 1 data 0 3 = None).
Proof.
  intros p Map data.
  assert (H1 : Z.of_nat (length data) <= INT32_MAX) by (vm_compute; discriminate).
  assert (H2 : - 2 ^ 31 <= 3 <= INT32_MAX) by (unfold INT32_MAX; lia).
  split; [tauto|].
  exact (upload_edges p Map (λ _, 0) 1 data 0 3 H1 H2).
Defined.

End UploadFacts.

(** ** Pixel readback: padding, bounds and the mapped range *)

Module ReadbackMore.
Import Readback.

(** X16: within the range of [int], the row pitch exceeds the [4 * W] bytes
    of a row by less than 256, and by nothing exactly when [W] is a
    multiple of 64. *)
Theorem rowPitch_padding (W : Z) :
  1 <= W → 4 * W + 255 <= INT32_MAX →
  4 * W <= rowPitch W < 4 * W + 256
  ∧ (rowPitch W = 4 * W ↔ (64 | W)).
Proof.
  intros HW Hfit. rewrite (ReadbackFacts.rowPitch_small W HW Hfit).
  pose proof (Z.div_mod (4 * W + 255) 256 ltac:(lia)) as Hdm.
  pose proof (Z.mod_pos_bound (4 * W + 255) 256 ltac:(lia)) as Hm.
  split; [lia|]. split.
  - intros E. exists ((4 * W + 255) / 256). lia.
  - intros [q ->].
    assert (Hq : (4 * (q * 64) + 255) / 256 = q).
    { symmetry. apply (Z.div_unique_pos _ _ q 255); lia. }
    rewrite Hq. lia.
Qed.

Lemma rowPitch_padding_witness :
  (1 <= 100 ∧ 4 * 100 + 255 <= INT32_MAX)
  ∧ 4 * 100 <= rowPitch 100 < 4 * 100 + 256
  ∧ (rowPitch 100 = 4 * 100 ↔ (64 | 100)).
Proof.
  assert (H1 : 1 <= 100) by lia.
  assert (H2 : 4 * 100 + 255 <= INT32_MAX) by (unfold INT32_MAX; lia).
  split; [tauto|].
  exact (rowPitch_padding 100 H1 H2).
Defined.

Lemma row_loop_above W mapped n : ∀ y0 pd a,
  1 <= W → 4 * W <= INT32_MAX →
  (∀ y, y0 <= y < y0 + Z.of_nat n → row_in_range W y) →
  4 * ((y0 + Z.of_nat n) * W) <= a →
  row_loop n y0 W mapped pd a = pd a.
Proof.
  induction n as [|n IH]; intros y0 pd a HW Hfit Hr Ha; [reflexivity|].
  cbn [row_loop]. rewrite IH; try done.
  - rewrite (ReadbackFacts.copy_row_at W mapped HW Hfit) by (apply Hr; lia).
    destruct (Z.ltb_spec a (4 * (y0 * W) + 4 * W)); [nia|].
    by rewrite andb_false_r.
  - intros y Hy. apply Hr. lia.
  - rewrite Nat2Z.inj_succ in Ha. nia.
Qed.

Lemma rows_in_range W H :
  1 <= W → 0 <= H → W * H <= INT32_MAX → (H - 1) * rowPitch W < 2 ^ 32 →
  ∀ y, 0 <= y < 0 + Z.of_nat (Z.to_nat H) → row_in_range W y.
Proof.
  intros HW HH Harea Hpitch y Hy. rewrite Z2Nat.id in Hy by lia.
  pose proof (ReadbackFacts.rp_nonneg W).
  unfold row_in_range, INT32_MAX in *. repeat split; nia.
Qed.

(** X17: within the range of [int], [readBufferData] never writes outside
    the [W * H] words of the output array, whatever the buffer handle and
    the mapping are. *)
Theorem readBufferData_stays_inside (p : Registry.Process)
    (Map : Z → Z → Z → option (Z → Z)) (bufferHandle : Z) (pixels : Z → Z)
    (W H : Z) :
  1 <= W → 0 <= H →
  4 * W <= INT32_MAX →
  W * H <= INT32_MAX →
  (H - 1) * rowPitch W < 2 ^ 32 →
  ∀ a, a < 0 ∨ 4 * (W * H) <= a →
       readBufferData p Map bufferHandle pixels W H a = pixels a.
Proof.
  intros HW HH Hfit Harea Hpitch a Ha. unfold readBufferData.
  destruct (_ =? 0); [reflexivity|].
  destruct (Map _ _ _) as [mapped|]; [|reflexivity].
  pose proof (rows_in_range W H HW HH Harea Hpitch) as Hrows.
  destruct Ha as [Ha|Ha].
  - apply (ReadbackFacts.row_loop_below W mapped HW Hfit); [done | lia].
  - apply row_loop_above; try done.
    rewrite Z2Nat.id by lia. lia.
Qed.

Lemma readBufferData_stays_inside_witness :
  let p := (Registry.store 100 Registry.boot).2 in
  let Map := λ (_ _ _ : Z), Some (λ _ : Z, 7) in
  (1 <= 3 ∧ 0 <= 2 ∧ 4 * 3 <= INT32_MAX ∧ 3 * 2 <= INT32_MAX
   ∧ (2 - 1) * rowPitch 3 < 2 ^ 32)
  ∧ ∀ a, a < 0 ∨ 4 * (3 * 2) <= a →
         readBufferData p Map 1 (λ _, 0) 3 2 a = 0.
Proof.
  intros p Map.
  assert (H1 : 1 <= 3) by lia.
  assert (H2 : 0 <= 2) by lia.
  assert (H3 : 4 * 3 <= INT32_MAX) by (unfold INT32_MAX; lia).
  assert (H4 : 3 * 2 <= INT32_MAX) by (unfold INT32_MAX; lia).
  assert (H5 : (2 - 1) * rowPitch 3 < 2 ^ 32) by reflexivity.
  split; [tauto|].
  exact (readBufferData_stays_inside p Map 1 (λ _, 0) 3 2 H1 H2 H3 H4 H5).
Defined.

(** X18: the read range that [readBufferData] declares to [Map] ends at
    [4 * W * H], the size of the packed image, but the rows are read at the
    row pitch: for a width that is no multiple of 64 and at least two rows,
    the last byte of the output comes from an offset of the mapping at or
    past the declared end. *)
Theorem read_range_ends_early (p : Registry.Process)
    (Map : Z → Z → Z → option (Z → Z)) (bufferHandle : Z)
    (pixels mapped : Z → Z) (W H : Z) :
  1 <= W → 2 <= H → ¬ (64 | W) →
  4 * W + 255 <= INT32_MAX →
  4 * (W * H) <= INT32_MAX →
  (H - 1) * rowPitch W < 2 ^ 32 →
  Registry.get bufferHandle p ≠ 0 →
  Map (Registry.get bufferHandle p) 0 (4 * (W * H)) = Some mapped →
  readBufferData p Map bufferHandle pixels W H (4 * (W * H) - 1)
    = mapped ((H - 1) * rowPitch W + 4 * W - 1)
  ∧ 4 * (W * H) <= (H - 1) * rowPitch W + 4 * W - 1.
Proof.
  intros HW HH Hno Hfit Harea Hpitch Hvalid Hmap.
  assert (Hgt : 4 * W < rowPitch W).
  { destruct (ReadbackFacts.rowPitch_least W HW Hfit) as ([q Hq] & Hge & _).
    destruct (Z.eq_dec (rowPitch W) (4 * W)) as [E|E]; [|lia].
    destruct Hno. exists q. lia. }
  split; [|nia].
  unfold readBufferData.
  destruct (Z.eqb_spec (Registry.get bufferHandle p) 0); [done|].
  assert (Hend : to_UINT64 (to_jint (to_jint (W * H) * 4)) = 4 * (W * H)).
  { unfold INT32_MAX in *.
    rewrite (to_jint_id (W * H)) by (unfold INT32_MAX; nia).
    rewrite to_jint_id by (unfold INT32_MAX; nia).
    rewrite to_UINT64_id; nia. }
  rewrite Hend, Hmap.
  replace (4 * (W * H) - 1) with (4 * ((H - 1) * W) + (4 * W - 1)) by lia.
  replace ((H - 1) * rowPitch W + 4 * W - 1)
    with ((H - 1) * rowPitch W + (4 * W - 1)) by lia.
  apply ReadbackFacts.row_loop_row; unfold INT32_MAX in *; try lia.
  apply rows_in_range; unfold INT32_MAX; nia.
Qed.

Lemma read_range_ends_early_witness :
  let p := (Registry.store 100 Registry.boot).2 in
  let mapped := λ a : Z, a mod 251 in
  let Map := λ (_ _ _ : Z), Some mapped in
  (1 <= 3 ∧ 2 <= 2 ∧ ¬ (64 | 3) ∧ 4 * 3 + 255 <= INT32_MAX
   ∧ 4 * (3 * 2) <= INT32_MAX ∧ (2 - 1) * rowPitch 3 < 2 ^ 32
   ∧ Registry.get 1 p ≠ 0)
  ∧ readBufferData p Map 1 (λ _, 0) 3 2 (4 * (3 * 2) - 1)
    = mapped ((2 - 1) * rowPitch 3 + 4 * 3 - 1)
  ∧ 4 * (3 * 2) <= (2 - 1) * rowPitch 3 + 4 * 3 - 1.
Proof.
  intros p mapped Map.
  assert (H1 : 1 <= 3) by lia.
  assert (H2 : 2 <= 2) by lia.
  assert (H3 : ¬ (64 | 3)) by (intros [q Hq]; lia).
  assert (H4 : 4 * 3 + 255 <= INT32_MAX) by (unfold INT32_MAX; lia).
  assert (H5 : 4 * (3 * 2) <= INT32_MAX) by (unfold INT32_MAX; lia).
  assert (H6 : (2 - 1) * rowPitch 3 < 2 ^ 32) by reflexivity.
  assert (H7 : Registry.get 1 p ≠ 0) by discriminate.
  split; [tauto|].
  exact (read_range_ends_early p Map 1 (λ _, 0) mapped 3 2
           H1 H2 H3 H4 H5 H6 H7 eq_refl).
Defined.

End ReadbackMore.

(** ** Pipeline state objects: the input layout and the outcome *)

Module PipelineMore.
Import Pipeline.

Lemma semantic_of_index (i j : nat) f o f' o' :
  i ≠ j →
  (SemanticName (input_element i f o), SemanticIndex (input_element i f o))
  ≠ (SemanticName (input_element j f' o'), SemanticIndex (input_element j f' o')).
Proof.
  intros Hne. unfold input_element; cbn [SemanticName SemanticIndex].
  destruct i as [|[|[|i]]], j as [|[|[|j]]];
    cbn [Nat.ltb Nat.leb semantics]; try done; try discriminate;
    intros [= E]; lia.
Qed.

(** X19: the input layout that [createPipelineState] builds has one element
    per format, element [i] carrying format [i] and offset [i]; and no two
    elements share a semantic: element 0 is POSITION 0, element 1 COLOR 0,
    and element [i >= 2] TEXCOORD [i - 2]. *)
Theorem input_layout_shape (formats offsets : list Z)
    (layout : list D3D12_INPUT_ELEMENT_DESC) :
  build_layout formats offsets = Some layout →
  length layout = length formats
  ∧ (∀ (i : nat) e, layout !! i = Some e →
       ∃ format offset, formats !! i = Some format ∧ offsets !! i = Some offset
                        ∧ e = input_element i format offset)
  ∧ (∀ (i j : nat) ei ej, i ≠ j → layout !! i = Some ei → layout !! j = Some ej →
       (SemanticName ei, SemanticIndex ei) ≠ (SemanticName ej, SemanticIndex ej)).
Proof.
  intros H. unfold build_layout in H. apply mapM_Some_1 in H.
  assert (Helem : ∀ (i : nat) e, layout !! i = Some e →
            ∃ format offset, formats !! i = Some format ∧ offsets !! i = Some offset
                             ∧ e = input_element i format offset).
  { intros i e He.
    destruct (Forall2_lookup_r _ _ _ _ _ H He) as (x & Hx & Hf).
    apply lookup_seq in Hx as [-> _]. simpl in Hf.
    destruct (formats !! i) as [f|]; [|discriminate].
    destruct (offsets !! i) as [o|]; [|discriminate].
    simpl in Hf. injection Hf as <-. eauto. }
  split; [|split; [exact Helem|]].
  - apply Forall2_length in H. by rewrite length_seq in H.
  - intros i j ei ej Hne Hi Hj.
    destruct (Helem i ei Hi) as (f & o & _ & _ & ->).
    destruct (Helem j ej Hj) as (f' & o' & _ & _ & ->).
    by apply semantic_of_index.
Qed.

Lemma input_layout_shape_witness :
  let layout := [input_element 0 6 0; input_element 1 2 12; input_element 2 16 28;
                 input_element 3 16 36] in
  build_layout [6; 2; 16; 16] [0; 12; 28; 36; 44] = Some layout
  ∧ length layout = length [6; 2; 16; 16]
  ∧ (∀ (i : nat) e, layout !! i = Some e →
       ∃ format offset, [6; 2; 16; 16] !! i = Some format
                        ∧ [0; 12; 28; 36; 44] !! i = Some offset
                        ∧ e = input_element i format offset)
  ∧ (∀ (i j : nat) ei ej, i ≠ j → layout !! i = Some ei → layout !! j = Some ej →
       (SemanticName ei, SemanticIndex ei) ≠ (SemanticName ej, SemanticIndex ej)).
Proof.
  intros layout.
  assert (H : build_layout [6; 2; 16; 16] [0; 12; 28; 36; 44] = Some layout)
    by reflexivity.
  split; [exact H|].
  exact (input_layout_shape [6; 2; 16; 16] [0; 12; 28; 36; 44] layout H).
Defined.

Section Outcome.
Variable CreateGraphicsPipelineState :
  Z → D3D12_GRAPHICS_PIPELINE_STATE_DESC → option positive.

Local Abbreviation create := (createPipelineState CreateGraphicsPipelineState).

(** X20: with an offset for every format, in a registry whose counter is
    past its handles, [createPipelineState] returns 0 exactly when the
    device handle or the root signature handle does not resolve or the
    driver refuses the descriptor, and then changes nothing; otherwise the
    handle resolves to the pipeline object of the driver and the two
    handles it was given resolve as before. *)
Theorem createPipelineState_outcome (p : Registry.Process)
    (deviceHandle rootSigHandle : Z) (vs ps : list Z) (topologyType blendMode : Z)
    (formats offsets : list Z) (stride : Z) :
  (length formats <= length offsets)%nat →
  Registry.next p ≠ 0 →
  ¬ Registry.live p (Registry.next p) →
  ∃ layout h p',
    build_layout formats offsets = Some layout
    ∧ create p deviceHandle rootSigHandle vs ps topologyType blendMode
        formats offsets stride = Some (h, p')
    ∧ (h = 0 ↔
       Registry.get deviceHandle p = 0 ∨ Registry.get rootSigHandle p = 0
       ∨ CreateGraphicsPipelineState (Registry.get deviceHandle p)
           (pso_desc (Registry.get rootSigHandle p) vs ps topologyType blendMode
              layout) = None)
    ∧ (h = 0 → p' = p)
    ∧ (h ≠ 0 →
       CreateGraphicsPipelineState (Registry.get deviceHandle p)
         (pso_desc (Registry.get rootSigHandle p) vs ps topologyType blendMode
            layout) = Some (Z.to_pos (Registry.get h p'))
       ∧ Registry.get h p' ≠ 0
       ∧ Registry.get deviceHandle p' = Registry.get deviceHandle p
       ∧ Registry.get rootSigHandle p' = Registry.get rootSigHandle p).
Proof.
  intros Hlen Hnext Hfresh.
  assert (Hlayout : is_Some (build_layout formats offsets)).
  { rewrite <- (take_drop (length formats) offsets).
    rewrite PipelineFacts.build_layout_extra by (rewrite length_take; lia).
    apply PipelineFacts.build_layout_defined. rewrite length_take. lia. }
  destruct Hlayout as [layout Hlayout]. exists layout.
  unfold createPipelineState. rewrite Hlayout.
  destruct (Z.eqb_spec (Registry.get deviceHandle p) 0) as [Hd|Hd].
  { exists 0, p. split; [done|]. split; [reflexivity|].
    split; [tauto|]. split; [done|]. intros H; done. }
  destruct (Z.eqb_spec (Registry.get rootSigHandle p) 0) as [Hr|Hr].
  { exists 0, p. split; [done|]. split; [reflexivity|].
    split; [tauto|]. split; [done|]. intros H; done. }
  cbn [orb mbind option_bind].
  destruct (CreateGraphicsPipelineState _ _) as [pso|] eqn:E.
  - rewrite RegistryFacts.store_nonnull by done.
    eexists _, _. split; [reflexivity|]. split; [reflexivity|].
    assert (Hother : ∀ k, Registry.get k p ≠ 0 → k ≠ Registry.next p).
    { intros k Hk ->. apply Hfresh. unfold Registry.live.
      revert Hk. unfold Registry.get.
      destruct (Registry.objects_ (Registry.inst p) !! Registry.next p); [eauto|done]. }
    repeat split.
    + intros H0. done.
    + intros [?|[?|?]]; done.
    + intros H0. done.
    + unfold Registry.get; simpl. by rewrite lookup_insert_eq.
    + unfold Registry.get; simpl. by rewrite lookup_insert_eq.
    + unfold Registry.get at 1; simpl.
      rewrite lookup_insert_ne by (apply not_eq_sym, Hother; done). done.
    + unfold Registry.get at 1; simpl.
      rewrite lookup_insert_ne by (apply not_eq_sym, Hother; done). done.
  - exists 0, p. split; [done|]. split; [reflexivity|].
    split; [tauto|]. split; [done|]. intros H; done.
Qed.

(** X21: a blend mode outside 0..4 is not refused: [GetBlendDesc] answers
    with the descriptor of mode 0, blending disabled, and
    [createPipelineState] does with it exactly what it does with mode 0. *)
Theorem unknown_blend_mode_is_none (p : Registry.Process)
    (deviceHandle rootSigHandle : Z) (vs ps : list Z) (topologyType blendMode : Z)
    (formats offsets : list Z) (stride : Z) :
  blendMode < 0 ∨ 4 < blendMode →
  Blend.GetBlendDesc blendMode = Blend.GetBlendDesc 0
  ∧ create p deviceHandle rootSigHandle vs ps topologyType blendMode
      formats offsets stride
    = create p deviceHandle rootSigHandle vs ps topologyType 0
        formats offsets stride.
Proof.
  intros Hmode.
  assert (E : Blend.GetBlendDesc blendMode = Blend.GetBlendDesc 0).
  { unfold Blend.GetBlendDesc at 1.
    unfold Blend.BLEND_NONE, Blend.BLEND_ALPHA, Blend.BLEND_ADDITIVE,
      Blend.BLEND_MULTIPLY, Blend.BLEND_PREMULTIPLIED_ALPHA.
    repeat (match goal with
            | |- context [blendMode =? ?b] =>
                destruct (Z.eqb_spec blendMode b); [lia|]
            end).
    reflexivity. }
  split; [exact E|].
  unfold createPipelineState, pso_desc. by rewrite E.
Qed.

End Outcome.

Lemma createPipelineState_outcome_witness :
  let p := (Registry.store 200 (Registry.store 100 Registry.boot).2).2 in
  let driver := λ (_ : Z) (_ : D3D12_GRAPHICS_PIPELINE_STATE_DESC), Some 300%positive in
  ((length [6; 2] <= length [0; 12; 28])%nat
   ∧ Registry.next p ≠ 0 ∧ ¬ Registry.live p (Registry.next p))
  ∧ ∃ layout h p',
      build_layout [6; 2] [0; 12; 28] = Some layout
      ∧ createPipelineState driver p 1 2 [1; 2] [3; 4] 3 1 [6; 2] [0; 12; 28] 28
        = Some (h, p')
      ∧ (h = 0 ↔
         Registry.get 1 p = 0 ∨ Registry.get 2 p = 0
         ∨ driver (Registry.get 1 p)
             (pso_desc (Registry.get 2 p) [1; 2] [3; 4] 3 1 layout) = None)
      ∧ (h = 0 → p' = p)
      ∧ (h ≠ 0 →
         driver (Registry.get 1 p)
           (pso_desc (Registry.get 2 p) [1; 2] [3; 4] 3 1 layout)
         = Some (Z.to_pos (Registry.get h p'))
         ∧ Registry.get h p' ≠ 0
         ∧ Registry.get 1 p' = Registry.get 1 p
         ∧ Registry.get 2 p' = Registry.get 2 p).
Proof.
  intros p driver.
  assert (H1 : (length [6; 2] <= length [0; 12; 28])%nat) by (simpl; lia).
  assert (H2 : Registry.next p ≠ 0) by discriminate.
  assert (H3 : ¬ Registry.live p (Registry.next p))
    by (intros [x Hx]; vm_compute in Hx; discriminate).
  split; [tauto|].
  exact (createPipelineState_outcome driver p 1 2 [1; 2] [3; 4] 3 1
           [6; 2] [0; 12; 28] 28 H1 H2 H3).
Defined.

Lemma unknown_blend_mode_is_none_witness :
  let p := (Registry.store 200 (Registry.store 100 Registry.boot).2).2 in
  let driver := λ (_ : Z) (_ : D3D12_GRAPHICS_PIPELINE_STATE_DESC), Some 300%positive in
  (7 < 0 ∨ 4 < 7)
  ∧ Blend.GetBlendDesc 7 = Blend.GetBlendDesc 0
  ∧ createPipelineState driver p 1 2 [1; 2] [3; 4] 3 7 [6; 2] [0; 12] 28
    = createPipelineState driver p 1 2 [1; 2] [3; 4] 3 0 [6; 2] [0; 12] 28.
Proof.
  intros p driver.
  assert (H : 7 < 0 ∨ 4 < 7) by (right; lia).
  split; [exact H|].
  exact (unknown_blend_mode_is_none driver p 1 2 [1; 2] [3; 4] 3 7
           [6; 2] [0; 12] 28 H).
Defined.

End PipelineMore.

(** ** What holds for every blend mode and every recording call *)

Module Always.

(** X22: whatever the mode, [GetBlendDesc] leaves logic operations off and
    writes all colour channels; it enables blending exactly for the modes 1
    to 4, and then both the colour and the alpha operation are ADD. *)
Theorem GetBlendDesc_invariants (mode : Z) :
  Blend.LogicOpEnable (Blend.GetBlendDesc mode) = false
  ∧ Blend.LogicOp (Blend.GetBlendDesc mode) = Blend.D3D12_LOGIC_OP_NOOP
  ∧ Blend.RenderTargetWriteMask (Blend.GetBlendDesc mode) = 15
  ∧ (Blend.BlendEnable (Blend.GetBlendDesc mode) = true ↔ 1 <= mode <= 4)
  ∧ (Blend.BlendEnable (Blend.GetBlendDesc mode) = true →
     Blend.BlendOp (Blend.GetBlendDesc mode) = Blend.D3D12_BLEND_OP_ADD
     ∧ Blend.BlendOpAlpha (Blend.GetBlendDesc mode) = Blend.D3D12_BLEND_OP_ADD).
Proof.
  unfold Blend.GetBlendDesc, Blend.BLEND_NONE, Blend.BLEND_ALPHA,
    Blend.BLEND_ADDITIVE, Blend.BLEND_MULTIPLY, Blend.BLEND_PREMULTIPLIED_ALPHA.
  repeat (match goal with
          | |- context [mode =? ?b] => destruct (Z.eqb_spec mode b)
          end);
    cbn; repeat split; try done; try lia; intros; lia.
Qed.

(** X23: a recording entry point never touches the registry and never
    rewrites what was recorded: it appends at most one call, and the
    receiver of that call is the list that its command list handle
    resolves to. *)
Theorem record_appends_to_its_list (n : CommandList.Native)
    (w : CommandList.World) (e : CommandList.Recording) :
  CommandList.proc (CommandList.record n w e) = CommandList.proc w
  ∧ ∃ suffix,
      CommandList.calls (CommandList.record n w e) = CommandList.calls w ++ suffix
      ∧ (length suffix <= 1)%nat
      ∧ ∀ rc, rc ∈ suffix →
          rc.1 = CommandList.GET_HANDLE w (CommandList.list_of e) ∧ rc.1 ≠ 0.
Proof.
  destruct e; cbn [CommandList.record CommandList.list_of];
    CommandListFacts.unfold_entry;
    repeat (match goal with
            | |- context [?x =? 0] => destruct (Z.eqb_spec x 0)
            end);
    cbn [negb andb orb];
    (split; [reflexivity|]);
    first [ exists []; rewrite app_nil_r; split; [reflexivity|];
            split; [simpl; lia|]; intros rc Hrc; by apply elem_of_nil in Hrc
          | eexists [_]; split; [reflexivity|];
            split; [simpl; lia|]; intros rc Hrc;
            apply list_elem_of_singleton in Hrc as ->; by split ].
Qed.

End Always.
